(** * giki-chatbot: the crawler core of [giki_selenium.py]

    A shallow embedding of the stateful crawler ([GIKIScraper]) and of the
    helpers it is built from ([normalize_url], [same_domain], [content_hash]),
    with the properties of the frontier, the politeness gate, the fetch
    strategy, the deduplication index and the final flush.

    Conventions.
    - A Python [str] is a [string]: one [ascii] per character, so the model
      covers text whose characters lie below U+0100.  [len] is [String.length].
    - A Python [set] of strings is a [gset string]; a Python [list] is a [list].
    - A call that can raise returns an [option] ([None] is the exception)
      unless the source catches the exception on the spot.
    - What the crawler does to the outside world (network, browser, files,
      progress bar) is recorded, in order, in the [trace] of the state. *)

From Stdlib Require Import ZArith Ascii String.
From stdpp Require Import base gmap strings list.

Local Open Scope string_scope.
Local Open Scope list_scope.

#[local] Set Warnings "-clear-no-such-hyp".

(** ** Python string operations *)

Module PyStr.

Definition code (c : ascii) : nat := nat_of_ascii c.

(** [lo <= n <= hi] *)
Definition between (lo hi n : nat) : bool := Nat.leb lo n && Nat.leb n hi.

Definition chars (s : string) : list ascii := list_ascii_of_string s.
Definition str (l : list ascii) : string := string_of_list_ascii l.

Definition char_in (c : ascii) (cs : string) : bool :=
  existsb (Ascii.eqb c) (chars cs).

(** [sub in s] *)
Fixpoint contains (sub s : string) : bool :=
  String.prefix sub s ||
  match s with
  | EmptyString => false
  | String _ s' => contains sub s'
  end.

Definition startswith (p s : string) : bool := String.prefix p s.

Definition endswith (p s : string) : bool :=
  String.prefix (str (rev (chars p))) (str (rev (chars s))).

(** [s[:n]] and [s[n:]] *)
Fixpoint take (n : nat) (s : string) : string :=
  match n, s with
  | S n', String c s' => String c (take n' s')
  | _, _ => EmptyString
  end.

Fixpoint drop (n : nat) (s : string) : string :=
  match n, s with
  | S n', String _ s' => drop n' s'
  | _, _ => s
  end.

(** [s.find(c)]: the index of the first [c], [None] for Python's [-1]. *)
Fixpoint find (c : ascii) (s : string) : option nat :=
  match s with
  | EmptyString => None
  | String d s' => if Ascii.eqb c d then Some 0 else option_map S (find c s')
  end.

(** [s.find(c, start)] *)
Definition find_from (c : ascii) (start : nat) (s : string) : option nat :=
  option_map (Nat.add start) (find c (drop start s)).

(** [s.rfind(c)] *)
Fixpoint rfind (c : ascii) (s : string) : option nat :=
  match s with
  | EmptyString => None
  | String d s' =>
      match rfind c s' with
      | Some i => Some (S i)
      | None => if Ascii.eqb c d then Some 0 else None
      end
  end.

(** Stripping the leading, or the trailing, characters that satisfy [p]. *)
Fixpoint lstrip_if (p : ascii -> bool) (s : string) : string :=
  match s with
  | EmptyString => EmptyString
  | String c s' => if p c then lstrip_if p s' else s
  end.

Definition rstrip_if (p : ascii -> bool) (s : string) : string :=
  str (rev (chars (lstrip_if p (str (rev (chars s)))))).

(** [s.lstrip(cs)], [s.rstrip(cs)], [s.strip(cs)] *)
Definition lstrip (cs s : string) : string := lstrip_if (fun c => char_in c cs) s.
Definition rstrip (cs s : string) : string := rstrip_if (fun c => char_in c cs) s.
Definition strip (cs s : string) : string := rstrip cs (lstrip cs s).

(** [s.replace(c, "")] *)
Fixpoint remove_char (c : ascii) (s : string) : string :=
  match s with
  | EmptyString => EmptyString
  | String d s' =>
      if Ascii.eqb c d then remove_char c s' else String d (remove_char c s')
  end.

(** [s.replace(c, d)] for single characters *)
Fixpoint replace_char (c d : ascii) (s : string) : string :=
  match s with
  | EmptyString => EmptyString
  | String e s' =>
      String (if Ascii.eqb c e then d else e) (replace_char c d s')
  end.

(** [s.split(c)]: always at least one piece. *)
Fixpoint split (c : ascii) (s : string) : list string :=
  match s with
  | EmptyString => [EmptyString]
  | String d s' =>
      if Ascii.eqb c d then EmptyString :: split c s'
      else match split c s' with
           | p :: ps => String d p :: ps
           | [] => [String d EmptyString]
           end
  end.

(** [s.split(c, 1)]: the text before the first [c] and, when there is a
    [c], the text after it. *)
Definition split1 (c : ascii) (s : string) : string * option string :=
  match find c s with
  | Some i => (take i s, Some (drop (S i) s))
  | None => (s, None)
  end.

(** [sep.join(l)] *)
Fixpoint join (sep : string) (l : list string) : string :=
  match l with
  | [] => EmptyString
  | [x] => x
  | x :: xs => x +:+ sep +:+ join sep xs
  end.

(** [c.lower()] on the characters of the model: A-Z, and the accented
    capitals U+00C0..U+00DE except the multiplication sign. *)
Definition lower_char (c : ascii) : ascii :=
  let n := code c in
  if between 65 90 n || (between 192 222 n && negb (Nat.eqb n 215))
  then ascii_of_nat (n + 32) else c.

Fixpoint lower (s : string) : string :=
  match s with
  | EmptyString => EmptyString
  | String c s' => String (lower_char c) (lower s')
  end.

(** [c.isspace()], which is also what [\s] matches. *)
Definition isspace (c : ascii) : bool :=
  let n := code c in
  between 9 13 n || between 28 32 n || Nat.eqb n 133 || Nat.eqb n 160.

Definition is_ascii_alpha (c : ascii) : bool :=
  between 65 90 (code c) || between 97 122 (code c).

Definition is_digit (c : ascii) : bool :=
  between 48 57 (code c).

Definition is_hex (c : ascii) : bool :=
  is_digit c || between 65 70 (code c) || between 97 102 (code c).

(** [s.strip()] *)
Definition strip_ws (s : string) : string :=
  rstrip_if isspace (lstrip_if isspace s).

(** [s.split()]: the maximal runs of characters that are not white space.
    [cur] is the run being read, reversed. *)
Fixpoint words_aux (cur : list ascii) (s : string) : list string :=
  match s with
  | EmptyString => match cur with [] => [] | _ => [str (rev cur)] end
  | String c s' =>
      if isspace c
      then match cur with
           | [] => words_aux [] s'
           | _ => str (rev cur) :: words_aux [] s'
           end
      else words_aux (c :: cur) s'
  end.

Definition words (s : string) : list string := words_aux [] s.

(** [re.sub(r"\s+", " ", s)]: every run of white space becomes one space.
    [in_ws] tells that the previous character was white space. *)
Fixpoint collapse_ws_aux (in_ws : bool) (s : string) : string :=
  match s with
  | EmptyString => EmptyString
  | String c s' =>
      if isspace c
      then if in_ws then collapse_ws_aux true s'
           else String " " (collapse_ws_aux true s')
      else String c (collapse_ws_aux false s')
  end.

Definition collapse_ws (s : string) : string := collapse_ws_aux false s.

(** Truth value of a string, and of an optional string ([None] or [""]). *)
Definition nonempty (s : string) : bool :=
  match s with EmptyString => false | _ => true end.

Definition truthy (o : option string) : bool :=
  match o with Some s => nonempty s | None => false end.

(** [s.replace(old, new)] for a non-empty [old]: the occurrences are taken
    from the left and do not overlap.  [fuel] bounds the length of [s]. *)
Fixpoint replace_aux (fuel : nat) (old new s : string) : string :=
  match fuel with
  | 0 => s
  | S fuel' =>
      match s with
      | EmptyString => EmptyString
      | String c s' =>
          if String.prefix old s
          then new +:+ replace_aux fuel' old new (drop (String.length old) s)
          else String c (replace_aux fuel' old new s')
      end
  end.

Definition replace (old new s : string) : string :=
  replace_aux (String.length s) old new s.

End PyStr.


(** ** The outside world

    Everything the crawler obtains from a library or from its environment and
    that this development does not look into: the percent decoder of
    [urllib.parse] (it can produce characters beyond U+00FF), [ipaddress],
    [hashlib], the robots parser, the HTTP session, the browser driver, the
    HTML parser, the interrupt signal and the file system.  Each is a function of its arguments: every URL is fetched
    at most once in a run, and the robots policy is read-only after it is
    loaded. *)

Inductive FsOp : Type :=
  | MakeDirs (dir : string)
  | OpenWrite (file : string).

Record PageRecord : Type := mkPageRecord {
  url : string;
  title : string;
  description : string;
  content : string;
  word_count : nat
}.

(** What the crawler does to its environment. *)
Inductive Event : Type :=
  | EvHttpGet (u : string)            (* session.get(u) *)
  | EvRenderAttempt (u : string)      (* fetch_via_selenium(u) is called *)
  | EvDriverGet (u : string)          (* driver.get(u) *)
  | EvExtract (u html : string)       (* extract_content(html, u) is called *)
  | EvSavePage (file : string) (r : PageRecord)   (* save_page(r) writes file *)
  | EvProgress                        (* pbar.update(1) *)
  | EvSleep                           (* time.sleep(SLEEP_BETWEEN_REQUESTS) *)
  | EvWarnNoRecords                   (* "No records to aggregate" *)
  | EvWriteAggregate (rs : list PageRecord)
  | EvWriteStats (total_pages total_words urls_visited : nat)
  | EvClose.                          (* scraper.close() *)

Class World : Type := {
  (* urllib.parse.unquote(s, encoding="utf-8", errors="replace") *)
  unquote : string -> string;
  (* ipaddress.ip_address(h) returns an IPv6Address (it raises otherwise,
     or returns an IPv4Address) *)
  is_ipv6_address : string -> bool;
  (* hashlib.sha256(text.encode("utf-8")).hexdigest() *)
  sha256_hexdigest : string -> string;
  (* self.rp.can_fetch(user_agent, url); None when it raises *)
  rp_can_fetch : string -> option bool;
  (* self.session.get(url, timeout=...): status code and decoded text;
     None when it raises *)
  session_get : string -> option (Z * string);
  (* driver.get(url), the scrolling, and driver.page_source; None when
     any of them raises *)
  driver_page_source : string -> option string;
  (* Chrome could be started by _init_selenium *)
  selenium_init_ok : bool;
  (* BeautifulSoup in extract_content: the title, the text of the main
     region (as get_text returns it) and the description; None when it
     raises *)
  soup_fields : string -> option (string * string * string);
  (* BeautifulSoup in extract_links: a["href"] for every anchor with an
     href, in document order; None when it raises *)
  soup_hrefs : string -> option (list string);
  (* the user interrupts the crawl (KeyboardInterrupt) at the head of the
     iteration that follows this trace *)
  sigint : list Event -> bool;
  (* the file-system operation succeeds *)
  fs_ok : FsOp -> bool;
  (* configuration *)
  USE_RENDERER : bool;
  SAVE_DIR : string;
  AGG_PATH : string;
  STATS_PATH : string
}.

(** ** [urllib.parse] (CPython 3.11), as far as the crawler calls it *)

Module Urllib.

Record ParseResult : Type := mkParseResult {
  scheme : string;
  netloc : string;
  path : string;
  params : string;
  query : string;
  fragment : string
}.

Definition uses_relative : list string :=
  [""; "ftp"; "http"; "gopher"; "nntp"; "imap"; "wais"; "file"; "https";
   "shttp"; "mms"; "prospero"; "rtsp"; "rtspu"; "sftp"; "svn"; "svn+ssh";
   "ws"; "wss"].

Definition uses_netloc : list string :=
  [""; "ftp"; "http"; "gopher"; "nntp"; "telnet"; "imap"; "wais"; "file";
   "mms"; "https"; "shttp"; "snews"; "prospero"; "rtsp"; "rtspu"; "rsync";
   "svn"; "svn+ssh"; "sftp"; "nfs"; "git"; "git+ssh"; "ws"; "wss"].

Definition uses_params : list string :=
  [""; "ftp"; "hdl"; "prospero"; "http"; "imap"; "https"; "shttp"; "rtsp";
   "rtspu"; "sip"; "sips"; "mms"; "sftp"; "tel"].

(** [s in l] for a list of strings *)
Definition mem (s : string) (l : list string) : bool := existsb (String.eqb s) l.

Definition scheme_char (c : ascii) : bool :=
  PyStr.is_ascii_alpha c || PyStr.is_digit c || PyStr.char_in c "+-.".

(** [_WHATWG_C0_CONTROL_OR_SPACE] *)
Definition c0_control_or_space (c : ascii) : bool := Nat.leb (PyStr.code c) 32.

(** The three characters of [_UNSAFE_URL_BYTES_TO_REMOVE]: tab, CR, LF. *)
Definition remove_unsafe (s : string) : string :=
  PyStr.remove_char (ascii_of_nat 10)
    (PyStr.remove_char (ascii_of_nat 13)
       (PyStr.remove_char (ascii_of_nat 9) s)).

Definition min_opt (a : nat) (b : option nat) : nat :=
  match b with Some n => Nat.min a n | None => a end.

Definition _splitnetloc (url : string) (start : nat) : string * string :=
  let delim :=
    min_opt (min_opt (min_opt (String.length url)
      (PyStr.find_from "/" start url))
      (PyStr.find_from "?" start url))
      (PyStr.find_from "#" start url) in
  (PyStr.drop start (PyStr.take delim url), PyStr.drop delim url).

(** [s.partition(c)]: before, whether [c] was found, after. *)
Definition partition (c : ascii) (s : string) : string * bool * string :=
  match PyStr.find c s with
  | Some i => (PyStr.take i s, true, PyStr.drop (S i) s)
  | None => (s, false, "")
  end.

(** [s.rpartition(c)[2]] *)
Definition after_last (c : ascii) (s : string) : string :=
  match PyStr.rfind c s with
  | Some i => PyStr.drop (S i) s
  | None => s
  end.

(** [re.match(r"\Av[a-fA-F0-9]+\..+\Z", h)] for an [h] that starts with v. *)
Definition ipvfuture_ok (h : string) : bool :=
  let rest := PyStr.drop 1 h in
  let tail := PyStr.lstrip_if PyStr.is_hex rest in
  negb (String.length tail =? String.length rest)%nat &&
  PyStr.startswith "." tail &&
  PyStr.nonempty (PyStr.drop 1 tail) &&
  negb (PyStr.char_in (ascii_of_nat 10) (PyStr.drop 1 tail)).

(** [_check_bracketed_host]: [true] when it returns, [false] when it raises. *)
Definition _check_bracketed_host `{World} (hostname : string) : bool :=
  if PyStr.startswith "v" hostname then ipvfuture_ok hostname
  else is_ipv6_address hostname.

Definition _check_bracketed_netloc `{World} (netloc : string) : bool :=
  let hostname_and_port := after_last "@" netloc in
  let '(before_bracket, have_open_br, bracketed) := partition "[" hostname_and_port in
  if have_open_br then
    if PyStr.nonempty before_bracket then false
    else
      let '(hostname, _, port) := partition "]" bracketed in
      if PyStr.nonempty port && negb (PyStr.startswith ":" port) then false
      else _check_bracketed_host hostname
  else
    let '(hostname, _, _) := partition ":" hostname_and_port in
    _check_bracketed_host hostname.

(** [urlsplit(url, scheme)]: scheme, netloc, path, query, fragment; [None]
    for the [ValueError] of a malformed bracketed host.  ([_checknetloc]
    never raises on the characters of the model.) *)
Definition urlsplit `{World} (url scheme : string)
  : option (string * string * string * string * string) :=
  let url := PyStr.lstrip_if c0_control_or_space url in
  let scheme :=
    PyStr.rstrip_if c0_control_or_space (PyStr.lstrip_if c0_control_or_space scheme) in
  let url := remove_unsafe url in
  let scheme := remove_unsafe scheme in
  let '(scheme, url) :=
    match PyStr.find ":" url, url with
    | Some (S i), String c0 _ =>
        if PyStr.is_ascii_alpha c0 && forallb scheme_char (PyStr.chars (PyStr.take (S i) url))
        then (PyStr.lower (PyStr.take (S i) url), PyStr.drop (S (S i)) url)
        else (scheme, url)
    | _, _ => (scheme, url)
    end in
  let split_rest (netloc url : string) :=
    let '(url, fragment) :=
      match PyStr.split1 "#" url with
      | (u, Some f) => (u, f)
      | (u, None) => (u, "")
      end in
    let '(url, query) :=
      match PyStr.split1 "?" url with
      | (u, Some q) => (u, q)
      | (u, None) => (u, "")
      end in
    Some (scheme, netloc, url, query, fragment) in
  if String.eqb (PyStr.take 2 url) "//" then
    let '(netloc, url) := _splitnetloc url 2 in
    let has_open := PyStr.char_in "[" netloc in
    let has_close := PyStr.char_in "]" netloc in
    if (has_open && negb has_close) || (has_close && negb has_open) then None
    else if has_open && has_close && negb (_check_bracketed_netloc netloc) then None
    else split_rest netloc url
  else split_rest "" url.

Definition _splitparams (url : string) : string * string :=
  if PyStr.char_in "/" url then
    match PyStr.rfind "/" url with
    | Some j =>
        match PyStr.find_from ";" j url with
        | Some i => (PyStr.take i url, PyStr.drop (S i) url)
        | None => (url, "")
        end
    | None => (url, "")
    end
  else
    match PyStr.find ";" url with
    | Some i => (PyStr.take i url, PyStr.drop (S i) url)
    | None => (url, "")
    end.

Definition urlparse `{World} (url scheme : string) : option ParseResult :=
  match urlsplit url scheme with
  | None => None
  | Some (scheme, netloc, url, query, fragment) =>
      let '(url, params) :=
        if mem scheme uses_params && PyStr.char_in ";" url
        then _splitparams url else (url, "") in
      Some (mkParseResult scheme netloc url params query fragment)
  end.

Definition urlunsplit (scheme netloc url query fragment : string) : string :=
  let url :=
    if PyStr.nonempty netloc ||
       (PyStr.nonempty scheme && mem scheme uses_netloc &&
        negb (String.eqb (PyStr.take 2 url) "//"))
    then
      let url :=
        if PyStr.nonempty url && negb (String.eqb (PyStr.take 1 url) "/")
        then "/" +:+ url else url in
      "//" +:+ netloc +:+ url
    else url in
  let url := if PyStr.nonempty scheme then scheme +:+ ":" +:+ url else url in
  let url := if PyStr.nonempty query then url +:+ "?" +:+ query else url in
  if PyStr.nonempty fragment then url +:+ "#" +:+ fragment else url.

Definition urlunparse (p : ParseResult) : string :=
  let url :=
    if PyStr.nonempty (params p) then path p +:+ ";" +:+ params p else path p in
  urlunsplit (scheme p) (netloc p) url (query p) (fragment p).

(** The fields of [parse_qsl(qs, keep_blank_values=True)] before they are
    decoded: the pieces between ampersands, empty pieces skipped, each cut at
    its first equals sign (the value is empty without one), plus signs turned
    into spaces. *)
Definition query_fields (qs : string) : list (string * string) :=
  let query_args := if PyStr.nonempty qs then PyStr.split "&" qs else [] in
  flat_map (fun name_value =>
    if PyStr.nonempty name_value then
      let '(n, v) :=
        match PyStr.split1 "=" name_value with
        | (n, Some v) => (n, v)
        | (n, None) => (n, "")
        end in
      [(PyStr.replace_char "+" " " n, PyStr.replace_char "+" " " v)]
    else []) query_args.

(** [parse_qsl(qs, keep_blank_values=True)] *)
Definition parse_qsl `{World} (qs : string) : list (string * string) :=
  map (fun nv => (unquote (fst nv), unquote (snd nv))) (query_fields qs).

Definition hex_digit (n : nat) : ascii :=
  if Nat.ltb n 10 then ascii_of_nat (48 + n) else ascii_of_nat (55 + n).

(** ["%XX"] for one byte *)
Definition percent_byte (n : nat) : string :=
  String "%" (String (hex_digit (n / 16)) (String (hex_digit (n mod 16)) "")).

(** [_ALWAYS_SAFE] *)
Definition always_safe (c : ascii) : bool :=
  PyStr.is_ascii_alpha c || PyStr.is_digit c || PyStr.char_in c "_.-~".

(** One character of [quote_plus(s, safe="")]: a space becomes a plus sign,
    a safe character stays, any other is escaped byte by byte from its
    UTF-8 encoding (two bytes from U+0080 on). *)
Definition quote_plus_char (c : ascii) : string :=
  let n := PyStr.code c in
  if Ascii.eqb c " " then "+"
  else if always_safe c then String c ""
  else if Nat.ltb n 128 then percent_byte n
  else percent_byte (192 + n / 64) +:+ percent_byte (128 + n mod 64).

Fixpoint quote_plus (s : string) : string :=
  match s with
  | EmptyString => EmptyString
  | String c s' => quote_plus_char c +:+ quote_plus s'
  end.

(** [urlencode(query, doseq=True)] for a list of pairs of strings *)
Definition urlencode (query : list (string * string)) : string :=
  PyStr.join "&" (map (fun kv => quote_plus (fst kv) +:+ "=" +:+ quote_plus (snd kv)) query).

(** [segments[1:-1] = filter(None, segments[1:-1])] *)
Definition drop_inner_empty (segments : list string) : list string :=
  match segments with
  | first :: (_ :: _) as rest =>
      (first :: List.filter PyStr.nonempty (removelast rest)
             ++ [List.last rest ""])%list
  | _ => segments
  end.

(** The loop of [urljoin] over the segments; [resolved] is the
    [resolved_path] built so far. *)
Fixpoint resolve_segments (resolved segments : list string) : list string :=
  match segments with
  | [] => resolved
  | seg :: rest =>
      if String.eqb seg ".." then resolve_segments (removelast resolved) rest
      else if String.eqb seg "." then resolve_segments resolved rest
      else resolve_segments (resolved ++ [seg])%list rest
  end.

(** [urljoin(base, url)]; [None] when one of its [urlparse] calls raises. *)
Definition urljoin `{World} (base url : string) : option string :=
  if negb (PyStr.nonempty base) then Some url
  else if negb (PyStr.nonempty url) then Some base
  else
    match urlparse base "" with
    | None => None
    | Some b =>
        match urlparse url (scheme b) with
        | None => None
        | Some p =>
            if negb (String.eqb (scheme p) (scheme b)) || negb (mem (scheme p) uses_relative)
            then Some url
            else if mem (scheme p) uses_netloc && PyStr.nonempty (netloc p)
            then Some (urlunparse p)
            else
              let netloc' := if mem (scheme p) uses_netloc then netloc b else netloc p in
              if negb (PyStr.nonempty (path p)) && negb (PyStr.nonempty (params p))
              then
                let query' := if PyStr.nonempty (query p) then query p else query b in
                Some (urlunparse
                  (mkParseResult (scheme p) netloc' (path b) (params b) query' (fragment p)))
              else
                let base_parts := PyStr.split "/" (path b) in
                let base_parts :=
                  if String.eqb (List.last base_parts "") "" then base_parts
                  else removelast base_parts in
                let segments :=
                  if String.eqb (PyStr.take 1 (path p)) "/"
                  then PyStr.split "/" (path p)
                  else drop_inner_empty (base_parts ++ PyStr.split "/" (path p))%list in
                let resolved_path := resolve_segments [] segments in
                let resolved_path :=
                  if mem (List.last segments "") ["."; ".."]
                  then (resolved_path ++ [""])%list else resolved_path in
                let joined := PyStr.join "/" resolved_path in
                Some (urlunparse
                  (mkParseResult (scheme p) netloc'
                     (if PyStr.nonempty joined then joined else "/")
                     (params p) (query p) (fragment p)))
        end
    end.

End Urllib.

(** ** Helpers of [giki_selenium.py] *)

Definition tracking_param (k : string) : bool :=
  PyStr.startswith "utm_" (PyStr.lower k) ||
  Urllib.mem (PyStr.lower k) ["fbclid"; "gclid"; "trk"].

(** [normalize_url] once the URL is parsed and its query decoded. *)
Definition normalize_parsed (parsed : Urllib.ParseResult) (fields : list (string * string))
  : string :=
  let scheme :=
    if PyStr.nonempty (Urllib.scheme parsed) then Urllib.scheme parsed else "https" in
  let qs := List.filter (fun kv => negb (tracking_param (fst kv))) fields in
  let new_q := Urllib.urlencode qs in
  let path :=
    let p := PyStr.rstrip "/" (Urllib.path parsed) in
    if PyStr.nonempty p then p else "/" in
  Urllib.urlunparse
    (Urllib.mkParseResult scheme (Urllib.netloc parsed) path
       (Urllib.params parsed) new_q "").

Definition normalize_url `{World} (u : string) : string :=
  match Urllib.urlparse u "" with
  | None => u
  | Some parsed => normalize_parsed parsed (Urllib.parse_qsl (Urllib.query parsed))
  end.

Definition same_domain `{World} (url base : string) : bool :=
  match Urllib.urlparse url "", Urllib.urlparse base "" with
  | Some pu, Some pb =>
      let p := PyStr.lower (Urllib.netloc pu) in
      let b := PyStr.lower (Urllib.netloc pb) in
      String.eqb p b || PyStr.endswith ("." +:+ b) p
  | _, _ => false
  end.

Definition content_hash `{World} (text : string) : string :=
  PyStr.take 16 (sha256_hexdigest text).

(** ** The scraper *)

Inductive Exn : Type :=
  | KeyboardInterrupt
  | Exception.

(** The fields of [GIKIScraper] that the crawl reads or writes, and the
    trace of what it has done so far. *)
Record GIKIScraper : Type := mkScraper {
  base_url : string;
  max_pages : Z;
  visited_urls : gset string;
  to_visit : list string;
  records : list PageRecord;
  seen_hashes : gset string;
  driver_ready : bool;
  trace : list Event
}.

Definition with_to_visit (l : list string) (s : GIKIScraper) : GIKIScraper :=
  mkScraper (base_url s) (max_pages s) (visited_urls s) l (records s)
    (seen_hashes s) (driver_ready s) (trace s).

Definition mark_visited (u : string) (s : GIKIScraper) : GIKIScraper :=
  mkScraper (base_url s) (max_pages s) ({[u]} ∪ visited_urls s) (to_visit s)
    (records s) (seen_hashes s) (driver_ready s) (trace s).

Definition emit (evs : list Event) (s : GIKIScraper) : GIKIScraper :=
  mkScraper (base_url s) (max_pages s) (visited_urls s) (to_visit s)
    (records s) (seen_hashes s) (driver_ready s) (trace s ++ evs).

(** [os.path.join(a, b)] and [os.path.dirname(p)] on POSIX *)
Definition path_join (a b : string) : string :=
  if PyStr.startswith "/" b then b
  else if negb (PyStr.nonempty a) || PyStr.endswith "/" a then a +:+ b
  else a +:+ "/" +:+ b.

Definition dirname (p : string) : string :=
  let head :=
    match PyStr.rfind "/" p with
    | Some i => PyStr.take (S i) p
    | None => ""
    end in
  if PyStr.nonempty head && PyStr.nonempty (PyStr.rstrip "/" head)
  then PyStr.rstrip "/" head else head.

(** The file that [save_page] writes for a record. *)
Definition page_file `{World} (record : PageRecord) : string :=
  let key := PyStr.replace "/" "__" (PyStr.replace "://" "_" (url record)) in
  path_join SAVE_DIR (PyStr.take 200 key +:+ ".json").

(** [save_page]: the record is written to its file; whatever the write
    raises is caught. *)
Definition save_page `{World} (record : PageRecord) (s : GIKIScraper) : GIKIScraper :=
  emit [EvSavePage (page_file record) record] s.

(** [self.seen_hashes.add(h); self.records.append(r); self.save_page(r)] *)
Definition accept `{World} (h : string) (r : PageRecord) (s : GIKIScraper) : GIKIScraper :=
  save_page r
    (mkScraper (base_url s) (max_pages s) (visited_urls s) (to_visit s)
       (records s ++ [r]) ({[h]} ∪ seen_hashes s) (driver_ready s) (trace s)).

(** [GIKIScraper.__init__]; [None] when [os.makedirs(SAVE_DIR)] raises. *)
Definition init `{World} (base_url : string) (max_pages : Z) : option GIKIScraper :=
  let base := PyStr.rstrip "/" base_url in
  if fs_ok (MakeDirs SAVE_DIR) then
    Some (mkScraper base max_pages ∅ [normalize_url (base +:+ "/events/")] [] ∅
            (USE_RENDERER && selenium_init_ok) [])
  else None.

Definition can_fetch `{World} (url : string) : bool :=
  match rp_can_fetch url with
  | Some b => b
  | None => true
  end.

(** The result of a fetch and the events of the call. *)
Definition fetch_via_requests `{World} (url : string) : option string * list Event :=
  if negb (can_fetch url) then (None, [])
  else
    match session_get url with
    | None => (None, [EvHttpGet url])
    | Some (status_code, text) =>
        if (status_code >=? 400)%Z then (None, [EvHttpGet url])
        else (Some text, [EvHttpGet url])
    end.

Definition fetch_via_selenium `{World} (s : GIKIScraper) (url : string)
  : option string * list Event :=
  if negb (driver_ready s) then (None, [])
  else if negb (can_fetch url) then (None, [])
  else (driver_page_source url, [EvDriverGet url]).

Definition extract_content `{World} (html url : string) : option PageRecord :=
  match soup_fields html with
  | None => None
  | Some (title, text, description) =>
      let content_text := PyStr.strip_ws (PyStr.collapse_ws text) in
      if PyStr.nonempty content_text
      then Some (mkPageRecord url title description content_text
                   (List.length (PyStr.words content_text)))
      else None
  end.

Definition skipped_scheme (href : string) : bool :=
  PyStr.startswith "mailto:" href || PyStr.startswith "tel:" href ||
  PyStr.startswith "javascript:" href.

(** The first loop of [extract_links]; [None] when [urljoin] raises. *)
Fixpoint collect_links `{World} (page_url : string) (hrefs : list string)
  : option (list string) :=
  match hrefs with
  | [] => Some []
  | a :: rest =>
      let href := PyStr.strip_ws a in
      if skipped_scheme href then collect_links page_url rest
      else
        match Urllib.urljoin page_url (fst (PyStr.split1 "#" href)) with
        | None => None
        | Some full =>
            match collect_links page_url rest with
            | None => None
            | Some links => Some (normalize_url full :: links)
            end
        end
  end.

(** The second loop of [extract_links]; [uniq] is the list built so far. *)
Fixpoint uniq_links `{World} (base : string) (uniq links : list string) : list string :=
  match links with
  | [] => uniq
  | l :: rest =>
      if bool_decide (l ∉ uniq) && same_domain l base
      then uniq_links base (uniq ++ [l]) rest
      else uniq_links base uniq rest
  end.

(** [self.extract_links(html, base_url)]; [None] when it raises. *)
Definition extract_links `{World} (s : GIKIScraper) (html page_url : string)
  : option (list string) :=
  match soup_hrefs html with
  | None => None
  | Some hrefs =>
      match collect_links page_url hrefs with
      | None => None
      | Some links => Some (uniq_links (base_url s) [] links)
      end
  end.

Definition dynamic_markers : list string :=
  ["load more"; "admin-ajax"; "wp-json"; "infinite"].

Definition non_content_patterns : list string :=
  ["/wp-admin"; "/wp-content/"; "/feed"; "/?s="].

Definition has_marker (html : string) : bool :=
  existsb (fun tok => PyStr.contains tok (PyStr.lower html)) dynamic_markers.

Definition non_content (l : string) : bool :=
  existsb (fun x => PyStr.contains x (PyStr.lower l)) non_content_patterns.

(** The condition of the fallback to Selenium in [crawl]. *)
Definition wants_renderer `{World} (html : option string) : bool :=
  match html with
  | None => true
  | Some h => negb (PyStr.nonempty h) || Nat.ltb (String.length h) 800 || has_marker h
  end && USE_RENDERER.

(** The fetch of one page in [crawl]: plain first, then the browser. *)
Definition fetch_page `{World} (s : GIKIScraper) (url : string) : option string * list Event :=
  let '(html, ev) := fetch_via_requests url in
  if wants_renderer html then
    let '(shtml, ev') := fetch_via_selenium s url in
    (if PyStr.truthy shtml then shtml else html, ev ++ EvRenderAttempt url :: ev')
  else (html, ev).

(** The loop over [new_links] in [crawl]. *)
Fixpoint enqueue (visited : gset string) (frontier new_links : list string) : list string :=
  match new_links with
  | [] => frontier
  | l :: rest =>
      if bool_decide (l ∉ visited) && bool_decide (l ∉ frontier) then
        if non_content l then enqueue visited frontier rest
        else enqueue visited (frontier ++ [l]) rest
      else enqueue visited frontier rest
  end.

(** [page_record.word_count >= 30] *)
Definition long_enough (r : PageRecord) : bool := Nat.leb 30 (word_count r).
Arguments long_enough : simpl never.

(** What follows [extract_content] in one iteration of [crawl]. *)
Definition process_page `{World} (s : GIKIScraper) (html url : string) : GIKIScraper * option Exn :=
  let s := emit [EvExtract url html] s in
  let finish (s : GIKIScraper) := (emit [EvProgress; EvSleep] s, None) in
  match extract_content html url with
  | Some page_record =>
      if long_enough page_record then
        let h := content_hash (content page_record) in
        if bool_decide (h ∉ seen_hashes s) then
          let s := accept h page_record s in
          match extract_links s html url with
          | None => (s, Some Exception)
          | Some new_links =>
              finish (with_to_visit (enqueue (visited_urls s) (to_visit s) new_links) s)
          end
        else finish s
      else finish s
  | None => finish s
  end.

(** One iteration of the [while] loop of [crawl], for a non-empty frontier. *)
Definition crawl_body `{World} (s : GIKIScraper) : GIKIScraper * option Exn :=
  match to_visit s with
  | [] => (s, None)
  | popped :: rest =>
      let s := with_to_visit rest s in
      let url := normalize_url popped in
      if bool_decide (url ∈ visited_urls s) then (s, None)
      else if negb (same_domain url (base_url s)) then (s, None)
      else if negb (can_fetch url) then (emit [EvProgress] (mark_visited url s), None)
      else
        let s := mark_visited url s in
        let '(html, ev) := fetch_page s url in
        let s := emit ev s in
        match html with
        | Some (String _ _ as h) => process_page s h url
        | _ => (emit [EvProgress; EvSleep] s, None)
        end
  end.

(** The condition of the [while] loop. *)
Definition loop_cond (s : GIKIScraper) : bool :=
  match to_visit s with [] => false | _ => true end &&
  (Z.of_nat (size (visited_urls s)) <? max_pages s)%Z.

(** How a run of the loop stands: still running, left by the loop
    condition, or left by an exception. *)
Inductive Status : Type :=
  | Running
  | Returned
  | Raised (e : Exn).

(** One turn of the [while] loop: the test of the condition, then the body.
    A [KeyboardInterrupt] is taken at the head of an iteration. *)
Definition crawl_turn `{World} (s : GIKIScraper) : GIKIScraper * Status :=
  if loop_cond s then
    if sigint (trace s) then (s, Raised KeyboardInterrupt)
    else
      match crawl_body s with
      | (s', None) => (s', Running)
      | (s', Some e) => (s', Raised e)
      end
  else (s, Returned).

(** At most [n] turns of the loop. *)
Fixpoint crawl_run `{World} (n : nat) (s : GIKIScraper) : GIKIScraper * Status :=
  match n with
  | 0 => (s, Running)
  | S n' =>
      match crawl_turn s with
      | (s', Running) => crawl_run n' s'
      | stopped => stopped
      end
  end.

(** [crawl]: the scraper when the loop is left, and the exception that left
    it, if any; [None] when [fuel] turns were not enough.  (The list of
    dictionaries that [crawl] returns is [records].) *)
Definition crawl `{World} (fuel : nat) (s : GIKIScraper) : option (GIKIScraper * option Exn) :=
  match crawl_run fuel s with
  | (_, Running) => None
  | (s', Returned) => Some (s', None)
  | (s', Raised e) => Some (s', Some e)
  end.

Definition total_words (rs : list PageRecord) : nat :=
  foldr (fun r n => word_count r + n) 0 rs.

(** [save_aggregate]; the exception is the one of the failing file-system
    call.  (The average of the statistics is a float and is left out.) *)
Definition save_aggregate `{World} (s : GIKIScraper) : GIKIScraper * option Exn :=
  match records s with
  | [] => (emit [EvWarnNoRecords] s, None)
  | _ =>
      if negb (fs_ok (MakeDirs (dirname AGG_PATH))) then (s, Some Exception)
      else if negb (fs_ok (OpenWrite AGG_PATH)) then (s, Some Exception)
      else
        let s := emit [EvWriteAggregate (records s)] s in
        if negb (fs_ok (OpenWrite STATS_PATH)) then (s, Some Exception)
        else
          (emit [EvWriteStats (List.length (records s)) (total_words (records s))
                   (size (visited_urls s))] s, None)
  end.

Definition close (s : GIKIScraper) : GIKIScraper := emit [EvClose] s.

(** [main]: the final scraper and the exception that leaves [main], if any.
    The outer [None] is for a crawl that needs more than [fuel] iterations;
    a failure of [__init__] leaves before the [try] with no scraper. *)
Definition main `{World} (fuel : nat) (base : string) (budget : Z)
  : option (option GIKIScraper * option Exn) :=
  match init base budget with
  | None => Some (None, Some Exception)
  | Some scraper =>
      match crawl fuel scraper with
      | None => None
      | Some (s, raised) =>
          (* the rest of the try block *)
          let '(s, raised) :=
            match raised with
            | None => save_aggregate s
            | Some e => (s, Some e)
            end in
          (* the except clauses; "raise" re-raises what was caught *)
          let '(s, raised) :=
            match raised with
            | None => (s, None)
            | Some KeyboardInterrupt => save_aggregate s
            | Some Exception =>
                match save_aggregate s with
                | (s, Some e) => (s, Some e)
                | (s, None) => (s, Some Exception)
                end
            end in
          (* finally *)
          Some (Some (close s), raised)
      end
  end.

(** ** Notions used in the statements *)

(** The states of a run that starts at the construction of the scraper. *)
Definition reachable `{World} (base : string) (budget : Z) (s : GIKIScraper) : Prop :=
  exists s0 n, init base budget = Some s0 /\ fst (crawl_run n s0) = s.

(** The records whose per-page file was written, in order. *)
Fixpoint saved_pages (tr : list Event) : list PageRecord :=
  match tr with
  | [] => []
  | EvSavePage _ r :: tr' => r :: saved_pages tr'
  | _ :: tr' => saved_pages tr'
  end.

(** The aggregates that were written, in order. *)
Fixpoint aggregates_written (tr : list Event) : list (list PageRecord) :=
  match tr with
  | [] => []
  | EvWriteAggregate rs :: tr' => rs :: aggregates_written tr'
  | _ :: tr' => aggregates_written tr'
  end.

(** The pages that reached the deduplication index, in the order in which
    they were processed: the records extracted with at least 30 words. *)
Fixpoint candidates `{World} (tr : list Event) : list PageRecord :=
  match tr with
  | [] => []
  | EvExtract u html :: tr' =>
      match extract_content html u with
      | Some r => if long_enough r then r :: candidates tr' else candidates tr'
      | None => candidates tr'
      end
  | _ :: tr' => candidates tr'
  end.

Definition digest `{World} (r : PageRecord) : string := content_hash (content r).

(** No two pages that reached the index have different contents with the
    same 16-character digest. *)
Definition collision_free `{World} (l : list PageRecord) : Prop :=
  forall a b, a ∈ l -> b ∈ l -> digest a = digest b -> content a = content b.

(** The deduplication index replayed on a list of pages: a page is kept
    when no page kept before it has its digest.  [kept] is the list so far. *)
Fixpoint dedup_into `{World} (kept l : list PageRecord) : list PageRecord :=
  match l with
  | [] => kept
  | r :: l' =>
      if bool_decide (digest r ∈ map digest kept) then dedup_into kept l'
      else dedup_into (kept ++ [r]) l'
  end.

Definition first_seen `{World} (l : list PageRecord) : list PageRecord := dedup_into [] l.

Definition fetch_event (e : Event) : bool :=
  match e with
  | EvHttpGet _ | EvRenderAttempt _ | EvDriverGet _ => true
  | _ => false
  end.

Definition has_content (c : string) (r : PageRecord) : bool := String.eqb (content r) c.

(** The result of the plain fetch of a URL. *)
Definition plain_html `{World} (u : string) : option string := fst (fetch_via_requests u).

(** ** More notions used in the statements *)

(** The scraper after the pop, the gates and the fetch of [u]. *)
Definition fetched `{World} (s : GIKIScraper) (rest : list string) (u : string) : GIKIScraper :=
  let s1 := mark_visited u (with_to_visit rest s) in
  emit (snd (fetch_page s1 u)) s1.

(** The HTML that the iteration works on. *)
Definition page_html `{World} (s : GIKIScraper) (u : string) : option string :=
  fst (fetch_page s u).

Inductive body_outcome `{World} (s : GIKIScraper) : GIKIScraper * option Exn -> Prop :=
  | out_skip popped rest :
      to_visit s = popped :: rest ->
      normalize_url popped ∈ visited_urls s \/
        same_domain (normalize_url popped) (base_url s) = false ->
      body_outcome s (with_to_visit rest s, None)
  | out_denied popped rest u :
      to_visit s = popped :: rest -> u = normalize_url popped ->
      u ∉ visited_urls s -> same_domain u (base_url s) = true ->
      can_fetch u = false ->
      body_outcome s (emit [EvProgress] (mark_visited u (with_to_visit rest s)), None)
  | out_no_html popped rest u :
      to_visit s = popped :: rest -> u = normalize_url popped ->
      u ∉ visited_urls s -> same_domain u (base_url s) = true ->
      can_fetch u = true ->
      PyStr.truthy (page_html s u) = false ->
      body_outcome s (emit [EvProgress; EvSleep] (fetched s rest u), None)
  | out_discard popped rest u h :
      to_visit s = popped :: rest -> u = normalize_url popped ->
      u ∉ visited_urls s -> same_domain u (base_url s) = true ->
      can_fetch u = true ->
      page_html s u = Some h -> PyStr.nonempty h = true ->
      (forall r, extract_content h u = Some r ->
         word_count r < 30 \/ (30 <= word_count r /\ digest r ∈ seen_hashes s)) ->
      body_outcome s
        (emit [EvProgress; EvSleep] (emit [EvExtract u h] (fetched s rest u)), None)
  | out_accept_raise popped rest u h r :
      to_visit s = popped :: rest -> u = normalize_url popped ->
      u ∉ visited_urls s -> same_domain u (base_url s) = true ->
      can_fetch u = true ->
      page_html s u = Some h -> PyStr.nonempty h = true ->
      extract_content h u = Some r -> 30 <= word_count r ->
      digest r ∉ seen_hashes s ->
      extract_links s h u = None ->
      body_outcome s
        (accept (digest r) r (emit [EvExtract u h] (fetched s rest u)), Some Exception)
  | out_accept popped rest u h r links :
      to_visit s = popped :: rest -> u = normalize_url popped ->
      u ∉ visited_urls s -> same_domain u (base_url s) = true ->
      can_fetch u = true ->
      page_html s u = Some h -> PyStr.nonempty h = true ->
      extract_content h u = Some r -> 30 <= word_count r ->
      digest r ∉ seen_hashes s ->
      extract_links s h u = Some links ->
      body_outcome s
        (emit [EvProgress; EvSleep]
           (with_to_visit (enqueue ({[u]} ∪ visited_urls s) rest links)
              (accept (digest r) r (emit [EvExtract u h] (fetched s rest u)))),
         None).

(** The record sequence is what was saved page by page; it is the replay of
    the index on the pages that reached it; the digests seen are those of
    the records; and the crawl writes no aggregate. *)
Definition index_inv `{World} (s : GIKIScraper) : Prop :=
  saved_pages (trace s) = records s /\
  records s = first_seen (candidates (trace s)) /\
  (forall h, h ∈ seen_hashes s <-> h ∈ map digest (records s)) /\
  aggregates_written (trace s) = [].

(** The configuration does not change during a run. *)
Definition config_inv `{World} (base : string) (budget : Z) (s : GIKIScraper) : Prop :=
  base_url s = PyStr.rstrip "/" base /\ max_pages s = budget /\
  driver_ready s = (USE_RENDERER && selenium_init_ok).

(** The fetch events of the trace are those of [fetch_page] for the visited
    URLs that the gate allows; an extraction was made on the HTML fetched
    for a visited, allowed URL; and a record comes from an extraction. *)
Definition gate_inv `{World} (s : GIKIScraper) : Prop :=
  (forall e, fetch_event e = true ->
     (e ∈ trace s <->
      exists u, u ∈ visited_urls s /\ can_fetch u = true /\ e ∈ snd (fetch_page s u))) /\
  (forall u h, EvExtract u h ∈ trace s ->
     u ∈ visited_urls s /\ can_fetch u = true /\ page_html s u = Some h) /\
  (forall r, r ∈ records s ->
     exists h, EvExtract (url r) h ∈ trace s /\ extract_content h (url r) = Some r).

(** The seed of the crawl. *)
Definition seed_url `{World} (s : GIKIScraper) : string :=
  normalize_url (base_url s +:+ "/events/").

(** The frontier holds no URL twice, and apart from the seed no URL that
    matches a non-content pattern. *)
Definition frontier_inv `{World} (s : GIKIScraper) : Prop :=
  NoDup (to_visit s) /\
  (forall l, l ∈ to_visit s -> l = seed_url s \/ non_content l = false).

Definition budget_inv (s : GIKIScraper) : Prop :=
  (Z.of_nat (size (visited_urls s)) <= Z.max 0 (max_pages s))%Z.

(** The number of visits still allowed. *)
Definition budget_left (s : GIKIScraper) : nat :=
  Z.to_nat (max_pages s - Z.of_nat (size (visited_urls s))).

(** ** Example worlds

    A decoder for ASCII text: [%XX] with [XX] below 80 (hexadecimal) becomes
    that character; any other escape is kept as it is written.  It agrees
    with [urllib.parse.unquote] on strings without escapes of non-ASCII
    bytes. *)

Definition hex_value (c : ascii) : option nat :=
  let n := PyStr.code c in
  if PyStr.is_digit c then Some (n - 48)
  else if PyStr.between 65 70 n then Some (n - 55)
  else if PyStr.between 97 102 n then Some (n - 87)
  else None.

Fixpoint ascii_unquote (s : string) : string :=
  match s with
  | String "%" (String a (String b rest) as tl') =>
      match hex_value a, hex_value b with
      | Some x, Some y =>
          if Nat.ltb (16 * x + y) 128
          then String (ascii_of_nat (16 * x + y)) (ascii_unquote rest)
          else String "%" (ascii_unquote tl')
      | _, _ => String "%" (ascii_unquote tl')
      end
  | String c s' => String c (ascii_unquote s')
  | EmptyString => EmptyString
  end.

(** [n] words [w], each followed by a space. *)
Fixpoint filler (w : string) (n : nat) : string :=
  match n with
  | 0 => ""
  | S n' => w +:+ " " +:+ filler w n'
  end.

(** A table keyed by strings. *)
Definition lookup_page {A : Type} (table : list (string * A)) (k : string) : option A :=
  match List.find (fun kv => String.eqb (fst kv) k) table with
  | Some kv => Some (snd kv)
  | None => None
  end.

(** A small campus site.  The seed page is short, so the browser is tried;
    its rendering shows the links.  Page /c has the text of page /a, page /b
    has ten words, /private is disallowed by robots.txt. *)
Definition campus_site : list (string * string) :=
  [("https://x.edu/events", "SEED"); ("https://x.edu/a", "A");
   ("https://x.edu/b", "B"); ("https://x.edu/c", "C");
   ("https://x.edu/private", "PRIVATE"); ("https://x.edu/late", "LATE")].

Definition campus_rendered : list (string * string) :=
  [("https://x.edu/events", "SEED-RENDERED")].

Definition campus_texts : list (string * (string * string * string)) :=
  [("SEED", ("Events", filler "s" 40, ""));
   ("SEED-RENDERED", ("Events", filler "s" 40, "All events"));
   ("A", ("A", filler "a" 200, ""));
   ("B", ("B", filler "b" 10, ""));
   ("C", ("C", "  " +:+ filler "a  " 200, ""));
   ("PRIVATE", ("Private", filler "x" 50, ""));
   ("LATE", ("Late", filler "l" 30, ""))].

Definition campus_anchors : list (string * list string) :=
  [("SEED", []);
   ("SEED-RENDERED",
    ["/a"; "/b"; " /c#top"; "mailto:x@y"; "/wp-admin/z"; "https://other.org/";
     "/private"; "/a"; "/late?utm_source=feed"]);
   ("A", ["/events/"; "/c"]); ("B", []); ("C", []); ("LATE", [])].

(** In the example worlds the digest of a text is the text itself. *)
Definition campus : World := {|
  unquote := ascii_unquote;
  is_ipv6_address := fun _ => false;
  sha256_hexdigest := fun text => text;
  rp_can_fetch := fun u => Some (negb (String.eqb u "https://x.edu/private"));
  session_get := fun u => option_map (fun h => (200%Z, h)) (lookup_page campus_site u);
  driver_page_source := lookup_page campus_rendered;
  selenium_init_ok := true;
  soup_fields := lookup_page campus_texts;
  soup_hrefs := lookup_page campus_anchors;
  sigint := fun _ => false;
  fs_ok := fun _ => true;
  USE_RENDERER := true;
  SAVE_DIR := "data/raw/pages";
  AGG_PATH := "data/raw/giki_scraped.json";
  STATS_PATH := "data/raw/scraping_stats.json"
|}.

(** The scraper that [__init__] builds for the campus, and the one that
    [crawl] leaves. *)
Definition campus_start : GIKIScraper :=
  mkScraper "https://x.edu" 10 ∅ ["https://x.edu/events"] [] ∅ true [].

Definition campus_end : GIKIScraper :=
  match @crawl campus 20 campus_start with
  | Some (s, _) => s
  | None => campus_start
  end.

(** The text of pages /a and /c after cleaning, and the record of /a. *)
Definition campus_text_a : string := PyStr.strip_ws (filler "a" 200).

Definition campus_record_a : PageRecord :=
  mkPageRecord "https://x.edu/a" "A" "" campus_text_a 200.

(** The campus with a budget of three pages. *)
Definition campus_start3 : GIKIScraper :=
  mkScraper "https://x.edu" 3 ∅ ["https://x.edu/events"] [] ∅ true [].

(** A site whose seed page cannot be fetched. *)
Definition offline : World := {|
  unquote := ascii_unquote;
  is_ipv6_address := fun _ => false;
  sha256_hexdigest := fun text => text;
  rp_can_fetch := fun _ => Some true;
  session_get := fun _ => None;
  driver_page_source := fun _ => None;
  selenium_init_ok := false;
  soup_fields := fun _ => None;
  soup_hrefs := fun _ => None;
  sigint := fun _ => false;
  fs_ok := fun _ => true;
  USE_RENDERER := false;
  SAVE_DIR := "data/raw/pages";
  AGG_PATH := "data/raw/giki_scraped.json";
  STATS_PATH := "data/raw/scraping_stats.json"
|}.

(** The scraper of the default configuration, offline. *)
Definition giki_start : GIKIScraper :=
  mkScraper "https://giki.edu.pk" 500 ∅ ["https://giki.edu.pk/events"] [] ∅ false [].

(** A site with a link whose path has a parameter after a trailing slash:
    the seed links to /a/;b/ and to /z, and /z links to /a/;b/ again. *)
Definition params_site : list (string * string) :=
  [("https://x.edu/events", "SEED"); ("https://x.edu/a;b", "P");
   ("https://x.edu/z", "Z")].

Definition params_texts : list (string * (string * string * string)) :=
  [("SEED", ("Events", filler "s" 40, ""));
   ("P", ("P", filler "p" 31, ""));
   ("Z", ("Z", filler "z" 32, ""))].

Definition params_anchors : list (string * list string) :=
  [("SEED", ["/a/;b/"; "/z"]); ("P", []); ("Z", ["/a/;b/"])].

Definition params_world : World := {|
  unquote := ascii_unquote;
  is_ipv6_address := fun _ => false;
  sha256_hexdigest := fun text => text;
  rp_can_fetch := fun _ => Some true;
  session_get := fun u => option_map (fun h => (200%Z, h)) (lookup_page params_site u);
  driver_page_source := fun _ => None;
  selenium_init_ok := false;
  soup_fields := lookup_page params_texts;
  soup_hrefs := lookup_page params_anchors;
  sigint := fun _ => false;
  fs_ok := fun _ => true;
  USE_RENDERER := false;
  SAVE_DIR := "data/raw/pages";
  AGG_PATH := "data/raw/giki_scraped.json";
  STATS_PATH := "data/raw/scraping_stats.json"
|}.

Definition params_start : GIKIScraper :=
  mkScraper "https://x.edu" 10 ∅ ["https://x.edu/events"] [] ∅ false [].

(** The campus when the user interrupts once ten events have happened. *)
Definition campus_interrupted : World := {|
  unquote := ascii_unquote;
  is_ipv6_address := fun _ => false;
  sha256_hexdigest := fun text => text;
  rp_can_fetch := fun u => Some (negb (String.eqb u "https://x.edu/private"));
  session_get := fun u => option_map (fun h => (200%Z, h)) (lookup_page campus_site u);
  driver_page_source := lookup_page campus_rendered;
  selenium_init_ok := true;
  soup_fields := lookup_page campus_texts;
  soup_hrefs := lookup_page campus_anchors;
  sigint := fun tr => Nat.leb 10 (List.length tr);
  fs_ok := fun _ => true;
  USE_RENDERER := true;
  SAVE_DIR := "data/raw/pages";
  AGG_PATH := "data/raw/giki_scraped.json";
  STATS_PATH := "data/raw/scraping_stats.json"
|}.

(** A site whose seed page carries a link with a malformed bracketed host,
    on which [urljoin] raises. *)
Definition broken_anchors : list (string * list string) :=
  [("SEED", ["/z"; "//[bad"]); ("Z", [])].

Definition broken_world : World := {|
  unquote := ascii_unquote;
  is_ipv6_address := fun _ => false;
  sha256_hexdigest := fun text => text;
  rp_can_fetch := fun _ => Some true;
  session_get := fun u => option_map (fun h => (200%Z, h)) (lookup_page params_site u);
  driver_page_source := fun _ => None;
  selenium_init_ok := false;
  soup_fields := lookup_page params_texts;
  soup_hrefs := lookup_page broken_anchors;
  sigint := fun _ => false;
  fs_ok := fun _ => true;
  USE_RENDERER := false;
  SAVE_DIR := "data/raw/pages";
  AGG_PATH := "data/raw/giki_scraped.json";
  STATS_PATH := "data/raw/scraping_stats.json"
|}.

(** The scenario of the specification: the seed links to A (200 words), to
    B (10 words) and to C, whose text is that of A. *)
Definition scenario_site : list (string * string) :=
  [("https://x.edu/events", "SEED"); ("https://x.edu/A", "PAGE-A");
   ("https://x.edu/B", "PAGE-B"); ("https://x.edu/C", "PAGE-C")].

Definition scenario_texts : list (string * (string * string * string)) :=
  [("SEED", ("Events", filler "seed" 40, ""));
   ("PAGE-A", ("A", filler "alpha" 200, ""));
   ("PAGE-B", ("B", filler "beta" 10, ""));
   ("PAGE-C", ("C", filler "alpha" 200, ""))].

Definition scenario_anchors : list (string * list string) :=
  [("SEED", ["/A"; "/B"; "/C"]); ("PAGE-A", []); ("PAGE-B", []); ("PAGE-C", [])].

Definition scenario : World := {|
  unquote := ascii_unquote;
  is_ipv6_address := fun _ => false;
  sha256_hexdigest := fun text => text;
  rp_can_fetch := fun _ => Some true;
  session_get := fun u => option_map (fun h => (200%Z, h)) (lookup_page scenario_site u);
  driver_page_source := fun _ => None;
  selenium_init_ok := false;
  soup_fields := lookup_page scenario_texts;
  soup_hrefs := lookup_page scenario_anchors;
  sigint := fun _ => false;
  fs_ok := fun _ => true;
  USE_RENDERER := false;
  SAVE_DIR := "data/raw/pages";
  AGG_PATH := "data/raw/giki_scraped.json";
  STATS_PATH := "data/raw/scraping_stats.json"
|}.

(** A boolean check of [collision_free]. *)
Definition collision_freeb `{World} (l : list PageRecord) : bool :=
  forallb (fun a =>
    forallb (fun b =>
      negb (String.eqb (digest a) (digest b)) || String.eqb (content a) (content b)) l) l.

(** ** What a trace tells about a run *)

(** The URLs requested over HTTP, loaded in the browser, and handed to the
    extractor, each list in the order of the trace. *)
Fixpoint http_gets (tr : list Event) : list string :=
  match tr with
  | [] => []
  | EvHttpGet u :: tr' => u :: http_gets tr'
  | _ :: tr' => http_gets tr'
  end.

Fixpoint driver_gets (tr : list Event) : list string :=
  match tr with
  | [] => []
  | EvDriverGet u :: tr' => u :: driver_gets tr'
  | _ :: tr' => driver_gets tr'
  end.

Fixpoint extracted_urls (tr : list Event) : list string :=
  match tr with
  | [] => []
  | EvExtract u _ :: tr' => u :: extracted_urls tr'
  | _ :: tr' => extracted_urls tr'
  end.


Fixpoint close_count (tr : list Event) : nat :=
  match tr with
  | [] => 0
  | EvClose :: tr' => S (close_count tr')
  | _ :: tr' => close_count tr'
  end.

(** The statistics that were written, in order. *)
Fixpoint stats_written (tr : list Event) : list (nat * nat * nat) :=
  match tr with
  | [] => []
  | EvWriteStats n w v :: tr' => (n, w, v) :: stats_written tr'
  | _ :: tr' => stats_written tr'
  end.

(** The events of the crawl loop, as opposed to those of the final flush. *)
Definition crawl_event (e : Event) : bool :=
  match e with
  | EvWarnNoRecords | EvWriteAggregate _ | EvWriteStats _ _ _ | EvClose => false
  | _ => true
  end.

(** The URL that a network event is about. *)
Definition fetched_url (e : Event) : option string :=
  match e with
  | EvHttpGet u | EvDriverGet u => Some u
  | _ => None
  end.

(** The rate limit read along a trace: since the last sleep the network was
    used for at most one URL.  [cur] is that URL, if any. *)
Fixpoint rate_ok (cur : option string) (tr : list Event) : bool :=
  match tr with
  | [] => true
  | EvSleep :: tr' => rate_ok None tr'
  | e :: tr' =>
      match fetched_url e, cur with
      | Some u, Some v => String.eqb u v && rate_ok cur tr'
      | Some u, None => rate_ok (Some u) tr'
      | None, _ => rate_ok cur tr'
      end
  end.

(** The URL for which the network was used since the last sleep, at the end
    of a trace. *)
Fixpoint rate_after (cur : option string) (tr : list Event) : option string :=
  match tr with
  | [] => cur
  | EvSleep :: tr' => rate_after None tr'
  | e :: tr' =>
      match fetched_url e, cur with
      | Some u, None => rate_after (Some u) tr'
      | _, _ => rate_after cur tr'
      end
  end.

(** A world in which the statistics file cannot be written. *)
Definition campus_no_stats : World := {|
  unquote := ascii_unquote;
  is_ipv6_address := fun _ => false;
  sha256_hexdigest := fun text => text;
  rp_can_fetch := fun u => Some (negb (String.eqb u "https://x.edu/private"));
  session_get := fun u => option_map (fun h => (200%Z, h)) (lookup_page campus_site u);
  driver_page_source := lookup_page campus_rendered;
  selenium_init_ok := true;
  soup_fields := lookup_page campus_texts;
  soup_hrefs := lookup_page campus_anchors;
  sigint := fun _ => false;
  fs_ok := fun op =>
    match op with
    | OpenWrite f => negb (String.eqb f "data/raw/scraping_stats.json")
    | MakeDirs _ => true
    end;
  USE_RENDERER := true;
  SAVE_DIR := "data/raw/pages";
  AGG_PATH := "data/raw/giki_scraped.json";
  STATS_PATH := "data/raw/scraping_stats.json"
|}.

(** What the fallback adds to the trace after the request for [u]. *)
Definition render_shape (u : string) (l : list Event) : Prop :=
  l = [] \/ l = [EvRenderAttempt u] \/ l = [EvRenderAttempt u; EvDriverGet u].

(** ** preprocess.py and upsert_delay.py: chunks and batches

    [range(0, stop, step)] for a length [stop]: [None] when it raises (a
    step of zero), no index at all for a negative step. *)
Fixpoint range_up (fuel i stop step : nat) : list nat :=
  match fuel with
  | 0 => []
  | S fuel' => if Nat.ltb i stop then i :: range_up fuel' (i + step) stop step else []
  end.

Definition py_range0 (stop : nat) (step : Z) : option (list nat) :=
  if (step =? 0)%Z then None
  else if (step <? 0)%Z then Some []
  else Some (range_up stop 0 stop (Z.to_nat step)).

(** [l[i:j]] for an index [i] that is not negative: a negative [j] counts
    from the end, and both ends are clipped to the list. *)
Definition py_slice {A : Type} (l : list A) (i : nat) (j : Z) : list A :=
  let n := List.length l in
  let stop :=
    if (j <? 0)%Z then Z.to_nat (Z.max 0 (j + Z.of_nat n))
    else Nat.min (Z.to_nat j) n in
  firstn (stop - i) (skipn i l).

(** [chunk_text(text, max_words, overlap)]; the defaults are 200 and 50. *)
Definition chunk_text (text : string) (max_words overlap : Z) : option (list string) :=
  let words := PyStr.words text in
  match py_range0 (List.length words) (max_words - overlap) with
  | None => None
  | Some starts =>
      Some (map (fun i => PyStr.join " " (py_slice words i (Z.of_nat i + max_words))) starts)
  end.

(** The batches of the upsert loop:
    [for i in range(0, len(upsert_data), batch_size): upsert_data[i:i + batch_size]]
    with [batch_size = 50]. *)
Definition upsert_batches {A : Type} (upsert_data : list A) : list (list A) :=
  let batch_size := 50%Z in
  match py_range0 (List.length upsert_data) batch_size with
  | None => []
  | Some starts => map (fun i => py_slice upsert_data i (Z.of_nat i + batch_size)) starts
  end.

(** ** Where the URLs of a crawl come from

    A URL is linked from an accepted page when [extract_links] returned it
    for the HTML of a page that has a record. *)
Definition linked_from `{World} (s : GIKIScraper) (l : string) : Prop :=
  exists r h links,
    r ∈ records s /\ EvExtract (url r) h ∈ trace s /\
    extract_links s h (url r) = Some links /\ l ∈ links.

(** The URLs that the crawl knows of: the seed and the links of the
    accepted pages. *)
Definition known `{World} (s : GIKIScraper) (l : string) : Prop :=
  l = seed_url s \/ linked_from s l.

(** The scraper that [main] leaves on the campus. *)
Definition campus_closed : GIKIScraper :=
  match @main campus 20 "https://x.edu/" 10 with
  | Some (Some s, _) => s
  | _ => campus_start
  end.

(** The scraper that [crawl] leaves when the seed cannot be fetched. *)
Definition offline_end : GIKIScraper := fst (@crawl_run offline 5 giki_start).

(** ** preprocess.py: cleaning

    A match of [http\S+] starts here: the text goes on with [http] and at
    least one character that is not white space. *)
Definition starts_url (s : string) : bool :=
  match s with
  | String a (String b (String c (String d (String e _)))) =>
      Ascii.eqb a "h" && Ascii.eqb b "t" && Ascii.eqb c "t" && Ascii.eqb d "p" &&
      negb (PyStr.isspace e)
  | _ => false
  end.

(** [re.sub(r'http\S+', '', s)]: the matches are taken from the left, and
    a match runs up to the next white space.  [skipping] tells that the
    character is inside a match. *)
Fixpoint sub_urls_aux (skipping : bool) (s : string) : string :=
  match s with
  | EmptyString => EmptyString
  | String c s' =>
      if PyStr.isspace c then String c (sub_urls_aux false s')
      else if skipping then sub_urls_aux true s'
      else if starts_url s then sub_urls_aux true s'
      else String c (sub_urls_aux false s')
  end.

Definition sub_urls (s : string) : string := sub_urls_aux false s.

(** [clean_text] *)
Definition clean_text (text : string) : string :=
  let text := PyStr.collapse_ws text in
  let text := sub_urls text in
  PyStr.strip_ws text.

(** [re.search(r'http\S+', s) is not None] *)
Fixpoint has_url (s : string) : bool :=
  starts_url s ||
  match s with
  | EmptyString => false
  | String _ s' => has_url s'
  end.

(** Every white space character of [s] is a space. *)
Definition spaces_only (s : string) : bool :=
  forallb (fun c => negb (PyStr.isspace c) || Ascii.eqb c " ") (PyStr.chars s).

(** ** The outcomes of one iteration *)

(** [fetch_page] and [extract_links] read only [driver_ready] and
    [base_url] of the scraper. *)
Lemma fetch_page_ext `{World} (s s' : GIKIScraper) (u : string) :
  driver_ready s = driver_ready s' -> fetch_page s u = fetch_page s' u.
Proof.
  intros E. unfold fetch_page, fetch_via_selenium. rewrite E. reflexivity.
Qed.

Lemma extract_links_ext `{World} (s s' : GIKIScraper) (h u : string) :
  base_url s = base_url s' -> extract_links s h u = extract_links s' h u.
Proof.
  intros E. unfold extract_links. rewrite E. reflexivity.
Qed.

Lemma truthy_Some_nonempty (o : option string) :
  PyStr.truthy o = true -> exists h, o = Some h /\ PyStr.nonempty h = true.
Proof.
  destruct o as [h|]; simpl; [eauto | discriminate].
Qed.

Lemma crawl_body_outcome `{World} (s : GIKIScraper) :
  to_visit s <> [] -> body_outcome s (crawl_body s).
Proof.
  intros Hne. unfold crawl_body.
  destruct (to_visit s) as [|popped rest] eqn:Hq; [congruence|].
  set (u := normalize_url popped).
  cbn [visited_urls with_to_visit base_url].
  destruct (bool_decide (u ∈ visited_urls s)) eqn:Hv.
  { apply bool_decide_eq_true in Hv. eapply out_skip; eauto. }
  apply bool_decide_eq_false in Hv.
  destruct (same_domain u (base_url s)) eqn:Hd; cbn [negb].
  2:{ eapply out_skip; eauto. }
  destruct (can_fetch u) eqn:Hc; cbn [negb].
  2:{ eapply out_denied; eauto. }
  set (s1 := mark_visited u (with_to_visit rest s)).
  assert (Hfp : fetch_page s1 u = fetch_page s u) by (apply fetch_page_ext; reflexivity).
  destruct (fetch_page s1 u) as [html ev] eqn:Hf.
  assert (Hs1 : emit ev s1 = fetched s rest u).
  { unfold fetched. fold s1. rewrite Hf. reflexivity. }
  assert (Hhtml : page_html s u = html).
  { unfold page_html. rewrite <- Hfp. reflexivity. }
  destruct html as [[|c h']|].
  - rewrite Hs1. eapply out_no_html; eauto. rewrite Hhtml. reflexivity.
  - set (h := String c h') in *.
    unfold process_page.
    destruct (extract_content h u) as [r|] eqn:He.
    + destruct (long_enough r) eqn:Hw.
      * apply Nat.leb_le in Hw.
        cbn [seen_hashes emit].
        destruct (bool_decide (content_hash (content r) ∉ seen_hashes s1)) eqn:Hs.
        -- apply bool_decide_eq_true in Hs.
           rewrite (extract_links_ext _ s h u) by reflexivity.
           destruct (extract_links s h u) as [links|] eqn:Hl.
           ++ rewrite Hs1.
              exact (out_accept s popped rest u h r links
                       Hq eq_refl Hv Hd Hc Hhtml eq_refl He Hw Hs Hl).
           ++ rewrite Hs1.
              exact (out_accept_raise s popped rest u h r
                       Hq eq_refl Hv Hd Hc Hhtml eq_refl He Hw Hs Hl).
        -- apply bool_decide_eq_false in Hs.
           rewrite Hs1. eapply out_discard; eauto.
           intros r' Hr'. rewrite He in Hr'. injection Hr' as <-. right. split; [exact Hw|].
           destruct (decide (digest r ∈ seen_hashes s)) as [Hin|Hin]; [exact Hin|].
           exfalso. apply Hs. exact Hin.
      * apply Nat.leb_gt in Hw.
        rewrite Hs1. eapply out_discard; eauto.
        intros r' Hr'. rewrite He in Hr'. injection Hr' as <-. left. exact Hw.
    + rewrite Hs1. eapply out_discard; eauto. intros r' Hr'. rewrite He in Hr'. discriminate.
  - rewrite Hs1. eapply out_no_html; eauto. rewrite Hhtml. reflexivity.
Qed.

(** ** Reachable states *)

Lemma loop_cond_nonempty (s : GIKIScraper) : loop_cond s = true -> to_visit s <> [].
Proof.
  unfold loop_cond. destruct (to_visit s); simpl; [discriminate | discriminate].
Qed.

Lemma loop_cond_budget (s : GIKIScraper) :
  loop_cond s = true -> (Z.of_nat (size (visited_urls s)) < max_pages s)%Z.
Proof.
  unfold loop_cond. intros Hc. apply andb_true_iff in Hc as [_ Hc].
  apply Z.ltb_lt in Hc. exact Hc.
Qed.

(** An invariant of the construction and of every iteration holds in every
    reachable state. *)
Lemma reachable_inv `{World} (base : string) (budget : Z) (P : GIKIScraper -> Prop) :
  (forall s0, init base budget = Some s0 -> P s0) ->
  (forall s r, P s -> loop_cond s = true -> body_outcome s r -> P (fst r)) ->
  forall s, reachable base budget s -> P s.
Proof.
  intros Hinit Hstep s (s0 & n & Hs0 & Hrun). subst s.
  assert (P0 : P s0) by auto. clear Hs0 Hinit.
  revert s0 P0. induction n as [|n IH]; intros s0 P0; [exact P0|].
  cbn [crawl_run]. unfold crawl_turn.
  destruct (loop_cond s0) eqn:Hc; [|exact P0].
  destruct (sigint (trace s0)); [exact P0|].
  pose proof (Hstep s0 _ P0 Hc
                (crawl_body_outcome s0 (loop_cond_nonempty s0 Hc))) as Hnext.
  destruct (crawl_body s0) as [s' [e|]]; [exact Hnext|].
  apply IH. exact Hnext.
Qed.

(** What [crawl] returns is a reachable state. *)
Lemma crawl_reachable `{World} (base : string) (budget : Z) (fuel : nat)
  (s0 s : GIKIScraper) (e : option Exn) :
  init base budget = Some s0 -> crawl fuel s0 = Some (s, e) -> reachable base budget s.
Proof.
  intros Hi Hc. exists s0, fuel. split; [exact Hi|].
  unfold crawl in Hc. destruct (crawl_run fuel s0) as [s' [| |e']]; simpl;
    [discriminate | injection Hc as -> _; reflexivity | injection Hc as -> _; reflexivity].
Qed.

(** ** Traces *)

Lemma saved_pages_app (a b : list Event) :
  saved_pages (a ++ b) = saved_pages a ++ saved_pages b.
Proof.
  induction a as [|e a IH]; [reflexivity|].
  destruct e; simpl; rewrite IH; reflexivity.
Qed.

Lemma aggregates_written_app (a b : list Event) :
  aggregates_written (a ++ b) = aggregates_written a ++ aggregates_written b.
Proof.
  induction a as [|e a IH]; [reflexivity|].
  destruct e; simpl; rewrite IH; reflexivity.
Qed.

Lemma candidates_app `{World} (a b : list Event) :
  candidates (a ++ b) = candidates a ++ candidates b.
Proof.
  induction a as [|e a IH]; [reflexivity|].
  destruct e; simpl; try exact IH.
  destruct (extract_content html u) as [r|]; [|exact IH].
  destruct (long_enough r); [|exact IH].
  rewrite IH. reflexivity.
Qed.

Lemma fetch_events_quiet `{World} (l : list Event) :
  forallb fetch_event l = true ->
  saved_pages l = [] /\ candidates l = [] /\ aggregates_written l = [].
Proof.
  induction l as [|e l IH]; [auto|].
  simpl. intros Hl. apply andb_true_iff in Hl as [He Hl].
  destruct e; simpl in *; try discriminate; auto.
Qed.

Lemma fetch_via_requests_events `{World} (u : string) :
  snd (fetch_via_requests u) = [] \/
  (snd (fetch_via_requests u) = [EvHttpGet u] /\ can_fetch u = true).
Proof.
  unfold fetch_via_requests. destruct (can_fetch u); simpl; [right|left; reflexivity].
  destruct (session_get u) as [[st txt]|]; [destruct (st >=? 400)%Z|]; auto.
Qed.

Lemma fetch_via_selenium_events `{World} (s : GIKIScraper) (u : string) :
  snd (fetch_via_selenium s u) = [] \/
  (snd (fetch_via_selenium s u) = [EvDriverGet u] /\ can_fetch u = true).
Proof.
  unfold fetch_via_selenium.
  destruct (driver_ready s); simpl; [|left; reflexivity].
  destruct (can_fetch u); simpl; auto.
Qed.

(** The events of [fetch_page]: those of the plain fetch, then, when the
    fallback is taken, the attempt and those of the browser. *)
Lemma fetch_page_trace `{World} (s : GIKIScraper) (u : string) :
  snd (fetch_page s u) =
    snd (fetch_via_requests u) ++
    if wants_renderer (plain_html u)
    then EvRenderAttempt u :: snd (fetch_via_selenium s u) else [].
Proof.
  unfold fetch_page, plain_html.
  destruct (fetch_via_requests u) as [html ev]. cbn [fst snd].
  destruct (wants_renderer html).
  - destruct (fetch_via_selenium s u) as [shtml ev']. reflexivity.
  - cbn [snd]. rewrite app_nil_r. reflexivity.
Qed.

Lemma fetch_page_events `{World} (s : GIKIScraper) (u : string) :
  forallb fetch_event (snd (fetch_page s u)) = true.
Proof.
  rewrite fetch_page_trace, forallb_app.
  apply andb_true_iff. split.
  - destruct (fetch_via_requests_events u) as [-> | [-> _]]; reflexivity.
  - destruct (wants_renderer (plain_html u)); [|reflexivity].
    destruct (fetch_via_selenium_events s u) as [-> | [-> _]]; reflexivity.
Qed.

Lemma dedup_into_snoc `{World} (kept l : list PageRecord) (r : PageRecord) :
  dedup_into kept (l ++ [r]) =
    if bool_decide (digest r ∈ map digest (dedup_into kept l))
    then dedup_into kept l else dedup_into kept l ++ [r].
Proof.
  revert kept. induction l as [|x l IH]; intros kept; [reflexivity|].
  simpl. destruct (bool_decide (digest x ∈ map digest kept)); apply IH.
Qed.

(** ** The deduplication index and the record sequence *)

Lemma candidates_extract `{World} (u h : string) :
  candidates [EvExtract u h] =
    match extract_content h u with
    | Some r => if long_enough r then [r] else []
    | None => []
    end.
Proof.
  simpl. destruct (extract_content h u) as [r|]; [|reflexivity].
  destruct (long_enough r); reflexivity.
Qed.

Lemma fetched_trace `{World} (s : GIKIScraper) (rest : list string) (u : string) :
  trace (fetched s rest u) = trace s ++ snd (fetch_page s u) /\
  records (fetched s rest u) = records s /\
  seen_hashes (fetched s rest u) = seen_hashes s /\
  visited_urls (fetched s rest u) = {[u]} ∪ visited_urls s /\
  to_visit (fetched s rest u) = rest /\
  base_url (fetched s rest u) = base_url s /\
  max_pages (fetched s rest u) = max_pages s /\
  driver_ready (fetched s rest u) = driver_ready s.
Proof.
  unfold fetched.
  rewrite (fetch_page_ext (mark_visited u (with_to_visit rest s)) s u) by reflexivity.
  repeat split; reflexivity.
Qed.

Ltac trace_simpl :=
  cbn [trace records seen_hashes visited_urls to_visit base_url max_pages
       driver_ready emit accept save_page with_to_visit mark_visited fst snd] in *;
  repeat match goal with
    | |- context [trace (fetched ?s ?rest ?u)] =>
        rewrite (proj1 (fetched_trace s rest u))
    | |- context [records (fetched ?s ?rest ?u)] =>
        rewrite (proj1 (proj2 (fetched_trace s rest u)))
    | |- context [seen_hashes (fetched ?s ?rest ?u)] =>
        rewrite (proj1 (proj2 (proj2 (fetched_trace s rest u))))
    | |- context [visited_urls (fetched ?s ?rest ?u)] =>
        rewrite (proj1 (proj2 (proj2 (proj2 (fetched_trace s rest u)))))
    | |- context [to_visit (fetched ?s ?rest ?u)] =>
        rewrite (proj1 (proj2 (proj2 (proj2 (proj2 (fetched_trace s rest u))))))
    | |- context [base_url (fetched ?s ?rest ?u)] =>
        rewrite (proj1 (proj2 (proj2 (proj2 (proj2 (proj2 (fetched_trace s rest u)))))))
    | |- context [max_pages (fetched ?s ?rest ?u)] =>
        rewrite (proj1 (proj2 (proj2 (proj2 (proj2 (proj2 (proj2 (fetched_trace s rest u))))))))
    | |- context [driver_ready (fetched ?s ?rest ?u)] =>
        rewrite (proj2 (proj2 (proj2 (proj2 (proj2 (proj2 (proj2 (fetched_trace s rest u))))))))
    end.

Lemma index_inv_init `{World} (base : string) (budget : Z) (s0 : GIKIScraper) :
  init base budget = Some s0 -> index_inv s0.
Proof.
  unfold init. destruct (fs_ok (MakeDirs SAVE_DIR)); [|discriminate].
  intros Hs. injection Hs as Hs. subst s0. repeat split; simpl; set_solver.
Qed.

(** The index after a page is accepted. *)
Lemma accepted_index `{World} (s : GIKIScraper) (u h : string) (pr : PageRecord) :
  index_inv s -> extract_content h u = Some pr -> 30 <= word_count pr ->
  digest pr ∉ seen_hashes s ->
  saved_pages (trace s) ++ [pr] = records s ++ [pr] /\
  records s ++ [pr] = first_seen (candidates (trace s) ++ candidates [EvExtract u h]) /\
  (forall x, x ∈ {[digest pr]} ∪ seen_hashes s <-> x ∈ map digest (records s ++ [pr])) /\
  aggregates_written (trace s) = [].
Proof.
  intros (Hsaved & Hrec & Hseen & Hagg) Hex Hw Hfresh.
  rewrite candidates_extract, Hex.
  unfold long_enough. destruct (Nat.leb_spec 30 (word_count pr)); [|lia].
  repeat split; [rewrite Hsaved; reflexivity | | | | exact Hagg].
  - unfold first_seen. rewrite dedup_into_snoc.
    fold (first_seen (candidates (trace s))). rewrite <- Hrec.
    rewrite bool_decide_eq_false_2; [reflexivity|].
    intros Hin. apply Hfresh, Hseen. exact Hin.
  - intros Hin. rewrite map_app. apply elem_of_app.
    apply elem_of_union in Hin as [Hin|Hin].
    + right. apply elem_of_singleton in Hin. subst. simpl. left.
    + left. apply Hseen. exact Hin.
  - intros Hin. rewrite map_app in Hin. apply elem_of_app in Hin as [Hin|Hin].
    + apply elem_of_union. right. apply Hseen. exact Hin.
    + apply elem_of_union. left. simpl in Hin.
      apply list_elem_of_singleton in Hin. subst. apply elem_of_singleton. reflexivity.
Qed.

Lemma index_inv_step `{World} (s : GIKIScraper) (r : GIKIScraper * option Exn) :
  index_inv s -> body_outcome s r -> index_inv (fst r).
Proof.
  intros (Hsaved & Hrec & Hseen & Hagg) Hout.
  assert (Hq : forall u, saved_pages (snd (fetch_page s u)) = [] /\
                         candidates (snd (fetch_page s u)) = [] /\
                         aggregates_written (snd (fetch_page s u)) = []).
  { intros u. apply fetch_events_quiet, fetch_page_events. }
  unfold index_inv.
  inversion Hout as
    [ popped rest Hto Hwhy
    | popped rest u Hto Hu Hnv Hd Hc
    | popped rest u Hto Hu Hnv Hd Hc Hno
    | popped rest u h Hto Hu Hnv Hd Hc Hh Hne Hex
    | popped rest u h pr Hto Hu Hnv Hd Hc Hh Hne Hex Hw Hfresh Hl
    | popped rest u h pr links Hto Hu Hnv Hd Hc Hh Hne Hex Hw Hfresh Hl ];
    subst r; trace_simpl;
    rewrite ?saved_pages_app, ?candidates_app, ?aggregates_written_app;
    try (destruct (Hq u) as (-> & -> & ->));
    rewrite ?app_nil_r; cbn [saved_pages aggregates_written app].
  all: try tauto.
  - rewrite candidates_extract.
    split; [exact Hsaved|]. split; [|split; [exact Hseen | exact Hagg]].
    destruct (extract_content h u) as [pr|] eqn:He; [|rewrite app_nil_r; exact Hrec].
    destruct (Hex pr eq_refl) as [Hlt | [Hge Hin]].
    + unfold long_enough. destruct (Nat.leb_spec 30 (word_count pr)); [lia|].
      rewrite app_nil_r. exact Hrec.
    + unfold long_enough. destruct (Nat.leb_spec 30 (word_count pr)); [|lia].
      unfold first_seen. rewrite dedup_into_snoc.
      fold (first_seen (candidates (trace s))). rewrite <- Hrec.
      rewrite bool_decide_eq_true_2; [reflexivity|]. apply Hseen. exact Hin.
  - apply (accepted_index s u h pr); unfold index_inv; auto.
  - apply (accepted_index s u h pr); unfold index_inv; auto.
Qed.

(** ** The politeness gate and the fetches *)

Lemma extract_content_url `{World} (h u : string) (r : PageRecord) :
  extract_content h u = Some r -> url r = u.
Proof.
  unfold extract_content.
  destruct (soup_fields h) as [[[t x] d]|]; [|discriminate].
  destruct (PyStr.nonempty _); [|discriminate].
  intros [= <-]. reflexivity.
Qed.

Lemma config_inv_init `{World} (base : string) (budget : Z) (s0 : GIKIScraper) :
  init base budget = Some s0 -> config_inv base budget s0.
Proof.
  unfold init. destruct (fs_ok (MakeDirs SAVE_DIR)); [|discriminate].
  intros Hs. injection Hs as Hs. subst s0. repeat split.
Qed.

Lemma config_inv_step `{World} (base : string) (budget : Z) (s : GIKIScraper)
  (r : GIKIScraper * option Exn) :
  config_inv base budget s -> body_outcome s r -> config_inv base budget (fst r).
Proof.
  intros (Hb & Hm & Hd) Hout. unfold config_inv.
  inversion Hout; subst r; trace_simpl; auto.
Qed.

Lemma gate_inv_init `{World} (base : string) (budget : Z) (s0 : GIKIScraper) :
  init base budget = Some s0 -> gate_inv s0.
Proof.
  unfold init. destruct (fs_ok (MakeDirs SAVE_DIR)); [|discriminate].
  intros Hs. injection Hs as Hs. subst s0.
  repeat split; simpl; set_solver.
Qed.

(** The gate invariant after the iteration that visits and fetches [u];
    [tail] is what the iteration emits after the fetch. *)
Lemma gate_inv_fetch_case `{World} (s s' : GIKIScraper) (u : string) (tail : list Event) :
  gate_inv s -> can_fetch u = true ->
  driver_ready s' = driver_ready s ->
  visited_urls s' = {[u]} ∪ visited_urls s ->
  trace s' = trace s ++ snd (fetch_page s u) ++ tail ->
  (forall e, e ∈ tail -> fetch_event e = false) ->
  (forall v h, EvExtract v h ∈ tail -> v = u /\ page_html s u = Some h) ->
  (forall r, r ∈ records s' ->
     r ∈ records s \/
     exists h, EvExtract (url r) h ∈ tail /\ extract_content h (url r) = Some r) ->
  gate_inv s'.
Proof.
  intros (Hf & Hx & Hr) Hc Hdr Hv Ht Htail Hxt Hrt.
  assert (Hquiet : forall e, e ∈ snd (fetch_page s u) -> fetch_event e = true).
  { intros e Hin. pose proof (fetch_page_events s u) as Hall.
    rewrite forallb_forall in Hall. apply Hall, list_elem_of_In. exact Hin. }
  assert (Hph : forall v, page_html s' v = page_html s v).
  { intros v. unfold page_html. rewrite (fetch_page_ext s' s v Hdr). reflexivity. }
  split; [|split].
  - intros e He. split.
    + rewrite Ht, !elem_of_app. intros [Hin | [Hin | Hin]].
      * apply Hf in Hin as (v & Hvin & Hcv & Hev); [|assumption].
        exists v. rewrite Hv. split; [set_solver|]. split; [exact Hcv|].
        rewrite (fetch_page_ext s' s v Hdr). exact Hev.
      * exists u. rewrite Hv. split; [set_solver|]. split; [exact Hc|].
        rewrite (fetch_page_ext s' s u Hdr). exact Hin.
      * apply Htail in Hin. congruence.
    + intros (v & Hvin & Hcv & Hev).
      rewrite (fetch_page_ext s' s v Hdr) in Hev.
      rewrite Ht, !elem_of_app.
      rewrite Hv in Hvin. apply elem_of_union in Hvin as [Hvin | Hvin].
      * apply elem_of_singleton in Hvin. subst v. right. left. exact Hev.
      * left. apply Hf; [assumption|]. exists v. auto.
  - intros v h Hin. rewrite Hph, Hv.
    rewrite Ht, !elem_of_app in Hin. destruct Hin as [Hin | [Hin | Hin]].
    + apply Hx in Hin as (? & ? & ?). split; [set_solver | auto].
    + apply Hquiet in Hin. discriminate.
    + apply Hxt in Hin as [-> Hh]. split; [set_solver | auto].
  - intros r Hin. apply Hrt in Hin as [Hin | (h & Hh & He)].
    + destruct (Hr _ Hin) as (h & Hh & He). exists h. split; [|exact He].
      rewrite Ht, !elem_of_app. left. exact Hh.
    + exists h. split; [|exact He]. rewrite Ht, !elem_of_app. right. right. exact Hh.
Qed.

Lemma gate_inv_step `{World} (s : GIKIScraper) (r : GIKIScraper * option Exn) :
  gate_inv s -> body_outcome s r -> gate_inv (fst r).
Proof.
  intros Hg Hout. pose proof Hg as (Hf & Hx & Hr).
  inversion Hout as
    [ popped rest Hto Hwhy
    | popped rest u Hto Hu Hnv Hd Hc
    | popped rest u Hto Hu Hnv Hd Hc Hno
    | popped rest u h Hto Hu Hnv Hd Hc Hh Hne Hex
    | popped rest u h pr Hto Hu Hnv Hd Hc Hh Hne Hex Hw Hfresh Hl
    | popped rest u h pr links Hto Hu Hnv Hd Hc Hh Hne Hex Hw Hfresh Hl ];
    subst r; cbn [fst].
  - (* skipped *)
    exact Hg.
  - (* denied by the gate *)
    split; [|split]; trace_simpl.
    + intros e He. split.
      * intros Hin. apply elem_of_app in Hin as [Hin | Hin].
        -- apply Hf in Hin as (v & Hv & Hcv & Hev); [|assumption].
           exists v. split; [set_solver | auto].
        -- apply list_elem_of_singleton in Hin. subst e. discriminate.
      * intros (v & Hv & Hcv & Hev). apply elem_of_app. left.
        apply Hf; [assumption|]. exists v. split; [|auto].
        apply elem_of_union in Hv as [Hv | Hv]; [|exact Hv].
        apply elem_of_singleton in Hv. congruence.
    + intros v h Hin. apply elem_of_app in Hin as [Hin | Hin].
      * apply Hx in Hin as (? & ? & ?). split; [set_solver | auto].
      * apply list_elem_of_singleton in Hin. discriminate.
    + intros r Hin. destruct (Hr _ Hin) as (h & Hh & He).
      exists h. split; [|exact He]. apply elem_of_app. left. exact Hh.
  - (* nothing fetched *)
    apply (gate_inv_fetch_case s _ u [EvProgress; EvSleep]); trace_simpl; auto.
    + rewrite <- app_assoc. reflexivity.
    + intros e He. set_solver.
    + intros v h He. set_solver.
  - (* discarded *)
    apply (gate_inv_fetch_case s _ u [EvExtract u h; EvProgress; EvSleep]);
      trace_simpl; auto.
    + rewrite <- !app_assoc. reflexivity.
    + intros e He. set_solver.
    + intros v h' He. set_solver.
  - (* accepted, then the link extraction raises *)
    apply (gate_inv_fetch_case s _ u [EvExtract u h; EvSavePage (page_file pr) pr]);
      trace_simpl; auto.
    + rewrite <- !app_assoc. reflexivity.
    + intros e He. set_solver.
    + intros v h' He. set_solver.
    + intros r Hin. apply elem_of_app in Hin as [Hin | Hin]; [left; exact Hin|].
      apply list_elem_of_singleton in Hin. subst r. right.
      rewrite (extract_content_url h u pr Hex). exists h. split; [set_solver | exact Hex].
  - (* accepted *)
    apply (gate_inv_fetch_case s _ u [EvExtract u h; EvSavePage (page_file pr) pr; EvProgress; EvSleep]);
      trace_simpl; auto.
    + rewrite <- !app_assoc. reflexivity.
    + intros e He. set_solver.
    + intros v h' He. set_solver.
    + intros r Hin. apply elem_of_app in Hin as [Hin | Hin]; [left; exact Hin|].
      apply list_elem_of_singleton in Hin. subst r. right.
      rewrite (extract_content_url h u pr Hex). exists h. split; [set_solver | exact Hex].
Qed.

(** ** The frontier *)

Lemma enqueue_elem (visited : gset string) (new_links frontier : list string) (l : string) :
  l ∈ enqueue visited frontier new_links <->
  l ∈ frontier \/ (l ∈ new_links /\ (l ∉ visited) /\ non_content l = false).
Proof.
  revert frontier. induction new_links as [|x rest IH]; intros frontier; simpl.
  - rewrite elem_of_nil. tauto.
  - destruct (bool_decide (x ∉ visited)) eqn:Hv; simpl.
    + apply bool_decide_eq_true in Hv.
      destruct (bool_decide (x ∉ frontier)) eqn:Hf.
      * apply bool_decide_eq_true in Hf.
        destruct (non_content x) eqn:Hn; rewrite IH;
          rewrite ?elem_of_app, ?elem_of_cons, ?elem_of_nil;
          intuition (subst; auto; congruence).
      * apply bool_decide_eq_false in Hf.
        assert (x ∈ frontier) by (destruct (decide (x ∈ frontier)); tauto).
        rewrite IH, elem_of_cons. intuition (subst; auto; congruence).
    + apply bool_decide_eq_false in Hv.
      rewrite IH, elem_of_cons. intuition (subst; auto; congruence).
Qed.

Lemma enqueue_NoDup (visited : gset string) (new_links frontier : list string) :
  NoDup frontier -> NoDup (enqueue visited frontier new_links).
Proof.
  revert frontier. induction new_links as [|x rest IH]; intros frontier Hnd; simpl.
  - exact Hnd.
  - destruct (bool_decide (x ∉ visited)); simpl; [|apply IH; exact Hnd].
    destruct (bool_decide (x ∉ frontier)) eqn:Hf; [|apply IH; exact Hnd].
    apply bool_decide_eq_true in Hf.
    destruct (non_content x); apply IH; [exact Hnd|].
    apply NoDup_app. split; [exact Hnd|]. split.
    + intros y Hy Hy'. apply list_elem_of_singleton in Hy'. subst y. contradiction.
    + apply NoDup_singleton.
Qed.


Lemma frontier_inv_init `{World} (base : string) (budget : Z) (s0 : GIKIScraper) :
  init base budget = Some s0 -> frontier_inv s0.
Proof.
  unfold init. destruct (fs_ok (MakeDirs SAVE_DIR)); [|discriminate].
  intros Hs. injection Hs as Hs. subst s0. split; simpl.
  - apply NoDup_singleton.
  - intros l Hl. apply list_elem_of_singleton in Hl. left. exact Hl.
Qed.

Lemma frontier_inv_step `{World} (s : GIKIScraper) (r : GIKIScraper * option Exn) :
  frontier_inv s -> body_outcome s r -> frontier_inv (fst r).
Proof.
  intros (Hnd & Hpat) Hout.
  assert (Hrest : forall popped rest, to_visit s = popped :: rest ->
            NoDup rest /\ forall l, l ∈ rest -> l = seed_url s \/ non_content l = false).
  { intros popped rest Hto. rewrite Hto in Hnd, Hpat.
    apply NoDup_cons in Hnd as [_ Hnd]. split; [exact Hnd|].
    intros l Hl. apply Hpat. right. exact Hl. }
  unfold frontier_inv, seed_url in *.
  inversion Hout as
    [ popped rest Hto Hwhy
    | popped rest u Hto Hu Hnv Hd Hc
    | popped rest u Hto Hu Hnv Hd Hc Hno
    | popped rest u h Hto Hu Hnv Hd Hc Hh Hne Hex
    | popped rest u h pr Hto Hu Hnv Hd Hc Hh Hne Hex Hw Hfresh Hl
    | popped rest u h pr links Hto Hu Hnv Hd Hc Hh Hne Hex Hw Hfresh Hl ];
    subst r; trace_simpl; destruct (Hrest _ _ Hto) as [Hnd' Hpat']; try (split; assumption).
  split.
  - apply enqueue_NoDup. exact Hnd'.
  - intros l Hin. apply enqueue_elem in Hin as [Hin | (_ & _ & Hin)]; [auto | right; exact Hin].
Qed.

(** ** The page budget and termination *)

Lemma size_visit (u : string) (visited : gset string) :
  u ∉ visited -> size ({[u]} ∪ visited) = S (size visited).
Proof.
  intros Hu. rewrite size_union by set_solver. rewrite size_singleton. reflexivity.
Qed.

(** An iteration either shortens the frontier and visits nothing, or visits
    one more URL. *)
Lemma body_progress `{World} (s : GIKIScraper) (r : GIKIScraper * option Exn) :
  body_outcome s r ->
  max_pages (fst r) = max_pages s /\
  ((visited_urls (fst r) = visited_urls s /\
    List.length (to_visit (fst r)) < List.length (to_visit s)) \/
   size (visited_urls (fst r)) = S (size (visited_urls s))).
Proof.
  intros Hout.
  inversion Hout as
    [ popped rest Hto Hwhy
    | popped rest u Hto Hu Hnv Hd Hc
    | popped rest u Hto Hu Hnv Hd Hc Hno
    | popped rest u h Hto Hu Hnv Hd Hc Hh Hne Hex
    | popped rest u h pr Hto Hu Hnv Hd Hc Hh Hne Hex Hw Hfresh Hl
    | popped rest u h pr links Hto Hu Hnv Hd Hc Hh Hne Hex Hw Hfresh Hl ];
    subst r; trace_simpl; (split; [reflexivity|]);
    try (right; apply size_visit; exact Hnv).
  left. split; [reflexivity|]. rewrite Hto. simpl. lia.
Qed.

Lemma budget_inv_init `{World} (base : string) (budget : Z) (s0 : GIKIScraper) :
  init base budget = Some s0 -> budget_inv s0.
Proof.
  unfold init. destruct (fs_ok (MakeDirs SAVE_DIR)); [|discriminate].
  intros Hs. injection Hs as Hs. subst s0. unfold budget_inv. cbn [visited_urls max_pages].
  rewrite size_empty. lia.
Qed.

Lemma budget_inv_step `{World} (s : GIKIScraper) (r : GIKIScraper * option Exn) :
  budget_inv s -> loop_cond s = true -> body_outcome s r -> budget_inv (fst r).
Proof.
  unfold budget_inv. intros Hb Hc Hout.
  apply loop_cond_budget in Hc.
  destruct (body_progress s r Hout) as (Hm & [[Hv _] | Hv]); rewrite Hm.
  - rewrite Hv. exact Hb.
  - rewrite Hv. lia.
Qed.

(** Every run of the loop stops. *)
Lemma crawl_run_stops `{World} (s : GIKIScraper) :
  exists n s' st, crawl_run n s = (s', st) /\ st <> Running.
Proof.
  remember (budget_left s) as a eqn:Ha.
  revert s Ha. induction a as [a IHa] using lt_wf_ind. intros s Ha.
  remember (List.length (to_visit s)) as b eqn:Hb.
  revert s Ha Hb. induction b as [b IHb] using lt_wf_ind. intros s Ha Hb.
  destruct (crawl_turn s) as [s1 st1] eqn:Hturn.
  destruct st1 as [| |e].
  - (* one more iteration, then a smaller measure *)
    assert (Hnext : exists n s' st, crawl_run n s1 = (s', st) /\ st <> Running).
    { unfold crawl_turn in Hturn.
      destruct (loop_cond s) eqn:Hc; [|discriminate].
      destruct (sigint (trace s)); [discriminate|].
      pose proof (crawl_body_outcome s (loop_cond_nonempty s Hc)) as Hout.
      destruct (crawl_body s) as [s1' [e|]]; [discriminate|].
      injection Hturn as ->.
      destruct (body_progress s _ Hout) as (Hm & [[Hv Hlen] | Hv]); cbn [fst] in *.
      - eapply (IHb (List.length (to_visit s1))); [lia | | reflexivity].
        unfold budget_left. rewrite Hm, Hv. exact Ha.
      - apply loop_cond_budget in Hc.
        eapply (IHa (budget_left s1)); [|reflexivity].
        subst a. unfold budget_left. rewrite Hm, Hv. lia. }
    destruct Hnext as (n & s' & st & Hrun & Hst).
    exists (S n), s', st. cbn [crawl_run]. rewrite Hturn. auto.
  - exists 1, s1, Returned. cbn [crawl_run]. rewrite Hturn. split; [reflexivity | discriminate].
  - exists 1, s1, (Raised e). cbn [crawl_run]. rewrite Hturn. split; [reflexivity | discriminate].
Qed.

(** More fuel does not change what [crawl] returns. *)
Lemma crawl_run_more `{World} (n k : nat) (s s' : GIKIScraper) (st : Status) :
  crawl_run n s = (s', st) -> st <> Running -> crawl_run (n + k) s = (s', st).
Proof.
  revert s. induction n as [|n IH]; intros s Hrun Hst.
  - simpl in Hrun. injection Hrun as <- <-. congruence.
  - cbn [crawl_run Nat.add] in *.
    destruct (crawl_turn s) as [s1 [| |e]]; [apply IH; assumption | exact Hrun | exact Hrun].
Qed.

Lemma crawl_fuel_irrelevant `{World} (n m : nat) (s : GIKIScraper)
  (r r' : GIKIScraper * option Exn) :
  crawl n s = Some r -> crawl m s = Some r' -> r = r'.
Proof.
  unfold crawl. intros Hn Hm.
  destruct (crawl_run n s) as [sn stn] eqn:En.
  destruct (crawl_run m s) as [sm stm] eqn:Em.
  assert (Hstn : stn <> Running) by (destruct stn; [discriminate Hn | discriminate | discriminate]).
  assert (Hstm : stm <> Running) by (destruct stm; [discriminate Hm | discriminate | discriminate]).
  pose proof (crawl_run_more n m s sn stn En Hstn) as E1.
  pose proof (crawl_run_more m n s sm stm Em Hstm) as E2.
  rewrite Nat.add_comm in E2. rewrite E1 in E2. injection E2 as -> ->.
  destruct stm; congruence.
Qed.

(** When the loop is left by its condition, the condition is false. *)
Lemma crawl_run_returned `{World} (n : nat) (s s' : GIKIScraper) :
  crawl_run n s = (s', Returned) -> loop_cond s' = false.
Proof.
  revert s. induction n as [|n IH]; intros s Hrun; [discriminate|].
  cbn [crawl_run] in Hrun. destruct (crawl_turn s) as [s1 [| |e]] eqn:Hturn.
  - apply (IH s1). exact Hrun.
  - injection Hrun as <-. unfold crawl_turn in Hturn.
    destruct (loop_cond s) eqn:Hc; [|injection Hturn as <-; exact Hc].
    destruct (sigint (trace s)); [discriminate|].
    destruct (crawl_body s) as [? [?|]]; discriminate.
  - discriminate.
Qed.


(** ** Every reachable state satisfies the invariants *)

Lemma reachable_invariants `{World} (base : string) (budget : Z) (s : GIKIScraper) :
  reachable base budget s ->
  index_inv s /\ gate_inv s /\ frontier_inv s /\ budget_inv s /\ config_inv base budget s.
Proof.
  apply (reachable_inv base budget
           (fun s => index_inv s /\ gate_inv s /\ frontier_inv s /\ budget_inv s /\
                     config_inv base budget s)).
  - intros s0 Hi.
    split; [exact (index_inv_init base budget s0 Hi)|].
    split; [exact (gate_inv_init base budget s0 Hi)|].
    split; [exact (frontier_inv_init base budget s0 Hi)|].
    split; [exact (budget_inv_init base budget s0 Hi)|].
    exact (config_inv_init base budget s0 Hi).
  - intros s0 r (Hi & Hg & Hf & Hb & Hc) Hcond Hout.
    split; [exact (index_inv_step s0 r Hi Hout)|].
    split; [exact (gate_inv_step s0 r Hg Hout)|].
    split; [exact (frontier_inv_step s0 r Hf Hout)|].
    split; [exact (budget_inv_step s0 r Hb Hcond Hout)|].
    exact (config_inv_step base budget s0 r Hc Hout).
Qed.

Lemma elem_of_saved_pages (tr : list Event) (r : PageRecord) :
  r ∈ saved_pages tr <-> exists file, EvSavePage file r ∈ tr.
Proof.
  induction tr as [|e tr IH]; simpl.
  - rewrite elem_of_nil. split; [tauto|]. intros [file Hin]. inversion Hin.
  - assert (Hskip : forall e', (forall f x, e' <> EvSavePage f x) ->
              ((exists file, EvSavePage file r ∈ e' :: tr) <->
               (exists file, EvSavePage file r ∈ tr))).
    { intros e' Hne. split; intros [file Hin]; exists file.
      - apply elem_of_cons in Hin as [Hin | Hin]; [symmetry in Hin; apply Hne in Hin; tauto | exact Hin].
      - right. exact Hin. }
    destruct e; try (rewrite Hskip by discriminate; exact IH).
    rewrite elem_of_cons, IH. split.
    + intros [-> | [f Hin]]; [exists file; left | exists f; right; exact Hin].
    + intros [f Hin]. apply elem_of_cons in Hin as [Hin | Hin].
      * injection Hin as _ ->. left. reflexivity.
      * right. exists f. exact Hin.
Qed.

Lemma candidates_long `{World} (tr : list Event) (r : PageRecord) :
  r ∈ candidates tr -> 30 <= word_count r.
Proof.
  induction tr as [|e tr IH]; simpl; [intros Hin; inversion Hin|].
  destruct e; try exact IH.
  destruct (extract_content html u) as [x|]; [|exact IH].
  destruct (long_enough x) eqn:Hw; [|exact IH].
  intros Hin. apply elem_of_cons in Hin as [-> | Hin]; [|apply IH; exact Hin].
  apply Nat.leb_le. exact Hw.
Qed.

Lemma dedup_into_sub `{World} (l kept : list PageRecord) (r : PageRecord) :
  r ∈ dedup_into kept l -> r ∈ kept \/ r ∈ l.
Proof.
  revert kept. induction l as [|x l IH]; intros kept; simpl; [auto|].
  destruct (bool_decide (digest x ∈ map digest kept)); intros Hin.
  - destruct (IH _ Hin); [left | right; right]; assumption.
  - destruct (IH _ Hin) as [Hk | Hl]; [|right; right; exact Hl].
    apply elem_of_app in Hk as [Hk | Hk]; [left; exact Hk|].
    apply list_elem_of_singleton in Hk. subst. right. left.
Qed.

Lemma first_seen_sub `{World} (l : list PageRecord) (r : PageRecord) :
  r ∈ first_seen l -> r ∈ l.
Proof.
  intros Hin. destruct (dedup_into_sub l [] r Hin) as [Hk | Hl]; [inversion Hk | exact Hl].
Qed.

Lemma find_snoc {A : Type} (f : A -> bool) (l : list A) (x : A) :
  List.find f (l ++ [x]) =
    match List.find f l with
    | Some y => Some y
    | None => if f x then Some x else None
    end.
Proof.
  induction l as [|a l IH]; simpl; [reflexivity|].
  destruct (f a); [reflexivity | exact IH].
Qed.

Lemma filter_none {A : Type} (f : A -> bool) (l : list A) :
  (forall x, x ∈ l -> f x = false) -> List.filter f l = [].
Proof.
  induction l as [|a l IH]; intros Hall; simpl; [reflexivity|].
  rewrite (Hall a) by left. apply IH. intros x Hx. apply Hall. right. exact Hx.
Qed.

(** Replaying the index keeps, of the pages with a given content, exactly
    the first one. *)
Lemma first_seen_filter `{World} (l : list PageRecord) (c : string) (rf : PageRecord) :
  collision_free l ->
  List.find (has_content c) l = Some rf ->
  List.filter (has_content c) (first_seen l) = [rf].
Proof.
  induction l as [|r l IH] using rev_ind; intros Hcf Hfind; [discriminate|].
  assert (Hcf' : collision_free l).
  { intros a b Ha Hb. apply Hcf; apply elem_of_app; left; assumption. }
  rewrite find_snoc in Hfind.
  unfold first_seen. rewrite dedup_into_snoc. fold (first_seen l).
  destruct (List.find (has_content c) l) as [y|] eqn:Hl.
  - (* an earlier page has the content *)
    injection Hfind as ->. specialize (IH Hcf' eq_refl).
    destruct (bool_decide (digest r ∈ map digest (first_seen l))) eqn:Hd; [exact IH|].
    rewrite List.filter_app, IH. simpl.
    destruct (has_content c r) eqn:Hr; [|reflexivity].
    exfalso. apply bool_decide_eq_false in Hd. apply Hd.
    assert (Hin : rf ∈ first_seen l).
    { apply list_elem_of_In.
      apply (proj1 (List.filter_In (has_content c) rf (first_seen l))).
      rewrite IH. left. reflexivity. }
    apply list_elem_of_fmap. exists rf. split; [|exact Hin].
    unfold digest. f_equal.
    apply List.find_some in Hl as [_ Hrf].
    unfold has_content in *. apply String.eqb_eq in Hr, Hrf. congruence.
  - (* this page is the first with the content *)
    destruct (has_content c r) eqn:Hr; [|discriminate]. injection Hfind as ->.
    assert (Hnone : forall x, x ∈ l -> has_content c x = false).
    { intros x Hx. apply (List.find_none _ _ Hl). apply list_elem_of_In. exact Hx. }
    assert (Hfl : List.filter (has_content c) (first_seen l) = []).
    { apply filter_none. intros x Hx. apply Hnone, first_seen_sub. exact Hx. }
    destruct (bool_decide (digest rf ∈ map digest (first_seen l))) eqn:Hd.
    + exfalso. apply bool_decide_eq_true in Hd.
      apply list_elem_of_fmap in Hd as (k & Hk & Hin).
      apply first_seen_sub in Hin.
      assert (Hc : content rf = content k).
      { apply Hcf; [apply elem_of_app; right; left | apply elem_of_app; left; exact Hin | exact Hk]. }
      specialize (Hnone k Hin). unfold has_content in *.
      apply String.eqb_eq in Hr. apply String.eqb_neq in Hnone. congruence.
    + rewrite List.filter_app, Hfl. simpl. rewrite Hr. reflexivity.
Qed.

Lemma collision_freeb_sound `{World} (l : list PageRecord) :
  collision_freeb l = true -> collision_free l.
Proof.
  unfold collision_freeb, collision_free. intros Hb a b Ha Hb' Hd.
  rewrite forallb_forall in Hb. specialize (Hb a (proj1 (list_elem_of_In _ _) Ha)).
  rewrite forallb_forall in Hb. specialize (Hb b (proj1 (list_elem_of_In _ _) Hb')).
  apply orb_true_iff in Hb as [Hne | Heq].
  - apply negb_true_iff, String.eqb_neq in Hne. contradiction.
  - apply String.eqb_eq. exact Heq.
Qed.

(** ** The claims *)

(** C1. In every state of a crawl run every record of the record sequence
    has at least 30 words, the per-page files written are exactly the
    records of the sequence, and every digest in [seen_hashes] is the digest
    of such a record.  When the content extracted from a fetched page has
    fewer than 30 words, the processing of the page stores no record, writes
    no per-page file and leaves [seen_hashes] as it was. *)
Theorem min_content_invariant `{World} (base : string) (budget : Z) (s : GIKIScraper) :
  reachable base budget s ->
  (forall r, r ∈ records s -> 30 <= word_count r) /\
  saved_pages (trace s) = records s /\
  (forall h, h ∈ seen_hashes s ->
     exists r, r ∈ records s /\ 30 <= word_count r /\ content_hash (content r) = h) /\
  (forall html u r,
     extract_content html u = Some r -> word_count r < 30 ->
     records (fst (process_page s html u)) = records s /\
     seen_hashes (fst (process_page s html u)) = seen_hashes s /\
     saved_pages (trace (fst (process_page s html u))) = saved_pages (trace s)).
Proof.
  intros Hreach.
  destruct (reachable_invariants base budget s Hreach)
    as ((Hsaved & Hrec & Hseen & _) & _).
  assert (Hlong : forall r, r ∈ records s -> 30 <= word_count r).
  { intros r Hin. rewrite Hrec in Hin.
    apply first_seen_sub, candidates_long in Hin. exact Hin. }
  split; [exact Hlong|]. split; [exact Hsaved|]. split.
  - intros h Hh. apply Hseen, list_elem_of_fmap in Hh as (r & -> & Hin).
    exists r. auto.
  - intros html u r Hex Hw. unfold process_page. rewrite Hex.
    unfold long_enough. destruct (Nat.leb_spec 30 (word_count r)); [lia|].
    cbn [fst records seen_hashes trace emit save_page].
    rewrite !saved_pages_app. simpl. rewrite !app_nil_r. auto.
Qed.

(** C2. In every state of a crawl run, when no two pages that reached the
    index collide in their digest: of the pages with a given normalized
    content that reached the index, exactly one record is in the record
    sequence and has a per-page file, the record of the first such page; the
    record of a later page with that content and another URL is not stored. *)
Theorem dedup_keeps_first_seen `{World} (base : string) (budget : Z) (s : GIKIScraper)
  (c : string) (rf : PageRecord) :
  reachable base budget s ->
  collision_free (candidates (trace s)) ->
  List.find (has_content c) (candidates (trace s)) = Some rf ->
  List.filter (has_content c) (records s) = [rf] /\
  List.filter (has_content c) (saved_pages (trace s)) = [rf] /\
  (forall r, r ∈ candidates (trace s) -> content r = c -> url r <> url rf ->
     r ∉ records s).
Proof.
  intros Hreach Hcf Hfind.
  destruct (reachable_invariants base budget s Hreach)
    as ((Hsaved & Hrec & _ & _) & _).
  assert (Hone : List.filter (has_content c) (records s) = [rf]).
  { rewrite Hrec. apply first_seen_filter; assumption. }
  split; [exact Hone|]. split; [rewrite Hsaved; exact Hone|].
  intros r _ Hc Hurl Hin.
  assert (Hr : r ∈ List.filter (has_content c) (records s)).
  { apply list_elem_of_In, List.filter_In. split; [apply list_elem_of_In; exact Hin|].
    unfold has_content. apply String.eqb_eq. exact Hc. }
  rewrite Hone in Hr. apply list_elem_of_singleton in Hr. congruence.
Qed.

(** C3. The crawl loop terminates: from the scraper that the construction
    builds, some number of turns makes [crawl] return.  A turn leaves the
    loop by its condition exactly when the frontier is empty or the number
    of visited URLs has reached the budget.  The number of visited URLs never
    exceeds the budget, and when the loop is left with URLs still in the
    frontier, exactly [budget] URLs are visited. *)
Theorem crawl_terminates_within_budget `{World} (base : string) (budget : Z) (s0 : GIKIScraper) :
  init base budget = Some s0 ->
  (forall x, snd (crawl_turn x) = Returned <->
     to_visit x = [] \/ (max_pages x <= Z.of_nat (size (visited_urls x)))%Z) /\
  exists fuel s e,
    crawl fuel s0 = Some (s, e) /\
    (e = None ->
       to_visit s = [] \/ (budget <= Z.of_nat (size (visited_urls s)))%Z) /\
    (Z.of_nat (size (visited_urls s)) <= Z.max 0 budget)%Z /\
    (e = None -> to_visit s <> [] ->
       Z.of_nat (size (visited_urls s)) = Z.max 0 budget).
Proof.
  intros Hi.
  assert (Hcond : forall x, loop_cond x = false <->
            to_visit x = [] \/ (max_pages x <= Z.of_nat (size (visited_urls x)))%Z).
  { intros x. unfold loop_cond. destruct (to_visit x) as [|a l]; simpl.
    - split; auto.
    - rewrite Z.ltb_ge. split; [auto|]. intros [Hn | Hb]; [discriminate | exact Hb]. }
  split.
  - intros x. rewrite <- Hcond. unfold crawl_turn.
    destruct (loop_cond x).
    + destruct (sigint (trace x)); [split; discriminate|].
      destruct (crawl_body x) as [x' [e|]]; split; discriminate.
    + split; reflexivity.
  - destruct (crawl_run_stops s0) as (n & s & st & Hrun & Hst).
    assert (Hreach : reachable base budget s).
    { exists s0, n. rewrite Hrun. auto. }
    destruct (reachable_invariants base budget s Hreach)
      as (_ & _ & _ & Hb & (_ & Hm & _)).
    unfold budget_inv in Hb. rewrite Hm in Hb.
    exists n, s, (match st with Raised e => Some e | _ => None end).
    split; [|split; [|split; [exact Hb|]]].
    + unfold crawl. rewrite Hrun. destruct st; [congruence | reflexivity | reflexivity].
    + intros He. destruct st as [| |e]; [congruence | | discriminate].
      apply crawl_run_returned in Hrun. apply Hcond in Hrun. rewrite Hm in Hrun. exact Hrun.
    + intros He Hne. destruct st as [| |e]; [congruence | | discriminate].
      apply crawl_run_returned in Hrun. apply Hcond in Hrun. rewrite Hm in Hrun.
      destruct Hrun as [Hq | Hq]; [contradiction | lia].
Qed.

Lemma fetch_page_event_url `{World} (s : GIKIScraper) (v : string) (e : Event) :
  e ∈ snd (fetch_page s v) ->
  (e = EvHttpGet v /\ can_fetch v = true) \/
  (e = EvRenderAttempt v /\ wants_renderer (plain_html v) = true) \/
  (e = EvDriverGet v /\ can_fetch v = true).
Proof.
  rewrite fetch_page_trace, elem_of_app. intros [Hin | Hin].
  - destruct (fetch_via_requests_events v) as [E | [E Hc]]; rewrite E in Hin.
    + inversion Hin.
    + apply list_elem_of_singleton in Hin. auto.
  - destruct (wants_renderer (plain_html v)); [|inversion Hin].
    apply elem_of_cons in Hin as [-> | Hin]; [auto|].
    destruct (fetch_via_selenium_events s v) as [E | [E Hc]]; rewrite E in Hin.
    + inversion Hin.
    + apply list_elem_of_singleton in Hin. auto.
Qed.

(** C4. In every state of a crawl run, a URL that the robots policy
    disallows has no HTTP request, no browser navigation and no extraction in
    the trace, and no record or per-page file carries it.  When the iteration
    dequeues such a URL (not yet visited, in the domain), it adds the URL to
    the visited set and advances the progress bar by one, and does nothing
    else. *)
Theorem robots_compliance `{World} (base : string) (budget : Z) (s : GIKIScraper) (u : string) :
  reachable base budget s ->
  can_fetch u = false ->
  (EvHttpGet u ∉ trace s) /\
  (EvDriverGet u ∉ trace s) /\
  (forall h, EvExtract u h ∉ trace s) /\
  (forall r, r ∈ records s -> url r <> u) /\
  (forall file r, EvSavePage file r ∈ trace s -> url r <> u) /\
  (forall popped rest,
     to_visit s = popped :: rest -> normalize_url popped = u ->
     u ∉ visited_urls s -> same_domain u (base_url s) = true ->
     snd (crawl_body s) = None /\
     u ∈ visited_urls (fst (crawl_body s)) /\
     trace (fst (crawl_body s)) = trace s ++ [EvProgress] /\
     records (fst (crawl_body s)) = records s).
Proof.
  intros Hreach Hdeny.
  destruct (reachable_invariants base budget s Hreach)
    as ((Hsaved & _) & (Hf & Hx & Hr) & _).
  assert (Hrec : forall r, r ∈ records s -> url r <> u).
  { intros r Hin Hu. destruct (Hr r Hin) as (h & Hh & _).
    apply Hx in Hh as (_ & Hc & _). congruence. }
  split; [|split; [|split; [|split; [exact Hrec|split]]]].
  - intros Hin. apply Hf in Hin as (v & _ & Hc & Hev); [|reflexivity].
    apply fetch_page_event_url in Hev as [[E _] | [[E _] | [E _]]];
      try discriminate. injection E as ->. congruence.
  - intros Hin. apply Hf in Hin as (v & _ & Hc & Hev); [|reflexivity].
    apply fetch_page_event_url in Hev as [[E _] | [[E _] | [E _]]];
      try discriminate. injection E as ->. congruence.
  - intros h Hin. apply Hx in Hin as (_ & Hc & _). congruence.
  - intros file r Hin. apply Hrec. rewrite <- Hsaved. apply elem_of_saved_pages.
    exists file. exact Hin.
  - intros popped rest Hto Hu Hnv Hd. unfold crawl_body. rewrite Hto, Hu.
    cbn [visited_urls with_to_visit base_url].
    rewrite bool_decide_eq_false_2 by exact Hnv.
    rewrite Hd, Hdeny. cbn [negb fst snd trace visited_urls records emit mark_visited].
    split; [reflexivity|]. split; [set_solver|]. split; reflexivity.
Qed.

Lemma wants_renderer_spec `{World} (html : option string) :
  wants_renderer html = true <->
  USE_RENDERER = true /\
  (html = None \/
   exists h, html = Some h /\
     (h = "" \/ String.length h < 800 \/
      exists tok, tok ∈ dynamic_markers /\ PyStr.contains tok (PyStr.lower h) = true)).
Proof.
  unfold wants_renderer. rewrite andb_true_iff.
  split; intros [Ha Hb]; (split; [|assumption]) || (split; [assumption|]).
  - destruct html as [h|]; [right | left; reflexivity].
    exists h. split; [reflexivity|].
    apply orb_true_iff in Ha as [Ha | Ha]; [apply orb_true_iff in Ha as [Ha | Ha]|].
    + left. destruct h; [reflexivity | discriminate].
    + right. left. apply Nat.ltb_lt. exact Ha.
    + right. right. unfold has_marker in Ha. apply existsb_exists in Ha as (tok & Hin & Ht).
      exists tok. split; [apply list_elem_of_In; exact Hin | exact Ht].
  - destruct Hb as [-> | (h & -> & Hh)]; [reflexivity|].
    destruct Hh as [-> | [Hlen | (tok & Hin & Ht)]].
    + reflexivity.
    + apply Nat.ltb_lt in Hlen. rewrite Hlen. apply orb_true_iff. left.
      apply orb_true_r.
    + apply orb_true_iff. right. unfold has_marker. apply existsb_exists.
      exists tok. split; [apply list_elem_of_In; exact Hin | exact Ht].
Qed.

(** C5. In every state of a crawl run, a rendered fetch of a URL was
    attempted exactly when the URL was dequeued and passed the gate,
    rendering is enabled, and the plain fetch returned nothing, or HTML of
    fewer than 800 characters, or HTML with one of the four markers in its
    lower-cased text.  When rendering is disabled, or the rendered fetch
    yields nothing, the HTML of the page is the plain result, and that HTML is
    what the extraction is run on. *)
Theorem fallback_escalation `{World} (base : string) (budget : Z) (s : GIKIScraper) (u : string) :
  reachable base budget s ->
  (EvRenderAttempt u ∈ trace s <->
     u ∈ visited_urls s /\ can_fetch u = true /\ USE_RENDERER = true /\
     (plain_html u = None \/
      exists h, plain_html u = Some h /\
        (h = "" \/ String.length h < 800 \/
         exists tok, tok ∈ dynamic_markers /\
                     PyStr.contains tok (PyStr.lower h) = true))) /\
  (USE_RENDERER = false \/ PyStr.truthy (fst (fetch_via_selenium s u)) = false ->
     page_html s u = plain_html u) /\
  (forall h, EvExtract u h ∈ trace s -> page_html s u = Some h).
Proof.
  intros Hreach.
  destruct (reachable_invariants base budget s Hreach) as (_ & (Hf & Hx & _) & _).
  split; [|split].
  - rewrite (Hf (EvRenderAttempt u) eq_refl). rewrite <- wants_renderer_spec. split.
    + intros (v & Hv & Hc & Hev).
      apply fetch_page_event_url in Hev as [[E _] | [[E Hw] | [E _]]];
        try discriminate. injection E as ->. auto.
    + intros (Hv & Hc & Hw). exists u. split; [exact Hv|]. split; [exact Hc|].
      rewrite fetch_page_trace, Hw. apply elem_of_app. right. left.
  - intros Hoff. unfold page_html, fetch_page, plain_html.
    destruct (fetch_via_requests u) as [html ev]. cbn [fst].
    destruct (wants_renderer html) eqn:Hw; [|reflexivity].
    destruct Hoff as [Hoff | Hoff].
    + apply wants_renderer_spec in Hw as [Hw _]. congruence.
    + destruct (fetch_via_selenium s u) as [shtml ev']. cbn [fst] in *.
      rewrite Hoff. reflexivity.
  - intros h Hin. apply Hx in Hin as (_ & _ & Hh). exact Hh.
Qed.

Lemma uniq_links_spec `{World} (base : string) (links uniq : list string) :
  NoDup uniq ->
  NoDup (uniq_links base uniq links) /\
  (forall l, l ∈ uniq_links base uniq links ->
     l ∈ uniq \/ (l ∈ links /\ same_domain l base = true)).
Proof.
  revert uniq. induction links as [|x links IH]; intros uniq Hnd; simpl.
  - split; [exact Hnd | auto].
  - destruct (bool_decide (x ∉ uniq)) eqn:Hx; simpl.
    + apply bool_decide_eq_true in Hx.
      destruct (same_domain x base) eqn:Hd.
      * assert (Hnd' : NoDup (uniq ++ [x])).
        { apply NoDup_app. split; [exact Hnd|]. split; [|apply NoDup_singleton].
          intros y Hy Hy'. apply list_elem_of_singleton in Hy'. subst y. contradiction. }
        destruct (IH _ Hnd') as [Hn He]. split; [exact Hn|].
        intros l Hl. apply He in Hl as [Hl | [Hl Hs]].
        -- apply elem_of_app in Hl as [Hl | Hl]; [left; exact Hl|].
           apply list_elem_of_singleton in Hl. subst l. right. split; [left | exact Hd].
        -- right. split; [right; exact Hl | exact Hs].
      * destruct (IH _ Hnd) as [Hn He]. split; [exact Hn|].
        intros l Hl. apply He in Hl as [Hl | [Hl Hs]]; [left; exact Hl|].
        right. split; [right; exact Hl | exact Hs].
    + destruct (IH _ Hnd) as [Hn He]. split; [exact Hn|].
      intros l Hl. apply He in Hl as [Hl | [Hl Hs]]; [left; exact Hl|].
      right. split; [right; exact Hl | exact Hs].
Qed.

(** C8, amended.  The list that [extract_links] returns has no duplicate
    entry and only links in the domain of the crawl; it is the crawl loop that
    leaves out the links matching a non-content pattern, when it enqueues:
    every URL that an iteration adds to the frontier matches none of the
    patterns, and in every state of a run the frontier has no duplicate and,
    apart from the seed, no URL matching a pattern. *)
Theorem links_unique_then_filtered `{World} (base : string) (budget : Z) (s : GIKIScraper) :
  reachable base budget s ->
  (forall html u links,
     extract_links s html u = Some links ->
     NoDup links /\ forall l, l ∈ links -> same_domain l (base_url s) = true) /\
  (forall visited frontier links l,
     l ∈ enqueue visited frontier links -> l ∉ frontier ->
     l ∈ links /\ non_content l = false) /\
  NoDup (to_visit s) /\
  (forall l, l ∈ to_visit s -> l = seed_url s \/ non_content l = false).
Proof.
  intros Hreach.
  destruct (reachable_invariants base budget s Hreach) as (_ & _ & (Hnd & Hpat) & _).
  split; [|split; [|split; assumption]].
  - intros html u links. unfold extract_links.
    destruct (soup_hrefs html) as [hrefs|]; [|discriminate].
    destruct (collect_links u hrefs) as [all|]; [|discriminate].
    intros E. injection E as <-.
    destruct (uniq_links_spec (base_url s) all [] (NoDup_nil_2)) as [Hn He].
    split; [exact Hn|]. intros l Hl. apply He in Hl as [Hl | [_ Hs]]; [inversion Hl | exact Hs].
  - intros visited frontier links l Hin Hnot.
    apply enqueue_elem in Hin as [Hin | (Hin & _ & Hn)]; [contradiction | auto].
Qed.

Lemma save_aggregate_ok `{World} (s : GIKIScraper) :
  fs_ok (MakeDirs (dirname AGG_PATH)) = true ->
  fs_ok (OpenWrite AGG_PATH) = true ->
  fs_ok (OpenWrite STATS_PATH) = true ->
  save_aggregate s =
    (emit match records s with
          | [] => [EvWarnNoRecords]
          | _ => [EvWriteAggregate (records s);
                  EvWriteStats (List.length (records s)) (total_words (records s))
                    (size (visited_urls s))]
          end s, None).
Proof.
  intros H1 H2 H3. unfold save_aggregate. rewrite H1, H2, H3.
  destruct (records s) as [|r rs] eqn:Hr; [reflexivity|].
  cbn [negb records emit visited_urls trace]. rewrite Hr.
  unfold emit. cbn [trace records visited_urls base_url max_pages to_visit seen_hashes
                    driver_ready]. rewrite <- app_assoc. reflexivity.
Qed.

(** C9, amended.  When the output files can be written: [main] returns for
    some number of loop turns; however the crawl loop was left (by its
    condition, by an interrupt or by an exception), the aggregate of the
    accumulated records is written exactly once, after the crawl and before
    the scraper is closed, provided at least one record was accepted; when no
    record was accepted, no aggregate is written, only a warning is logged.
    An exception of the crawl loop leaves [main] after the flush; an
    interrupt does not. *)
Theorem aggregate_flushed_once `{World} (base : string) (budget : Z) (s0 : GIKIScraper) :
  fs_ok (MakeDirs (dirname AGG_PATH)) = true ->
  fs_ok (OpenWrite AGG_PATH) = true ->
  fs_ok (OpenWrite STATS_PATH) = true ->
  init base budget = Some s0 ->
  exists fuel sc ec s,
    crawl fuel s0 = Some (sc, ec) /\
    main fuel base budget =
      Some (Some s, match ec with Some Exception => Some Exception | _ => None end) /\
    records s = records sc /\
    trace s =
      trace sc ++
      match records sc with
      | [] => [EvWarnNoRecords]
      | _ => [EvWriteAggregate (records sc);
              EvWriteStats (List.length (records sc)) (total_words (records sc))
                (size (visited_urls sc))]
      end ++ [EvClose] /\
    aggregates_written (trace s) =
      match records sc with [] => [] | _ => [records sc] end.
Proof.
  intros H1 H2 H3 Hi.
  destruct (crawl_run_stops s0) as (n & sc & st & Hrun & Hst).
  set (ec := match st with Raised e => Some e | _ => None end).
  assert (Hcrawl : crawl n s0 = Some (sc, ec)).
  { unfold crawl. rewrite Hrun. destruct st; [congruence | reflexivity | reflexivity]. }
  assert (Hreach : reachable base budget sc) by (eapply crawl_reachable; eauto).
  destruct (reachable_invariants base budget sc Hreach) as ((_ & _ & _ & Hagg) & _).
  set (flush := match records sc with
                | [] => [EvWarnNoRecords]
                | _ => [EvWriteAggregate (records sc);
                        EvWriteStats (List.length (records sc)) (total_words (records sc))
                          (size (visited_urls sc))]
                end).
  exists n, sc, ec, (close (emit flush sc)).
  split; [exact Hcrawl|]. split; [|split; [reflexivity|split]].
  - unfold main. rewrite Hi, Hcrawl.
    destruct ec as [[|]|]; rewrite (save_aggregate_ok sc H1 H2 H3); reflexivity.
  - cbn [close emit trace]. rewrite <- app_assoc. reflexivity.
  - cbn [close emit trace]. rewrite !aggregates_written_app, Hagg.
    unfold flush. destruct (records sc); reflexivity.
Qed.

(** C10. The scraper that the construction builds has exactly one URL in its
    frontier, the normalized form of its base URL followed by /events/, and
    has visited nothing; its base URL is the configured one without trailing
    slashes.  For the default base URL the frontier holds the events page, not
    the site root. *)
Theorem initial_frontier_is_events_page `{World} (base : string) (budget : Z) (s : GIKIScraper) :
  init base budget = Some s ->
  to_visit s = [normalize_url (base_url s +:+ "/events/")] /\
  base_url s = PyStr.rstrip "/" base /\
  visited_urls s = ∅ /\ records s = [] /\
  (base = "https://giki.edu.pk" ->
     to_visit s = ["https://giki.edu.pk/events"] /\ to_visit s <> [base]).
Proof.
  unfold init. destruct (fs_ok (MakeDirs SAVE_DIR)); [|discriminate].
  intros E. injection E as <-. cbn [to_visit base_url visited_urls records].
  repeat split; try reflexivity.
  - subst base. vm_compute. reflexivity.
  - subst base. vm_compute. discriminate.
Qed.

(** C7: [normalize_url] is not idempotent.  Stripping the trailing slash of
    the path /a/;b/ leaves /a/;b, which the next call parses as the path /a/
    with the parameter b, and strips again.  The same happens, without a
    parameter, to a path of slashes after an empty host. *)
Theorem normalize_url_twice `{World} :
  normalize_url "https://h/a/;b/" = "https://h/a/;b" /\
  normalize_url (normalize_url "https://h/a/;b/") = "https://h/a;b" /\
  normalize_url "http:////a/" = "http://a" /\
  normalize_url (normalize_url "http:////a/") = "http://a/".
Proof.
  repeat split; vm_compute; reflexivity.
Qed.

(** C6: a dequeued URL that is not added to the visited set.  On the site of
    [params_world] the seed enqueues https://x.edu/a/;b; the loop dequeues it
    and visits https://x.edu/a;b instead; a later page links to it again, it
    is in neither collection, and it is enqueued a second time. *)
Theorem dequeued_url_not_visited :
  init (H := params_world) "https://x.edu" 10 = Some params_start /\
  to_visit (fst (crawl_run (H := params_world) 1 params_start)) =
    ["https://x.edu/a/;b"; "https://x.edu/z"] /\
  to_visit (fst (crawl_run (H := params_world) 2 params_start)) = ["https://x.edu/z"] /\
  elements (visited_urls (fst (crawl_run (H := params_world) 2 params_start))) =
    ["https://x.edu/events"; "https://x.edu/a;b"] /\
  to_visit (fst (crawl_run (H := params_world) 3 params_start)) = ["https://x.edu/a/;b"] /\
  (exists s, crawl (H := params_world) 5 params_start = Some (s, None) /\
     to_visit s = [] /\
     bool_decide ("https://x.edu/a/;b" ∈ visited_urls s) = false).
Proof.
  repeat split; try (vm_compute; reflexivity).
  eexists. split; [vm_compute; reflexivity|]. split; vm_compute; reflexivity.
Qed.

(** ** The claims on the example sites *)

Lemma campus_end_reachable : reachable (H := campus) "https://x.edu/" 10 campus_end.
Proof.
  apply (crawl_reachable (H := campus) "https://x.edu/" 10 20 campus_start campus_end None).
  - vm_compute. reflexivity.
  - vm_compute. reflexivity.
Qed.

(** The end-to-end scenario: all six URLs are visited, and the records are
    those of the seed, of /a and of /late (/b is too short, /c repeats /a,
    /private is disallowed). *)
Example campus_run :
  map url (records campus_end) =
    ["https://x.edu/events"; "https://x.edu/a"; "https://x.edu/late"] /\
  size (visited_urls campus_end) = 6 /\
  to_visit campus_end = [].
Proof.
  repeat split; vm_compute; reflexivity.
Qed.

Lemma min_content_invariant_witness :
  reachable (H := campus) "https://x.edu/" 10 campus_end /\
  ((forall r, r ∈ records campus_end -> 30 <= word_count r) /\
   saved_pages (trace campus_end) = records campus_end /\
   (forall h, h ∈ seen_hashes campus_end ->
      exists r, r ∈ records campus_end /\ 30 <= word_count r /\
                content_hash (H := campus) (content r) = h) /\
   (forall html u r,
      extract_content (H := campus) html u = Some r -> word_count r < 30 ->
      records (fst (process_page (H := campus) campus_end html u)) = records campus_end /\
      seen_hashes (fst (process_page (H := campus) campus_end html u)) =
        seen_hashes campus_end /\
      saved_pages (trace (fst (process_page (H := campus) campus_end html u))) =
        saved_pages (trace campus_end))).
Proof.
  split; [exact campus_end_reachable|].
  apply (min_content_invariant (H := campus) "https://x.edu/" 10 campus_end).
  exact campus_end_reachable.
Defined.

Lemma dedup_keeps_first_seen_witness :
  reachable (H := campus) "https://x.edu/" 10 campus_end /\
  collision_free (H := campus) (candidates (H := campus) (trace campus_end)) /\
  List.find (has_content campus_text_a) (candidates (H := campus) (trace campus_end)) =
    Some campus_record_a /\
  (List.filter (has_content campus_text_a) (records campus_end) = [campus_record_a] /\
   List.filter (has_content campus_text_a) (saved_pages (trace campus_end)) =
     [campus_record_a] /\
   (forall r, r ∈ candidates (H := campus) (trace campus_end) ->
      content r = campus_text_a -> url r <> url campus_record_a ->
      r ∉ records campus_end)).
Proof.
  assert (Hcf : collision_free (H := campus) (candidates (H := campus) (trace campus_end))).
  { apply collision_freeb_sound. vm_compute. reflexivity. }
  assert (Hfind : List.find (has_content campus_text_a)
                    (candidates (H := campus) (trace campus_end)) = Some campus_record_a).
  { vm_compute. reflexivity. }
  split; [exact campus_end_reachable|]. split; [exact Hcf|]. split; [exact Hfind|].
  exact (dedup_keeps_first_seen (H := campus) "https://x.edu/" 10 campus_end
           campus_text_a campus_record_a campus_end_reachable Hcf Hfind).
Defined.

Lemma crawl_terminates_within_budget_witness :
  init (H := campus) "https://x.edu/" 3 = Some campus_start3 /\
  ((forall x, snd (crawl_turn (H := campus) x) = Returned <->
      to_visit x = [] \/ (max_pages x <= Z.of_nat (size (visited_urls x)))%Z) /\
   exists fuel s e,
     crawl (H := campus) fuel campus_start3 = Some (s, e) /\
     (e = None -> to_visit s = [] \/ (3 <= Z.of_nat (size (visited_urls s)))%Z) /\
     (Z.of_nat (size (visited_urls s)) <= Z.max 0 3)%Z /\
     (e = None -> to_visit s <> [] -> Z.of_nat (size (visited_urls s)) = Z.max 0 3)).
Proof.
  assert (Hi : init (H := campus) "https://x.edu/" 3 = Some campus_start3).
  { vm_compute. reflexivity. }
  split; [exact Hi|].
  exact (crawl_terminates_within_budget (H := campus) "https://x.edu/" 3 campus_start3 Hi).
Defined.

(** With a budget of three the crawl of the campus stops after three visits,
    with three URLs left in the frontier. *)
Example campus_budget_three :
  exists s, crawl (H := campus) 4 campus_start3 = Some (s, None) /\
    size (visited_urls s) = 3 /\
    to_visit s = ["https://x.edu/c"; "https://x.edu/private"; "https://x.edu/late"].
Proof.
  eexists. split; [vm_compute; reflexivity|]. split; vm_compute; reflexivity.
Qed.

Lemma robots_compliance_witness :
  reachable (H := campus) "https://x.edu/" 10 campus_end /\
  can_fetch (H := campus) "https://x.edu/private" = false /\
  ((EvHttpGet "https://x.edu/private" ∉ trace campus_end) /\
   (EvDriverGet "https://x.edu/private" ∉ trace campus_end) /\
   (forall h, EvExtract "https://x.edu/private" h ∉ trace campus_end) /\
   (forall r, r ∈ records campus_end -> url r <> "https://x.edu/private") /\
   (forall file r, EvSavePage file r ∈ trace campus_end ->
      url r <> "https://x.edu/private") /\
   (forall popped rest,
      to_visit campus_end = popped :: rest ->
      normalize_url (H := campus) popped = "https://x.edu/private" ->
      "https://x.edu/private" ∉ visited_urls campus_end ->
      same_domain (H := campus) "https://x.edu/private" (base_url campus_end) = true ->
      snd (crawl_body (H := campus) campus_end) = None /\
      "https://x.edu/private" ∈ visited_urls (fst (crawl_body (H := campus) campus_end)) /\
      trace (fst (crawl_body (H := campus) campus_end)) = trace campus_end ++ [EvProgress] /\
      records (fst (crawl_body (H := campus) campus_end)) = records campus_end)).
Proof.
  assert (Hdeny : can_fetch (H := campus) "https://x.edu/private" = false).
  { vm_compute. reflexivity. }
  split; [exact campus_end_reachable|]. split; [exact Hdeny|].
  exact (robots_compliance (H := campus) "https://x.edu/" 10 campus_end
           "https://x.edu/private" campus_end_reachable Hdeny).
Defined.

Lemma fallback_escalation_witness :
  reachable (H := campus) "https://x.edu/" 10 campus_end /\
  ((EvRenderAttempt "https://x.edu/events" ∈ trace campus_end <->
      "https://x.edu/events" ∈ visited_urls campus_end /\
      can_fetch (H := campus) "https://x.edu/events" = true /\
      USE_RENDERER (World := campus) = true /\
      (plain_html (H := campus) "https://x.edu/events" = None \/
       exists h, plain_html (H := campus) "https://x.edu/events" = Some h /\
         (h = "" \/ String.length h < 800 \/
          exists tok, tok ∈ dynamic_markers /\
                      PyStr.contains tok (PyStr.lower h) = true))) /\
   (USE_RENDERER (World := campus) = false \/
    PyStr.truthy (fst (fetch_via_selenium (H := campus) campus_end "https://x.edu/events"))
      = false ->
    page_html (H := campus) campus_end "https://x.edu/events" =
      plain_html (H := campus) "https://x.edu/events") /\
   (forall h, EvExtract "https://x.edu/events" h ∈ trace campus_end ->
      page_html (H := campus) campus_end "https://x.edu/events" = Some h)).
Proof.
  split; [exact campus_end_reachable|].
  exact (fallback_escalation (H := campus) "https://x.edu/" 10 campus_end
           "https://x.edu/events" campus_end_reachable).
Defined.

(** On the campus the seed page is short: the browser is tried and its
    rendering replaces the plain result; the browser has nothing for /a, and
    the plain result stands. *)
Example campus_fallback :
  fetch_page (H := campus) campus_start "https://x.edu/events" =
    (Some "SEED-RENDERED",
     [EvHttpGet "https://x.edu/events"; EvRenderAttempt "https://x.edu/events";
      EvDriverGet "https://x.edu/events"]) /\
  fetch_page (H := campus) campus_start "https://x.edu/a" =
    (Some "A",
     [EvHttpGet "https://x.edu/a"; EvRenderAttempt "https://x.edu/a";
      EvDriverGet "https://x.edu/a"]) /\
  fetch_page (H := params_world) params_start "https://x.edu/z" =
    (Some "Z", [EvHttpGet "https://x.edu/z"]).
Proof.
  repeat split; vm_compute; reflexivity.
Qed.

(** C8, as stated, fails: [extract_links] returns the link to the
    administrative panel that the seed page of the campus carries. *)
Lemma extract_links_keeps_admin_link :
  extract_links (H := campus) campus_start "SEED-RENDERED" "https://x.edu/events" =
    Some ["https://x.edu/a"; "https://x.edu/b"; "https://x.edu/c";
          "https://x.edu/wp-admin/z"; "https://x.edu/private"; "https://x.edu/late"] /\
  non_content "https://x.edu/wp-admin/z" = true.
Proof.
  split; vm_compute; reflexivity.
Qed.

Lemma links_unique_then_filtered_witness :
  reachable (H := campus) "https://x.edu/" 10 campus_end /\
  ((forall html u links,
      extract_links (H := campus) campus_end html u = Some links ->
      NoDup links /\
      forall l, l ∈ links -> same_domain (H := campus) l (base_url campus_end) = true) /\
   (forall visited frontier links l,
      l ∈ enqueue visited frontier links -> l ∉ frontier ->
      l ∈ links /\ non_content l = false) /\
   NoDup (to_visit campus_end) /\
   (forall l, l ∈ to_visit campus_end ->
      l = seed_url (H := campus) campus_end \/ non_content l = false)).
Proof.
  split; [exact campus_end_reachable|].
  exact (links_unique_then_filtered (H := campus) "https://x.edu/" 10 campus_end
           campus_end_reachable).
Defined.

(** C9, as stated, fails: when the seed page cannot be fetched no record is
    accepted, and the run ends without writing the aggregate. *)
Lemma no_aggregate_without_records :
  exists s,
    main (H := offline) 5 "https://giki.edu.pk" 500 = Some (Some s, None) /\
    trace s = [EvHttpGet "https://giki.edu.pk/events"; EvProgress; EvSleep;
               EvWarnNoRecords; EvClose] /\
    aggregates_written (trace s) = [].
Proof.
  eexists. split; [vm_compute; reflexivity|]. split; vm_compute; reflexivity.
Qed.

Lemma aggregate_flushed_once_witness :
  fs_ok (World := campus) (MakeDirs (dirname (AGG_PATH (World := campus)))) = true /\
  fs_ok (World := campus) (OpenWrite (AGG_PATH (World := campus))) = true /\
  fs_ok (World := campus) (OpenWrite (STATS_PATH (World := campus))) = true /\
  init (H := campus) "https://x.edu/" 10 = Some campus_start /\
  exists fuel sc ec s,
    crawl (H := campus) fuel campus_start = Some (sc, ec) /\
    main (H := campus) fuel "https://x.edu/" 10 =
      Some (Some s, match ec with Some Exception => Some Exception | _ => None end) /\
    records s = records sc /\
    trace s =
      trace sc ++
      match records sc with
      | [] => [EvWarnNoRecords]
      | _ => [EvWriteAggregate (records sc);
              EvWriteStats (List.length (records sc)) (total_words (records sc))
                (size (visited_urls sc))]
      end ++ [EvClose] /\
    aggregates_written (trace s) =
      match records sc with [] => [] | _ => [records sc] end.
Proof.
  assert (Hi : init (H := campus) "https://x.edu/" 10 = Some campus_start).
  { vm_compute. reflexivity. }
  split; [reflexivity|]. split; [reflexivity|]. split; [reflexivity|]. split; [exact Hi|].
  exact (aggregate_flushed_once (H := campus) "https://x.edu/" 10 campus_start
           eq_refl eq_refl eq_refl Hi).
Defined.

Lemma initial_frontier_is_events_page_witness :
  init (H := offline) "https://giki.edu.pk" 500 = Some giki_start /\
  (to_visit giki_start = [normalize_url (H := offline) (base_url giki_start +:+ "/events/")] /\
   base_url giki_start = PyStr.rstrip "/" "https://giki.edu.pk" /\
   visited_urls giki_start = ∅ /\ records giki_start = [] /\
   ("https://giki.edu.pk" = "https://giki.edu.pk" ->
      to_visit giki_start = ["https://giki.edu.pk/events"] /\
      to_visit giki_start <> ["https://giki.edu.pk"])).
Proof.
  assert (Hi : init (H := offline) "https://giki.edu.pk" 500 = Some giki_start).
  { vm_compute. reflexivity. }
  split; [exact Hi|].
  exact (initial_frontier_is_events_page (H := offline) "https://giki.edu.pk" 500
           giki_start Hi).
Defined.

(** The two other ways out of the crawl loop.  An interrupt: the records
    accepted so far are flushed and [main] returns.  An exception of
    [extract_links]: the record accepted just before is flushed, and the
    exception leaves [main]. *)
Example interrupted_run_is_flushed :
  exists s,
    main (H := campus_interrupted) 20 "https://x.edu/" 10 = Some (Some s, None) /\
    map url (records s) = ["https://x.edu/events"; "https://x.edu/a"] /\
    aggregates_written (trace s) = [records s] /\
    List.last (trace s) EvSleep = EvClose.
Proof.
  eexists. split; [vm_compute; reflexivity|]. repeat split; vm_compute; reflexivity.
Qed.

Example raising_run_is_flushed :
  exists s,
    main (H := broken_world) 20 "https://x.edu/" 10 = Some (Some s, Some Exception) /\
    map url (records s) = ["https://x.edu/events"] /\
    aggregates_written (trace s) = [records s] /\
    List.last (trace s) EvSleep = EvClose.
Proof.
  eexists. split; [vm_compute; reflexivity|]. repeat split; vm_compute; reflexivity.
Qed.

(** ** Further properties *)

(** X1. The frontier discipline that holds whatever the normalizer does: the
    frontier never holds a URL twice; an iteration only grows the visited
    set; the normalized form of the dequeued URL is visited afterwards when
    it is in the domain, so a dequeued URL that is its own normal form is
    visited; and a URL that the iteration enqueues is neither visited nor
    already in the frontier. *)
Theorem frontier_discipline `{World} (base : string) (budget : Z) (s : GIKIScraper)
  (popped : string) (rest : list string) :
  reachable base budget s ->
  to_visit s = popped :: rest ->
  NoDup (popped :: rest) /\
  visited_urls s ⊆ visited_urls (fst (crawl_body s)) /\
  (same_domain (normalize_url popped) (base_url s) = true ->
   normalize_url popped ∈ visited_urls (fst (crawl_body s))) /\
  (forall l, l ∈ to_visit (fst (crawl_body s)) ->
     l ∈ rest \/ ((l ∉ visited_urls (fst (crawl_body s))) /\ (l ∉ rest))) /\
  NoDup (to_visit (fst (crawl_body s))).
Proof.
  intros Hreach Hto.
  destruct (reachable_invariants base budget s Hreach) as (_ & _ & Hfr & _).
  assert (Hne : to_visit s <> []) by (rewrite Hto; discriminate).
  pose proof (crawl_body_outcome s Hne) as Hout.
  pose proof (frontier_inv_step s _ Hfr Hout) as [Hnd' _].
  destruct Hfr as [Hnd _].
  split; [rewrite <- Hto; exact Hnd|].
  split; [|split; [|split; [|exact Hnd']]].
  - inversion Hout; trace_simpl; set_solver.
  - intros Hd.
    inversion Hout as
      [ p r0 Hto' Hwhy
      | p r0 u Hto' Hu Hnv Hd' Hc
      | p r0 u Hto' Hu Hnv Hd' Hc Hno
      | p r0 u h Hto' Hu Hnv Hd' Hc Hh Hnem Hex
      | p r0 u h pr Hto' Hu Hnv Hd' Hc Hh Hnem Hex Hw Hfresh Hl
      | p r0 u h pr links Hto' Hu Hnv Hd' Hc Hh Hnem Hex Hw Hfresh Hl ];
      rewrite Hto in Hto'; injection Hto' as <- <-; trace_simpl;
      try (subst u; set_solver).
    destruct Hwhy as [Hv | Hoff]; [exact Hv | congruence].
  - intros l.
    inversion Hout as
      [ p r0 Hto' Hwhy
      | p r0 u Hto' Hu Hnv Hd' Hc
      | p r0 u Hto' Hu Hnv Hd' Hc Hno
      | p r0 u h Hto' Hu Hnv Hd' Hc Hh Hnem Hex
      | p r0 u h pr Hto' Hu Hnv Hd' Hc Hh Hnem Hex Hw Hfresh Hl
      | p r0 u h pr links Hto' Hu Hnv Hd' Hc Hh Hnem Hex Hw Hfresh Hl ];
      rewrite Hto in Hto'; injection Hto' as <- <-; trace_simpl; try tauto.
    intros Hin. apply enqueue_elem in Hin as [Hin | (_ & Hnv' & _)]; [left; exact Hin|].
    destruct (decide (l ∈ rest)); [left; assumption | right; split; assumption].
Qed.

Lemma frontier_discipline_witness :
  reachable (H := params_world) "https://x.edu" 10
    (fst (crawl_run (H := params_world) 1 params_start)) /\
  to_visit (fst (crawl_run (H := params_world) 1 params_start)) =
    "https://x.edu/a/;b" :: ["https://x.edu/z"] /\
  (NoDup ("https://x.edu/a/;b" :: ["https://x.edu/z"]) /\
   visited_urls (fst (crawl_run (H := params_world) 1 params_start)) ⊆
     visited_urls (fst (crawl_body (H := params_world)
                          (fst (crawl_run (H := params_world) 1 params_start)))) /\
   (same_domain (H := params_world) (normalize_url (H := params_world) "https://x.edu/a/;b")
      (base_url (fst (crawl_run (H := params_world) 1 params_start))) = true ->
    normalize_url (H := params_world) "https://x.edu/a/;b" ∈
      visited_urls (fst (crawl_body (H := params_world)
                           (fst (crawl_run (H := params_world) 1 params_start))))) /\
   (forall l,
      l ∈ to_visit (fst (crawl_body (H := params_world)
                           (fst (crawl_run (H := params_world) 1 params_start)))) ->
      l ∈ ["https://x.edu/z"] \/
      ((l ∉ visited_urls (fst (crawl_body (H := params_world)
                                 (fst (crawl_run (H := params_world) 1 params_start))))) /\
       (l ∉ ["https://x.edu/z"]))) /\
   NoDup (to_visit (fst (crawl_body (H := params_world)
                           (fst (crawl_run (H := params_world) 1 params_start)))))).
Proof.
  assert (Hreach : reachable (H := params_world) "https://x.edu" 10
                     (fst (crawl_run (H := params_world) 1 params_start))).
  { exists params_start, 1. split; [vm_compute; reflexivity | reflexivity]. }
  assert (Hto : to_visit (fst (crawl_run (H := params_world) 1 params_start)) =
                "https://x.edu/a/;b" :: ["https://x.edu/z"]).
  { vm_compute. reflexivity. }
  split; [exact Hreach|]. split; [exact Hto|].
  exact (frontier_discipline (H := params_world) "https://x.edu" 10 _ _ _ Hreach Hto).
Defined.

(** The domain filter on the examples of the specification; the hosts are
    compared without regard to case. *)
Theorem same_domain_examples `{World} :
  same_domain "https://sub.x.edu/p" "https://x.edu" = true /\
  same_domain "https://notx.edu" "https://x.edu" = false /\
  same_domain "https://X.edu/p" "https://x.EDU" = true.
Proof.
  repeat split; vm_compute; reflexivity.
Qed.

(** The end-to-end scenario of the specification: the four URLs are
    visited; the records are those of the seed and of A, and they are the
    aggregate that is written; the statistics count two pages. *)
Theorem end_to_end_scenario :
  exists s,
    main (H := scenario) 10 "https://x.edu" 500 = Some (Some s, None) /\
    size (visited_urls s) = 4 /\
    bool_decide ({["https://x.edu/events"; "https://x.edu/A"; "https://x.edu/B";
                   "https://x.edu/C"]} = visited_urls s) = true /\
    map url (records s) = ["https://x.edu/events"; "https://x.edu/A"] /\
    aggregates_written (trace s) = [records s] /\
    In (EvWriteStats 2 240 4) (trace s).
Proof.
  eexists. split; [vm_compute; reflexivity|].
  repeat split; try (vm_compute; reflexivity).
  vm_compute. repeat (first [left; reflexivity | right]).
Qed.

Lemma ascii_unquote_plain (s : string) :
  PyStr.char_in "%" s = false -> ascii_unquote s = s.
Proof.
  induction s as [|c s IH]; [reflexivity|].
  intros Hc.
  assert (Hc' : Ascii.eqb "%" c = false /\ PyStr.char_in "%" s = false).
  { unfold PyStr.char_in, PyStr.chars in *. cbn [list_ascii_of_string existsb] in Hc.
    apply orb_false_iff in Hc. exact Hc. }
  destruct Hc' as [Hne Hs].
  assert (E : ascii_unquote (String c s) = String c (ascii_unquote s)).
  { destruct c as [[] [] [] [] [] [] [] []]; try reflexivity. discriminate. }
  rewrite E, (IH Hs). reflexivity.
Qed.

(** Tracking parameters are dropped and the others kept, when the decoder
    leaves text without escapes as it is (as [unquote] does). *)
Theorem tracking_parameters_stripped `{World} :
  (forall s, PyStr.char_in "%" s = false -> unquote s = s) ->
  normalize_url "https://x.edu/p?utm_source=a&id=5" = "https://x.edu/p?id=5" /\
  normalize_url "https://x.edu/p/?FBCLID=1&q=a+b#top" = "https://x.edu/p?q=a+b".
Proof.
  intros Hplain.
  assert (E : forall s, PyStr.char_in "%" s = true \/ unquote s = s).
  { intros s. destruct (PyStr.char_in "%" s) eqn:Hs; [left; reflexivity | right; auto]. }
  assert (Hq : forall u p qs out,
            Urllib.urlparse u "" = Some p -> Urllib.query p = qs ->
            Urllib.parse_qsl qs = Urllib.query_fields qs ->
            normalize_parsed p (Urllib.query_fields qs) = out ->
            normalize_url u = out).
  { intros u p qs out Hp Hqs Hdec Hout. unfold normalize_url. rewrite Hp, Hqs, Hdec.
    exact Hout. }
  assert (Hdec : forall qs,
            forallb (fun nv => negb (PyStr.char_in "%" (fst nv)) &&
                               negb (PyStr.char_in "%" (snd nv)))
              (Urllib.query_fields qs) = true ->
            Urllib.parse_qsl qs = Urllib.query_fields qs).
  { intros qs Hall. unfold Urllib.parse_qsl.
    induction (Urllib.query_fields qs) as [|[n v] l IH]; [reflexivity|].
    simpl in Hall. apply andb_true_iff in Hall as [Hnv Hl].
    apply andb_true_iff in Hnv as [Hn Hv].
    apply negb_true_iff in Hn, Hv.
    simpl. rewrite (Hplain n Hn), (Hplain v Hv), (IH Hl). reflexivity. }
  split.
  - eapply Hq; [vm_compute; reflexivity | reflexivity | | vm_compute; reflexivity].
    apply Hdec. vm_compute. reflexivity.
  - eapply Hq; [vm_compute; reflexivity | reflexivity | | vm_compute; reflexivity].
    apply Hdec. vm_compute. reflexivity.
Qed.

Lemma tracking_parameters_stripped_witness :
  (forall s, PyStr.char_in "%" s = false -> unquote (World := campus) s = s) /\
  (normalize_url (H := campus) "https://x.edu/p?utm_source=a&id=5" = "https://x.edu/p?id=5" /\
   normalize_url (H := campus) "https://x.edu/p/?FBCLID=1&q=a+b#top" = "https://x.edu/p?q=a+b").
Proof.
  split; [exact ascii_unquote_plain|].
  exact (tracking_parameters_stripped (H := campus) ascii_unquote_plain).
Defined.

(** ** More on the crawl loop *)

(** An invariant of the states in which the loop can go on, and what it
    gives when an iteration raises. *)
Lemma running_inv `{World} (base : string) (budget : Z) (P Q : GIKIScraper -> Prop) :
  (forall s0, init base budget = Some s0 -> P s0) ->
  (forall s s', P s -> loop_cond s = true -> body_outcome s (s', None) -> P s') ->
  (forall s s' e, P s -> loop_cond s = true -> body_outcome s (s', Some e) -> Q s') ->
  forall n s0 s st,
    init base budget = Some s0 -> crawl_run n s0 = (s, st) ->
    match st with Raised Exception => Q s | _ => P s end.
Proof.
  intros Hinit Hstep Hraise n s0 s st Hi.
  assert (P0 : P s0) by auto. clear Hi Hinit.
  revert s0 P0. induction n as [|n IH]; intros s0 P0 Hrun.
  - simpl in Hrun. injection Hrun as <- <-. exact P0.
  - cbn [crawl_run] in Hrun. unfold crawl_turn in Hrun.
    destruct (loop_cond s0) eqn:Hc; [|injection Hrun as <- <-; exact P0].
    destruct (sigint (trace s0)); [injection Hrun as <- <-; exact P0|].
    pose proof (crawl_body_outcome s0 (loop_cond_nonempty s0 Hc)) as Hout.
    destruct (crawl_body s0) as [s' [e|]].
    + injection Hrun as <- <-.
      assert (Hq : Q s') by (eapply Hraise; eauto).
      inversion Hout; subst; exact Hq.
    + apply (IH s'); [|exact Hrun]. eapply Hstep; eauto.
Qed.

(** What an allowed fetch adds to the trace: the request, then possibly the
    attempt at rendering and the navigation of the browser. *)
Lemma fetched_shape `{World} (s : GIKIScraper) (rest : list string) (u : string) :
  can_fetch u = true ->
  exists l, trace (fetched s rest u) = trace s ++ EvHttpGet u :: l /\ render_shape u l.
Proof.
  intros Hc. rewrite (proj1 (fetched_trace s rest u)), fetch_page_trace.
  assert (Hg : snd (fetch_via_requests u) = [EvHttpGet u]).
  { unfold fetch_via_requests. rewrite Hc. simpl.
    destruct (session_get u) as [[st txt]|]; [destruct (st >=? 400)%Z|]; reflexivity. }
  rewrite Hg. unfold render_shape.
  destruct (wants_renderer (plain_html u)).
  - destruct (fetch_via_selenium_events s u) as [-> | [-> _]]; eexists; split;
      try reflexivity; auto.
  - exists []. split; [reflexivity | auto].
Qed.

(** The trace after an iteration, case by case. *)
Lemma body_outcome_trace `{World} (s : GIKIScraper) (r : GIKIScraper * option Exn) :
  body_outcome s r ->
  exists u,
    (trace (fst r) = trace s /\ visited_urls (fst r) = visited_urls s /\
     records (fst r) = records s /\ snd r = None) \/
    ((u ∉ visited_urls s) /\ same_domain u (base_url s) = true /\
     visited_urls (fst r) = {[u]} ∪ visited_urls s /\
     ((trace (fst r) = trace s ++ [EvProgress] /\ can_fetch u = false /\
       records (fst r) = records s /\ snd r = None) \/
      (can_fetch u = true /\
       exists l, render_shape u l /\
         ((trace (fst r) = trace s ++ EvHttpGet u :: l ++ [EvProgress; EvSleep] /\
           records (fst r) = records s /\ snd r = None) \/
          (exists h,
             trace (fst r) =
               trace s ++ EvHttpGet u :: l ++ [EvExtract u h; EvProgress; EvSleep] /\
             records (fst r) = records s /\ snd r = None) \/
          (exists h pr,
             extract_content h u = Some pr /\ 30 <= word_count pr /\
             records (fst r) = records s ++ [pr] /\
             ((trace (fst r) =
                 trace s ++ EvHttpGet u :: l ++
                   [EvExtract u h; EvSavePage (page_file pr) pr] /\
               snd r = Some Exception) \/
              (trace (fst r) =
                 trace s ++ EvHttpGet u :: l ++
                   [EvExtract u h; EvSavePage (page_file pr) pr; EvProgress; EvSleep] /\
               snd r = None))))))).
Proof.
  intros Hout.
  inversion Hout as
    [ popped rest Hto Hwhy
    | popped rest u Hto Hu Hnv Hd Hc
    | popped rest u Hto Hu Hnv Hd Hc Hno
    | popped rest u h Hto Hu Hnv Hd Hc Hh Hne Hex
    | popped rest u h pr Hto Hu Hnv Hd Hc Hh Hne Hex Hw Hfresh Hl
    | popped rest u h pr links Hto Hu Hnv Hd Hc Hh Hne Hex Hw Hfresh Hl ];
    subst r; try (destruct (fetched_shape s rest u Hc) as (l & Hl' & Hshape)).
  - exists "". left. trace_simpl. auto.
  - exists u. right. trace_simpl. repeat (split; [assumption || reflexivity|]).
    left. auto.
  - exists u. right. cbn [fst snd]. trace_simpl.
    repeat (split; [assumption || reflexivity|]). right. split; [exact Hc|].
    exists l. split; [exact Hshape|]. left.
    rewrite <- (proj1 (fetched_trace s rest u)), Hl', <- app_assoc. auto.
  - exists u. right. cbn [fst snd]. trace_simpl.
    repeat (split; [assumption || reflexivity|]). right. split; [exact Hc|].
    exists l. split; [exact Hshape|]. right. left. exists h.
    rewrite <- (proj1 (fetched_trace s rest u)), Hl', <- !app_assoc. auto.
  - exists u. right. cbn [fst snd]. trace_simpl.
    repeat (split; [assumption || reflexivity|]). right. split; [exact Hc|].
    exists l. split; [exact Hshape|]. right. right. exists h, pr.
    repeat (split; [assumption || reflexivity|]). left.
    rewrite <- (proj1 (fetched_trace s rest u)), Hl', <- !app_assoc. auto.
  - exists u. right. cbn [fst snd]. trace_simpl.
    repeat (split; [assumption || reflexivity|]). right. split; [exact Hc|].
    exists l. split; [exact Hshape|]. right. right. exists h, pr.
    repeat (split; [assumption || reflexivity|]). right.
    rewrite <- (proj1 (fetched_trace s rest u)), Hl', <- !app_assoc. auto.
Qed.

Ltac trace_cases Hout :=
  let u := fresh "u" in let l := fresh "l" in let h := fresh "h" in
  let pr := fresh "pr" in
  destruct (body_outcome_trace _ _ Hout) as
    (u & [ (Ht & Hv & Hr & He)
         | (Hnv & Hd & Hv &
            [ (Ht & Hc & Hr & He)
            | (Hc & l & Hsh &
               [ (Ht & Hr & He)
               | [ (h & Ht & Hr & He)
                 | (h & pr & Hex & Hw & Hr & [ (Ht & He) | (Ht & He) ]) ] ]) ]) ]);
  try (destruct Hsh as [-> | [-> | ->]]).

Lemma body_outcome_config `{World} (s : GIKIScraper) (r : GIKIScraper * option Exn) :
  body_outcome s r ->
  base_url (fst r) = base_url s /\ max_pages (fst r) = max_pages s /\
  driver_ready (fst r) = driver_ready s.
Proof.
  intros Hout. inversion Hout; subst r; trace_simpl; auto.
Qed.

Lemma http_gets_app (a b : list Event) : http_gets (a ++ b) = http_gets a ++ http_gets b.
Proof.
  induction a as [|e a IH]; [reflexivity|]. destruct e; simpl; rewrite IH; reflexivity.
Qed.

Lemma driver_gets_app (a b : list Event) :
  driver_gets (a ++ b) = driver_gets a ++ driver_gets b.
Proof.
  induction a as [|e a IH]; [reflexivity|]. destruct e; simpl; rewrite IH; reflexivity.
Qed.

Lemma extracted_urls_app (a b : list Event) :
  extracted_urls (a ++ b) = extracted_urls a ++ extracted_urls b.
Proof.
  induction a as [|e a IH]; [reflexivity|]. destruct e; simpl; rewrite IH; reflexivity.
Qed.


Lemma close_count_app (a b : list Event) :
  close_count (a ++ b) = close_count a + close_count b.
Proof.
  induction a as [|e a IH]; [reflexivity|]. destruct e; simpl; rewrite IH; reflexivity.
Qed.

Lemma stats_written_app (a b : list Event) :
  stats_written (a ++ b) = stats_written a ++ stats_written b.
Proof.
  induction a as [|e a IH]; [reflexivity|]. destruct e; simpl; rewrite IH; reflexivity.
Qed.

Lemma NoDup_snoc {A : Type} (l : list A) (x : A) : NoDup l -> x ∉ l -> NoDup (l ++ [x]).
Proof.
  intros Hnd Hx. apply NoDup_app. split; [exact Hnd|]. split; [|apply NoDup_singleton].
  intros y Hy Hy'. apply list_elem_of_singleton in Hy'. subst y. contradiction.
Qed.

(** Every URL of the trace and of the records is a visited URL, every
    visited URL is in the domain, and nothing is requested, rendered,
    extracted or recorded twice. *)
Lemma once_invariant `{World} (base : string) (budget : Z) (s : GIKIScraper) :
  reachable base budget s ->
  NoDup (http_gets (trace s)) /\ NoDup (driver_gets (trace s)) /\
  NoDup (extracted_urls (trace s)) /\ NoDup (map url (records s)) /\
  (forall u, u ∈ http_gets (trace s) \/ u ∈ driver_gets (trace s) \/
             u ∈ extracted_urls (trace s) \/ u ∈ map url (records s) ->
             u ∈ visited_urls s) /\
  (forall u, u ∈ visited_urls s -> same_domain u (base_url s) = true).
Proof.
  apply (reachable_inv base budget (fun s =>
    NoDup (http_gets (trace s)) /\ NoDup (driver_gets (trace s)) /\
    NoDup (extracted_urls (trace s)) /\ NoDup (map url (records s)) /\
    (forall u, u ∈ http_gets (trace s) \/ u ∈ driver_gets (trace s) \/
               u ∈ extracted_urls (trace s) \/ u ∈ map url (records s) ->
               u ∈ visited_urls s) /\
    (forall u, u ∈ visited_urls s -> same_domain u (base_url s) = true))).
  - unfold init. intros s0. destruct (fs_ok (MakeDirs SAVE_DIR)); [|discriminate].
    intros E. injection E as <-. simpl.
    repeat split; try apply NoDup_nil_2; [|set_solver].
    intros u [Hin | [Hin | [Hin | Hin]]]; inversion Hin.
  - intros s0 r (Hg & Hdg & Hx & Hru & Hin & Hdom) _ Hout.
    destruct (body_outcome_config s0 r Hout) as (Hb & _ & _). rewrite Hb.
    assert (Hdom' : forall v w, v ∉ visited_urls s0 -> same_domain v (base_url s0) = true ->
              w ∈ {[v]} ∪ visited_urls s0 -> same_domain w (base_url s0) = true).
    { intros v w _ Hd Hw. apply elem_of_union in Hw as [Hw | Hw]; [|auto].
      apply elem_of_singleton in Hw. subst. exact Hd. }
    assert (Hfresh : forall v, v ∉ visited_urls s0 ->
              (v ∉ http_gets (trace s0)) /\ (v ∉ driver_gets (trace s0)) /\
              (v ∉ extracted_urls (trace s0)) /\ (v ∉ map url (records s0))).
    { intros v Hv. repeat split; intros Hc; apply Hv, Hin; auto. }
    trace_cases Hout; rewrite Ht, Hv, Hr;
      try (destruct (Hfresh u Hnv) as (F1 & F2 & F3 & F4));
      try (pose proof (extract_content_url _ _ _ Hex) as Hurl);
      rewrite ?http_gets_app, ?driver_gets_app, ?extracted_urls_app, ?map_app;
      cbn [http_gets driver_gets extracted_urls app map]; rewrite ?app_nil_r;
      try rewrite Hurl;
      do 4 (split; [try assumption; try (apply NoDup_snoc; assumption)|]);
      (split; [| try assumption; try (intros w Hmem; eapply Hdom'; eassumption)]);
      intros w Hmem; rewrite ?elem_of_app, ?list_elem_of_singleton in Hmem;
      try (apply Hin; tauto);
      specialize (Hin w); set_solver.
Qed.

(** X2. The crawl never leaves its domain: in every state of a run, every
    visited URL, every URL requested over HTTP or loaded in the browser, and
    the URL of every record passes [same_domain] against the base URL. *)
Theorem crawl_stays_in_domain `{World} (base : string) (budget : Z) (s : GIKIScraper) :
  reachable base budget s ->
  (forall u, u ∈ visited_urls s -> same_domain u (base_url s) = true) /\
  (forall u, u ∈ http_gets (trace s) -> same_domain u (base_url s) = true) /\
  (forall u, u ∈ driver_gets (trace s) -> same_domain u (base_url s) = true) /\
  (forall r, r ∈ records s -> same_domain (url r) (base_url s) = true).
Proof.
  intros Hreach.
  destruct (once_invariant base budget s Hreach) as (_ & _ & _ & _ & Hin & Hdom).
  split; [exact Hdom|].
  split; [intros x Hx; apply Hdom, Hin; auto|].
  split; [intros x Hx; apply Hdom, Hin; auto|].
  intros x Hx. apply Hdom, Hin.
  right. right. right. apply list_elem_of_fmap. exists x. auto.
Qed.

(** X3. At most once per URL: in every state of a run no URL was requested
    over HTTP twice, loaded in the browser twice or extracted twice, and no
    two records have the same URL. *)
Theorem each_url_processed_once `{World} (base : string) (budget : Z) (s : GIKIScraper) :
  reachable base budget s ->
  NoDup (http_gets (trace s)) /\
  NoDup (driver_gets (trace s)) /\
  NoDup (extracted_urls (trace s)) /\
  NoDup (map url (records s)).
Proof.
  intros Hreach.
  destruct (once_invariant base budget s Hreach) as (H1 & H2 & H3 & H4 & _).
  auto.
Qed.


Lemma rate_ok_app (cur : option string) (a b : list Event) :
  rate_ok cur (a ++ b) = rate_ok cur a && rate_ok (rate_after cur a) b.
Proof.
  revert cur. induction a as [|e a IH]; intros cur; [reflexivity|].
  destruct e; cbn [rate_ok rate_after fetched_url app]; try apply IH;
    destruct cur as [v|]; rewrite ?IH, ?andb_assoc; reflexivity.
Qed.

Lemma rate_after_app (cur : option string) (a b : list Event) :
  rate_after cur (a ++ b) = rate_after (rate_after cur a) b.
Proof.
  revert cur. induction a as [|e a IH]; intros cur; [reflexivity|].
  destruct e; cbn [rate_after fetched_url app]; try apply IH;
    destruct cur as [v|]; apply IH.
Qed.

(** Inside a stretch of the trace that [rate_ok] accepts for [u], a network
    event for another URL comes after a sleep. *)
Lemma rate_ok_sleep (u1 u2 : string) (b c : list Event) (e2 : Event) :
  rate_ok (Some u1) (b ++ e2 :: c) = true ->
  fetched_url e2 = Some u2 -> u1 <> u2 -> EvSleep ∈ b.
Proof.
  intros Hok H2 Hne. induction b as [|e b IH].
  - exfalso. destruct e2; try discriminate; injection H2 as ->;
      cbn [rate_ok fetched_url app] in Hok; apply andb_true_iff in Hok as [Hok _];
      apply String.eqb_eq in Hok; congruence.
  - destruct e; try (apply list_elem_of_here);
      cbn [rate_ok fetched_url app] in Hok; try (apply list_elem_of_further, IH; exact Hok);
      apply andb_true_iff in Hok as [_ Hok]; apply list_elem_of_further, IH; exact Hok.
Qed.

Lemma rate_ok_between (cur : option string) (a b c : list Event) (e1 e2 : Event)
  (u1 u2 : string) :
  rate_ok cur (a ++ e1 :: b ++ e2 :: c) = true ->
  fetched_url e1 = Some u1 -> fetched_url e2 = Some u2 -> u1 <> u2 -> EvSleep ∈ b.
Proof.
  intros Hok H1 H2 Hne. rewrite rate_ok_app in Hok. apply andb_true_iff in Hok as [_ Hok].
  destruct (rate_after cur a) as [v|].
  - assert (Hok' : String.eqb u1 v && rate_ok (Some v) (b ++ e2 :: c) = true).
    { destruct e1; try discriminate; injection H1 as ->; exact Hok. }
    apply andb_true_iff in Hok' as [Hv Hok']. apply String.eqb_eq in Hv. subst v.
    exact (rate_ok_sleep u1 u2 b c e2 Hok' H2 Hne).
  - assert (Hok' : rate_ok (Some u1) (b ++ e2 :: c) = true).
    { destruct e1; try discriminate; injection H1 as ->; exact Hok. }
    exact (rate_ok_sleep u1 u2 b c e2 Hok' H2 Hne).
Qed.

Lemma rate_ok_run `{World} (base : string) (budget : Z) (s : GIKIScraper) :
  reachable base budget s -> rate_ok None (trace s) = true.
Proof.
  intros (s0 & n & Hi & Hs).
  destruct (crawl_run n s0) as [s' st] eqn:Hrun. simpl in Hs. subst s'.
  pose proof (running_inv base budget
    (fun s => rate_ok None (trace s) = true /\ rate_after None (trace s) = None)
    (fun s => rate_ok None (trace s) = true)) as Hinv.
  assert (Hres : match st with
                 | Raised Exception => rate_ok None (trace s) = true
                 | _ => rate_ok None (trace s) = true /\ rate_after None (trace s) = None
                 end).
  { apply (Hinv) with (n := n) (s0 := s0); auto.
    - unfold init. intros x. destruct (fs_ok (MakeDirs SAVE_DIR)); [|discriminate].
      intros E. injection E as <-. simpl. auto.
    - intros x x' (Hok & Haft) _ Hout.
      trace_cases Hout; cbn [fst snd] in *; try discriminate;
        rewrite Ht, ?rate_ok_app, ?rate_after_app, Hok, Haft;
        cbn [rate_ok rate_after fetched_url app andb]; rewrite ?String.eqb_refl; auto.
    - intros x x' e (Hok & Haft) _ Hout.
      trace_cases Hout; cbn [fst snd] in *; try discriminate;
        rewrite Ht, ?rate_ok_app, ?rate_after_app, Hok, Haft;
        cbn [rate_ok rate_after fetched_url app andb]; rewrite ?String.eqb_refl; auto. }
  destruct st as [| |[|]]; tauto.
Qed.

(** X4. The crawl is rate limited: in the trace of every state of a run,
    between two uses of the network (an HTTP request or a page load in the
    browser) for two different URLs there is a sleep. *)
Theorem sleep_between_urls `{World} (base : string) (budget : Z) (s : GIKIScraper)
  (a b c : list Event) (e1 e2 : Event) (u1 u2 : string) :
  reachable base budget s ->
  trace s = a ++ e1 :: b ++ e2 :: c ->
  fetched_url e1 = Some u1 -> fetched_url e2 = Some u2 -> u1 <> u2 ->
  EvSleep ∈ b.
Proof.
  intros Hreach Htr H1 H2 Hne.
  pose proof (rate_ok_run base budget s Hreach) as Hok. rewrite Htr in Hok.
  exact (rate_ok_between None a b c e1 e2 u1 u2 Hok H1 H2 Hne).
Qed.



Lemma total_words_long (rs : list PageRecord) :
  (forall r, r ∈ rs -> 30 <= word_count r) -> 30 * List.length rs <= total_words rs.
Proof.
  induction rs as [|r rs IH]; intros Hall; [simpl; lia|].
  assert (30 <= word_count r) by (apply Hall; left).
  assert (30 * List.length rs <= total_words rs) by (apply IH; intros; apply Hall; right; auto).
  cbn [total_words foldr List.length]. fold (total_words rs). lia.
Qed.

(** X6. The numbers of the statistics file fit each other, in every state of
    a run: the total of words is at least 30 times the number of pages (so
    the average is at least 30), there are at most as many pages as visited
    URLs, and at most as many visited URLs as the page budget. *)
Theorem statistics_bounds `{World} (base : string) (budget : Z) (s : GIKIScraper) :
  reachable base budget s ->
  30 * List.length (records s) <= total_words (records s) /\
  List.length (records s) <= size (visited_urls s) /\
  (Z.of_nat (size (visited_urls s)) <= Z.max 0 budget)%Z.
Proof.
  intros Hreach.
  destruct (reachable_invariants base budget s Hreach)
    as ((_ & Hrec & _) & _ & _ & Hb & (_ & Hm & _)).
  destruct (once_invariant base budget s Hreach) as (_ & _ & _ & Hnd & Hin & _).
  split; [|split].
  - apply total_words_long. intros r Hr. rewrite Hrec in Hr.
    apply first_seen_sub in Hr. exact (candidates_long _ _ Hr).
  - rewrite <- (length_map url).
    rewrite <- (size_list_to_set (C := gset string) (map url (records s)) Hnd).
    apply subseteq_size. intros u Hu. apply elem_of_list_to_set in Hu. apply Hin. auto.
  - unfold budget_inv in Hb. rewrite Hm in Hb. exact Hb.
Qed.

Lemma body_outcome_grows `{World} (s : GIKIScraper) (r : GIKIScraper * option Exn) :
  body_outcome s r ->
  records s `prefix_of` records (fst r) /\ trace s `prefix_of` trace (fst r) /\
  visited_urls s ⊆ visited_urls (fst r) /\ seen_hashes s ⊆ seen_hashes (fst r).
Proof.
  intros Hout. inversion Hout; subst r; trace_simpl;
    rewrite <- ?app_assoc;
    (split; [first [reflexivity | apply prefix_app_r; reflexivity]|]);
    (split; [first [reflexivity | apply prefix_app_r; reflexivity]|]);
    split; set_solver.
Qed.

(** X7. A run never takes anything back: over any number of turns of the
    crawl loop, from any scraper, the records and the trace are only
    extended at their end, and the sets of visited URLs and of seen digests
    only grow. *)
Theorem crawl_only_grows `{World} (n : nat) (s : GIKIScraper) :
  records s `prefix_of` records (fst (crawl_run n s)) /\
  trace s `prefix_of` trace (fst (crawl_run n s)) /\
  visited_urls s ⊆ visited_urls (fst (crawl_run n s)) /\
  seen_hashes s ⊆ seen_hashes (fst (crawl_run n s)).
Proof.
  revert s. induction n as [|n IH]; intros s; [simpl; repeat split; reflexivity|].
  cbn [crawl_run]. unfold crawl_turn.
  destruct (loop_cond s) eqn:Hc; [|simpl; repeat split; reflexivity].
  destruct (sigint (trace s)); [simpl; repeat split; reflexivity|].
  pose proof (crawl_body_outcome s (loop_cond_nonempty s Hc)) as Hout.
  destruct (body_outcome_grows s _ Hout) as (G1 & G2 & G3 & G4).
  destruct (crawl_body s) as [s' [e|]]; cbn [fst] in *.
  - auto.
  - destruct (IH s') as (I1 & I2 & I3 & I4).
    split; [etrans; eassumption|]. split; [etrans; eassumption|].
    split; [etrans; eassumption|]. etrans; eassumption.
Qed.


(** ** The flush and the close of [main] on every path *)

Lemma crawl_events_only `{World} (base : string) (budget : Z) (s : GIKIScraper) :
  reachable base budget s -> forallb crawl_event (trace s) = true.
Proof.
  apply (reachable_inv base budget (fun s => forallb crawl_event (trace s) = true)).
  - unfold init. intros s0. destruct (fs_ok (MakeDirs SAVE_DIR)); [|discriminate].
    intros E. injection E as <-. reflexivity.
  - intros s0 r Hp _ Hout.
    trace_cases Hout; rewrite Ht, ?forallb_app, Hp; reflexivity.
Qed.

Lemma crawl_events_quiet (tr : list Event) :
  forallb crawl_event tr = true ->
  close_count tr = 0 /\ aggregates_written tr = [] /\ stats_written tr = [].
Proof.
  induction tr as [|e tr IH]; [auto|].
  cbn [forallb]. intros Hall. apply andb_true_iff in Hall as [He Hall].
  destruct e; try discriminate; simpl; auto.
Qed.

(** What one call of [save_aggregate] does, whatever the file system does:
    it changes nothing but the trace, writes no other aggregate than the
    records, and returns normally only after a complete flush. *)
Lemma save_aggregate_shape `{World} (s : GIKIScraper) :
  exists fl,
    trace (fst (save_aggregate s)) = trace s ++ fl /\
    records (fst (save_aggregate s)) = records s /\
    visited_urls (fst (save_aggregate s)) = visited_urls s /\
    close_count fl = 0 /\
    (forall rs, rs ∈ aggregates_written fl -> rs = records s /\ rs <> []) /\
    (forall n w v, (n, w, v) ∈ stats_written fl ->
       n = List.length (records s) /\ w = total_words (records s) /\
       v = size (visited_urls s)) /\
    (snd (save_aggregate s) = None \/ snd (save_aggregate s) = Some Exception) /\
    (snd (save_aggregate s) = None ->
       fl = match records s with
            | [] => [EvWarnNoRecords]
            | _ => [EvWriteAggregate (records s);
                    EvWriteStats (List.length (records s)) (total_words (records s))
                      (size (visited_urls s))]
            end).
Proof.
  unfold save_aggregate. destruct (records s) as [|r rs] eqn:Hrec.
  - exists [EvWarnNoRecords]. cbn [fst snd emit trace records visited_urls].
    repeat split; auto; simpl; intros; exfalso; eapply not_elem_of_nil; eassumption.
  - destruct (fs_ok (MakeDirs (dirname AGG_PATH))); cbn [negb];
      [|exists []; cbn [fst snd]; rewrite app_nil_r;
        repeat split; auto; try discriminate;
        simpl; intros; exfalso; eapply not_elem_of_nil; eassumption].
    destruct (fs_ok (OpenWrite AGG_PATH)); cbn [negb];
      [|exists []; cbn [fst snd]; rewrite app_nil_r;
        repeat split; auto; try discriminate;
        simpl; intros; exfalso; eapply not_elem_of_nil; eassumption].
    cbn [emit records visited_urls trace]. rewrite Hrec.
    destruct (fs_ok (OpenWrite STATS_PATH)); cbn [negb].
    + exists [EvWriteAggregate (r :: rs);
              EvWriteStats (List.length (r :: rs)) (total_words (r :: rs))
                (size (visited_urls s))].
      cbn [fst snd emit trace records visited_urls]. rewrite <- app_assoc.
      split; [reflexivity|]. split; [exact Hrec|]. split; [reflexivity|].
      split; [reflexivity|].
      split; [intros x Hx; cbn [aggregates_written] in Hx;
              apply list_elem_of_singleton in Hx; subst x; split; [reflexivity|discriminate]|].
      split; [intros n w v Hx; cbn [stats_written] in Hx;
              apply list_elem_of_singleton in Hx; injection Hx as -> -> ->; auto|].
      split; [left; reflexivity|]. reflexivity.
    + exists [EvWriteAggregate (r :: rs)].
      cbn [fst snd emit trace records visited_urls].
      split; [reflexivity|]. split; [exact Hrec|]. split; [reflexivity|].
      split; [reflexivity|].
      split; [intros x Hx; cbn [aggregates_written] in Hx;
              apply list_elem_of_singleton in Hx; subst x; split; [reflexivity|discriminate]|].
      split; [intros n w v Hx; cbn [stats_written] in Hx;
              exfalso; eapply not_elem_of_nil; eassumption|].
      split; [right; reflexivity|]. discriminate.
Qed.

(** X8. [main] on every path, whatever the file system does.  When the
    scraper was constructed and the crawl loop is left (by its condition, by
    an interrupt or by an exception), [main] closes the scraper exactly once,
    as its last action; what it writes between the crawl and the close is
    the flush: every aggregate written there is the list of the records of
    the crawl, which is then not empty, and every statistics line has the
    numbers of these records and of the visited URLs.  An exception of the
    crawl loop always leaves [main]; and [main] returns normally only after
    one complete flush (the warning when there is no record, else the
    aggregate and then the statistics). *)
Theorem main_flushes_and_closes `{World} (fuel : nat) (base : string) (budget : Z)
  (s : GIKIScraper) (e : option Exn) :
  main fuel base budget = Some (Some s, e) ->
  exists s0 sc ec flush,
    init base budget = Some s0 /\ crawl fuel s0 = Some (sc, ec) /\
    records s = records sc /\ visited_urls s = visited_urls sc /\
    trace s = trace sc ++ flush ++ [EvClose] /\
    close_count (trace sc ++ flush) = 0 /\
    (forall rs, rs ∈ aggregates_written (trace s) -> rs = records sc /\ rs <> []) /\
    (forall n w v, (n, w, v) ∈ stats_written (trace s) ->
       n = List.length (records sc) /\ w = total_words (records sc) /\
       v = size (visited_urls sc)) /\
    (ec = Some Exception -> e = Some Exception) /\
    (e = None ->
       flush = match records sc with
               | [] => [EvWarnNoRecords]
               | _ => [EvWriteAggregate (records sc);
                       EvWriteStats (List.length (records sc)) (total_words (records sc))
                         (size (visited_urls sc))]
               end).
Proof.
  unfold main. destruct (init base budget) as [s0|] eqn:Hi; [|discriminate].
  destruct (crawl fuel s0) as [[sc ec]|] eqn:Hcr; [|discriminate].
  intros Hmain. exists s0, sc, ec.
  assert (Hreach : reachable base budget sc) by (eapply crawl_reachable; eauto).
  destruct (crawl_events_quiet _ (crawl_events_only base budget sc Hreach))
    as (Hcl & Hag & Hst).
  destruct (save_aggregate_shape sc) as (fl1 & T1 & R1 & V1 & C1 & A1 & S1 & E1 & F1).
  assert (Hfin : forall fl e',
            close_count fl = 0 ->
            (forall rs, rs ∈ aggregates_written fl -> rs = records sc /\ rs <> []) ->
            (forall n w v, (n, w, v) ∈ stats_written fl ->
               n = List.length (records sc) /\ w = total_words (records sc) /\
               v = size (visited_urls sc)) ->
            forall s1, trace s1 = trace sc ++ fl -> records s1 = records sc ->
              visited_urls s1 = visited_urls sc ->
              Some (Some (close s1), e') = Some (Some s, e) ->
              records s = records sc /\ visited_urls s = visited_urls sc /\
              trace s = trace sc ++ fl ++ [EvClose] /\
              close_count (trace sc ++ fl) = 0 /\
              (forall rs, rs ∈ aggregates_written (trace s) -> rs = records sc /\ rs <> []) /\
              (forall n w v, (n, w, v) ∈ stats_written (trace s) ->
                 n = List.length (records sc) /\ w = total_words (records sc) /\
                 v = size (visited_urls sc)) /\ e' = e).
  { intros fl e' Cf Af Sf s1 Tf Rf Vf Heq. injection Heq as <- <-.
    unfold close. cbn [emit trace records visited_urls].
    rewrite Tf, <- app_assoc, close_count_app, Hcl, Cf.
    rewrite !aggregates_written_app, !stats_written_app, Hag, Hst.
    cbn [aggregates_written stats_written app]. rewrite !app_nil_r. auto 10. }
  destruct (save_aggregate sc) as [s1 e1] eqn:Hs1. cbn [fst snd] in *.
  destruct ec as [[|]|]; cbv beta iota in Hmain; rewrite ?Hs1 in Hmain;
    cbv beta iota in Hmain.
  - (* interrupted *)
    exists fl1.
    destruct (Hfin fl1 e1 C1 A1 S1 s1 T1 R1 V1 Hmain) as (P1 & P2 & P3 & P4 & P5 & P6 & <-).
    do 8 (split; [assumption || reflexivity|]). split; [discriminate|exact F1].
  - (* the crawl raised *)
    exists fl1.
    assert (Hmain' : Some (Some (close s1), Some Exception) = Some (Some s, e)).
    { destruct e1 as [x|]; [|exact Hmain].
      destruct E1 as [E1 | E1]; [discriminate|]. injection E1 as ->. exact Hmain. }
    destruct (Hfin fl1 (Some Exception) C1 A1 S1 s1 T1 R1 V1 Hmain')
      as (P1 & P2 & P3 & P4 & P5 & P6 & <-).
    do 8 (split; [assumption || reflexivity|]). split; [reflexivity|discriminate].
  - (* the crawl returned *)
    destruct e1 as [x|].
    + destruct E1 as [E1 | E1]; [discriminate|]. injection E1 as ->.
      destruct (save_aggregate_shape s1) as (fl2 & T2 & R2 & V2 & C2 & A2 & S2 & E2 & F2).
      destruct (save_aggregate s1) as [s2 e2] eqn:Hs2. cbn [fst snd] in *.
      exists (fl1 ++ fl2).
      assert (Hmain' : Some (Some (close s2), Some Exception) = Some (Some s, e)).
      { destruct e2 as [y|]; [|exact Hmain].
        destruct E2 as [E2 | E2]; [discriminate|]. injection E2 as ->. exact Hmain. }
      rewrite R1 in A2. rewrite R1, V1 in S2.
      assert (T12 : trace s2 = trace sc ++ fl1 ++ fl2).
      { rewrite T2, T1, <- app_assoc. reflexivity. }
      assert (C12 : close_count (fl1 ++ fl2) = 0).
      { rewrite close_count_app, C1, C2. reflexivity. }
      assert (A12 : forall rs, rs ∈ aggregates_written (fl1 ++ fl2) ->
                      rs = records sc /\ rs <> []).
      { intros rs Hrs. rewrite aggregates_written_app in Hrs.
        apply elem_of_app in Hrs as [Hrs | Hrs]; auto. }
      assert (S12 : forall n w v, (n, w, v) ∈ stats_written (fl1 ++ fl2) ->
                      n = List.length (records sc) /\ w = total_words (records sc) /\
                      v = size (visited_urls sc)).
      { intros n w v Hx. rewrite stats_written_app in Hx.
        apply elem_of_app in Hx as [Hx | Hx]; auto. }
      destruct (Hfin (fl1 ++ fl2) (Some Exception) C12 A12 S12 s2 T12
                  (eq_trans R2 R1) (eq_trans V2 V1) Hmain')
        as (P1 & P2 & P3 & P4 & P5 & P6 & <-).
      do 8 (split; [assumption || reflexivity|]). split; [discriminate|discriminate].
    + exists fl1.
      destruct (Hfin fl1 None C1 A1 S1 s1 T1 R1 V1 Hmain) as (P1 & P2 & P3 & P4 & P5 & P6 & <-).
      do 8 (split; [assumption || reflexivity|]). split; [discriminate|].
      intros _. apply F1. reflexivity.
Qed.

(** X9. When the statistics file cannot be written but the aggregate can,
    and the crawl returned with at least one record, [main] writes the
    aggregate twice (once in the [try] block and once more in the handler of
    the exception that the statistics raised), writes no statistics, closes
    the scraper and raises. *)
Theorem stats_failure_flushes_twice `{World} (fuel : nat) (base : string) (budget : Z)
  (s0 sc : GIKIScraper) :
  fs_ok (MakeDirs (dirname AGG_PATH)) = true ->
  fs_ok (OpenWrite AGG_PATH) = true ->
  fs_ok (OpenWrite STATS_PATH) = false ->
  init base budget = Some s0 ->
  crawl fuel s0 = Some (sc, None) ->
  records sc <> [] ->
  exists s,
    main fuel base budget = Some (Some s, Some Exception) /\
    trace s = trace sc ++
      [EvWriteAggregate (records sc); EvWriteAggregate (records sc); EvClose] /\
    stats_written (trace s) = [].
Proof.
  intros H1 H2 H3 Hi Hcr Hne.
  assert (Hreach : reachable base budget sc) by (eapply crawl_reachable; eauto).
  destruct (crawl_events_quiet _ (crawl_events_only base budget sc Hreach))
    as (_ & _ & Hst).
  assert (Hsave : forall x, records x <> [] ->
            save_aggregate x = (emit [EvWriteAggregate (records x)] x, Some Exception)).
  { intros x Hx. unfold save_aggregate. destruct (records x) eqn:E; [congruence|].
    rewrite H1, H2, H3. cbn [negb emit records]. rewrite ?E. reflexivity. }
  unfold main. rewrite Hi, Hcr, (Hsave sc Hne).
  rewrite (Hsave (emit [EvWriteAggregate (records sc)] sc)) by exact Hne.
  eexists. split; [reflexivity|].
  unfold close. cbn [emit trace records].
  rewrite <- !app_assoc. split; [reflexivity|].
  rewrite stats_written_app, Hst. reflexivity.
Qed.


(** ** The text of a record *)

Lemma sapp_cons (c : ascii) (a b : string) : (String c a +:+ b)%string = String c (a +:+ b).
Proof. reflexivity. Qed.

Lemma sapp_nil_l (b : string) : ("" +:+ b)%string = b.
Proof. reflexivity. Qed.

Lemma sapp_nil_r (a : string) : (a +:+ "")%string = a.
Proof.
  induction a as [|x a IH]; [reflexivity|]. rewrite sapp_cons, IH. reflexivity.
Qed.

Lemma sapp_assoc (a b c : string) : ((a +:+ b) +:+ c)%string = (a +:+ (b +:+ c))%string.
Proof.
  induction a as [|x a IH]; [reflexivity|]. rewrite !sapp_cons, IH. reflexivity.
Qed.

Lemma str_app (a b : list ascii) : PyStr.str (a ++ b) = (PyStr.str a +:+ PyStr.str b)%string.
Proof.
  unfold PyStr.str. induction a as [|c a IH]; [reflexivity|].
  cbn [app string_of_list_ascii]. rewrite sapp_cons, IH. reflexivity.
Qed.

Lemma chars_app (a b : string) :
  PyStr.chars (a +:+ b) = PyStr.chars a ++ PyStr.chars b.
Proof.
  unfold PyStr.chars. induction a as [|c a IH]; [reflexivity|].
  rewrite sapp_cons. cbn [list_ascii_of_string app]. rewrite IH. reflexivity.
Qed.

Lemma lstrip_if_snoc (p : ascii -> bool) (s : string) (c : ascii) :
  PyStr.lstrip_if p (s +:+ String c "") =
    if PyStr.nonempty (PyStr.lstrip_if p s) then (PyStr.lstrip_if p s +:+ String c "")%string
    else if p c then "" else String c "".
Proof.
  induction s as [|d s IH]; rewrite ?sapp_cons, ?sapp_nil_l;
    cbn [PyStr.lstrip_if PyStr.nonempty].
  - destruct (p c); reflexivity.
  - destruct (p d); [exact IH | reflexivity].
Qed.

(** [rstrip_if] read from the left. *)
Lemma rstrip_if_cons (p : ascii -> bool) (c : ascii) (s : string) :
  PyStr.rstrip_if p (String c s) =
    if PyStr.nonempty (PyStr.rstrip_if p s) then String c (PyStr.rstrip_if p s)
    else if p c then "" else String c "".
Proof.
  unfold PyStr.rstrip_if.
  assert (E : PyStr.str (rev (PyStr.chars (String c s))) =
              (PyStr.str (rev (PyStr.chars s)) +:+ String c "")%string).
  { unfold PyStr.chars. cbn [list_ascii_of_string rev]. rewrite str_app. reflexivity. }
  rewrite E, lstrip_if_snoc.
  destruct (PyStr.lstrip_if p (PyStr.str (rev (PyStr.chars s)))) as [|d r];
    cbn [PyStr.nonempty].
  - cbn [PyStr.chars list_ascii_of_string rev PyStr.str string_of_list_ascii PyStr.nonempty].
    destruct (p c); reflexivity.
  - rewrite chars_app, rev_app_distr.
    cbn [PyStr.chars list_ascii_of_string rev app].
    fold (PyStr.chars r).
    assert (Hne : PyStr.nonempty (PyStr.str (rev (PyStr.chars r) ++ [d])) = true).
    { rewrite str_app. destruct (PyStr.str (rev (PyStr.chars r))); reflexivity. }
    rewrite Hne. reflexivity.
Qed.

Lemma lstrip_collapse (s : string) :
  PyStr.lstrip_if PyStr.isspace (PyStr.collapse_ws_aux true s) = PyStr.collapse_ws_aux true s.
Proof.
  induction s as [|c s IH]; [reflexivity|].
  cbn [PyStr.collapse_ws_aux]. destruct (PyStr.isspace c) eqn:Hc; [exact IH|].
  cbn [PyStr.lstrip_if]. rewrite Hc. reflexivity.
Qed.

Lemma lstrip_collapse_ws (s : string) :
  PyStr.lstrip_if PyStr.isspace (PyStr.collapse_ws s) = PyStr.collapse_ws_aux true s.
Proof.
  unfold PyStr.collapse_ws. destruct s as [|c s]; [reflexivity|].
  cbn [PyStr.collapse_ws_aux]. destruct (PyStr.isspace c) eqn:Hc.
  - cbn [PyStr.lstrip_if]. replace (PyStr.isspace " ") with true by reflexivity.
    apply lstrip_collapse.
  - cbn [PyStr.lstrip_if]. rewrite Hc. reflexivity.
Qed.

(** No word of [split()] is empty. *)
Lemma words_aux_nonempty (cur : list ascii) (s : string) :
  forall w, w ∈ PyStr.words_aux cur s -> w <> "".
Proof.
  assert (Hcur : forall c l, PyStr.str (rev (c :: l)) <> "").
  { intros c l. cbn [rev]. rewrite str_app.
    destruct (PyStr.str (rev l)); discriminate. }
  revert cur. induction s as [|c s IH]; intros cur w; cbn [PyStr.words_aux].
  - destruct cur as [|d cur]; intros Hw; [inversion Hw|].
    apply list_elem_of_singleton in Hw. subst w. apply Hcur.
  - destruct (PyStr.isspace c); [|apply IH].
    destruct cur as [|d cur]; [apply IH|].
    intros Hw. apply elem_of_cons in Hw as [-> | Hw]; [apply Hcur | exact (IH _ _ Hw)].
Qed.

Lemma join_nonempty (sep : string) (l : list string) :
  (forall w, w ∈ l -> w <> "") ->
  PyStr.nonempty (PyStr.join sep l) = match l with [] => false | _ => true end.
Proof.
  destruct l as [|w l]; [reflexivity|]. intros Hall.
  assert (Hw : w <> "") by (apply Hall; left).
  destruct w as [|c w]; [congruence|].
  cbn [PyStr.join]. destruct l; reflexivity.
Qed.

(** [re.sub(r"\s+", " ", s).strip()] is [" ".join(s.split())]. *)
Lemma rstrip_collapse_words (s : string) :
  (forall c cur,
     PyStr.join " " (PyStr.words_aux (c :: cur) s) =
       (PyStr.str (rev (c :: cur)) +:+
        PyStr.rstrip_if PyStr.isspace (PyStr.collapse_ws_aux false s))%string) /\
  PyStr.rstrip_if PyStr.isspace (PyStr.collapse_ws_aux true s) =
    PyStr.join " " (PyStr.words_aux [] s).
Proof.
  induction s as [|d s [IH1 IH2]].
  - split; [|reflexivity]. intros c cur.
    cbn [PyStr.words_aux PyStr.join PyStr.collapse_ws_aux].
    change (PyStr.rstrip_if PyStr.isspace "") with "". rewrite sapp_nil_r.
    reflexivity.
  - split.
    + intros c cur. cbn [PyStr.words_aux PyStr.collapse_ws_aux].
      destruct (PyStr.isspace d) eqn:Hd.
      * rewrite rstrip_if_cons, IH2.
        rewrite (join_nonempty " " (PyStr.words_aux [] s) (words_aux_nonempty [] s)).
        replace (PyStr.isspace " ") with true by reflexivity.
        destruct (PyStr.words_aux [] s) as [|w ws] eqn:Hws.
        -- cbn [PyStr.join]. rewrite sapp_nil_r. reflexivity.
        -- reflexivity.
      * rewrite IH1, rstrip_if_cons, Hd.
        cbn [rev]. rewrite str_app, sapp_assoc.
        cbn [PyStr.str string_of_list_ascii]. rewrite sapp_cons, sapp_nil_l.
        destruct (PyStr.rstrip_if PyStr.isspace (PyStr.collapse_ws_aux false s)); reflexivity.
    + cbn [PyStr.words_aux PyStr.collapse_ws_aux].
      destruct (PyStr.isspace d) eqn:Hd; [exact IH2|].
      rewrite IH1, rstrip_if_cons, Hd.
      cbn [rev app PyStr.str string_of_list_ascii]. rewrite sapp_cons, sapp_nil_l.
      destruct (PyStr.rstrip_if PyStr.isspace (PyStr.collapse_ws_aux false s)); reflexivity.
Qed.

Lemma strip_collapse_join (s : string) :
  PyStr.strip_ws (PyStr.collapse_ws s) = PyStr.join " " (PyStr.words s).
Proof.
  unfold PyStr.strip_ws, PyStr.words. rewrite lstrip_collapse_ws.
  exact (proj2 (rstrip_collapse_words s)).
Qed.


Lemma words_aux_no_ws (s : string) (cur : list ascii) :
  forallb (fun c => negb (PyStr.isspace c)) cur = true ->
  forall w, w ∈ PyStr.words_aux cur s ->
    forallb (fun c => negb (PyStr.isspace c)) (PyStr.chars w) = true.
Proof.
  assert (Hcur : forall l, forallb (fun c => negb (PyStr.isspace c)) l = true ->
            forallb (fun c => negb (PyStr.isspace c)) (PyStr.chars (PyStr.str (rev l))) = true).
  { intros l Hl. unfold PyStr.chars, PyStr.str.
    rewrite list_ascii_of_string_of_list_ascii.
    apply forallb_forall. intros a Ha. apply in_rev in Ha.
    exact (proj1 (forallb_forall _ _) Hl a Ha). }
  revert cur. induction s as [|c s IH]; intros cur Hc w; cbn [PyStr.words_aux].
  - destruct cur as [|d cur]; intros Hw; [inversion Hw|].
    apply list_elem_of_singleton in Hw. subst w. apply Hcur. exact Hc.
  - destruct (PyStr.isspace c) eqn:Hs.
    + destruct cur as [|d cur]; [apply IH; reflexivity|].
      intros Hw. apply elem_of_cons in Hw as [-> | Hw]; [apply Hcur; exact Hc|].
      exact (IH [] eq_refl _ Hw).
    + apply IH. cbn [forallb]. rewrite Hs, Hc. reflexivity.
Qed.

Lemma words_aux_word (w rest : string) (cur : list ascii) :
  forallb (fun c => negb (PyStr.isspace c)) (PyStr.chars w) = true ->
  PyStr.words_aux cur (w +:+ rest) = PyStr.words_aux (rev (PyStr.chars w) ++ cur) rest.
Proof.
  revert cur. induction w as [|c w IH]; intros cur Hw; [reflexivity|].
  unfold PyStr.chars in *. cbn [list_ascii_of_string forallb rev] in *.
  apply andb_true_iff in Hw as [Hc Hw]. apply negb_true_iff in Hc.
  rewrite sapp_cons. cbn [PyStr.words_aux]. rewrite Hc, (IH (c :: cur) Hw), <- app_assoc.
  reflexivity.
Qed.

(** [" ".join(ws).split()] gives [ws] back, for words as [split()] makes them. *)
Lemma words_join (ws : list string) :
  (forall w, w ∈ ws ->
     w <> "" /\ forallb (fun c => negb (PyStr.isspace c)) (PyStr.chars w) = true) ->
  PyStr.words (PyStr.join " " ws) = ws.
Proof.
  unfold PyStr.words. induction ws as [|w ws IH]; intros Hall; [reflexivity|].
  destruct (Hall w (list_elem_of_here _ _)) as [Hne Hw].
  assert (Hrev : PyStr.str (rev (rev (PyStr.chars w) ++ [])) = w).
  { rewrite app_nil_r, rev_involutive. apply string_of_list_ascii_of_string. }
  assert (Hcur : exists c l, rev (PyStr.chars w) ++ [] = c :: l).
  { destruct (rev (PyStr.chars w) ++ []) as [|c l] eqn:E; [|eauto].
    exfalso. apply Hne. rewrite <- Hrev. reflexivity. }
  destruct Hcur as (c & l & Hcur).
  destruct ws as [|w' ws].
  - cbn [PyStr.join]. rewrite <- (sapp_nil_r w) at 1.
    rewrite (words_aux_word w "" [] Hw), Hcur. cbn [PyStr.words_aux].
    rewrite <- Hcur, Hrev. reflexivity.
  - change (PyStr.join " " (w :: w' :: ws))
      with (w +:+ " " +:+ PyStr.join " " (w' :: ws))%string.
    rewrite (words_aux_word w _ [] Hw), Hcur.
    change (" " +:+ PyStr.join " " (w' :: ws))%string
      with (String " " (PyStr.join " " (w' :: ws))).
    cbn [PyStr.words_aux]. replace (PyStr.isspace " ") with true by reflexivity.
    rewrite <- Hcur, Hrev, IH; [reflexivity|].
    intros x Hx. apply Hall. right. exact Hx.
Qed.

(** X10. The text of a record: when [extract_content] returns a record, its
    content is the text of the page with its words joined by single spaces
    (no other white space, none at either end); splitting the content gives
    these words back; and [word_count] is their number, which is at least
    one. *)
Theorem record_text_is_normalized `{World} (h u : string) (r : PageRecord) :
  extract_content h u = Some r ->
  exists t x d,
    soup_fields h = Some (t, x, d) /\
    url r = u /\ title r = t /\ description r = d /\
    content r = PyStr.join " " (PyStr.words x) /\
    PyStr.words (content r) = PyStr.words x /\
    word_count r = List.length (PyStr.words x) /\
    1 <= word_count r /\
    (forall w, w ∈ PyStr.words x ->
       w <> "" /\ forallb (fun c => negb (PyStr.isspace c)) (PyStr.chars w) = true).
Proof.
  unfold extract_content.
  destruct (soup_fields h) as [[[t x] d]|]; [|discriminate].
  rewrite strip_collapse_join.
  assert (Hgood : forall w, w ∈ PyStr.words x ->
            w <> "" /\ forallb (fun c => negb (PyStr.isspace c)) (PyStr.chars w) = true).
  { intros w Hw. split; [exact (words_aux_nonempty [] x w Hw)|].
    exact (words_aux_no_ws x [] eq_refl w Hw). }
  destruct (PyStr.nonempty (PyStr.join " " (PyStr.words x))) eqn:Hne; [|discriminate].
  rewrite (join_nonempty " " (PyStr.words x) (fun w Hw => proj1 (Hgood w Hw))) in Hne.
  intros E. injection E as <-. exists t, x, d. cbn [url title description content word_count].
  rewrite (words_join (PyStr.words x) Hgood).
  do 7 (split; [reflexivity|]). split; [|exact Hgood].
  destruct (PyStr.words x); [discriminate|]. cbn [List.length]. lia.
Qed.


(** ** The file of a page *)

Lemma prefix_slash (c : ascii) (s : string) :
  String.prefix "/" (String c s) = Ascii.eqb "/" c.
Proof.
  cbn [String.prefix]. destruct (ascii_dec "/" c) as [<- | Hne].
  - destruct s; reflexivity.
  - apply Ascii.eqb_neq in Hne. rewrite Hne. reflexivity.
Qed.

Lemma contains_slash_cons (c : ascii) (s : string) :
  PyStr.contains "/" (String c s) = Ascii.eqb "/" c || PyStr.contains "/" s.
Proof.
  cbn [PyStr.contains]. rewrite prefix_slash. reflexivity.
Qed.

Lemma contains_slash_app (a b : string) :
  PyStr.contains "/" (a +:+ b) = PyStr.contains "/" a || PyStr.contains "/" b.
Proof.
  induction a as [|c a IH].
  - rewrite sapp_nil_l. reflexivity.
  - rewrite sapp_cons, !contains_slash_cons, IH, orb_assoc. reflexivity.
Qed.

Lemma contains_slash_take (n : nat) (s : string) :
  PyStr.contains "/" s = false -> PyStr.contains "/" (PyStr.take n s) = false.
Proof.
  revert s. induction n as [|n IH]; intros s Hs; [destruct s; reflexivity|].
  destruct s as [|c s]; [reflexivity|].
  cbn [PyStr.take]. rewrite contains_slash_cons in *.
  apply orb_false_iff in Hs as [Hc Hs]. rewrite Hc, (IH s Hs). reflexivity.
Qed.

Lemma str_length_take (n : nat) (s : string) : String.length (PyStr.take n s) <= n.
Proof.
  revert s. induction n as [|n IH]; intros s; [destruct s; simpl; lia|].
  destruct s as [|c s]; [simpl; lia|]. cbn [PyStr.take String.length].
  specialize (IH s). lia.
Qed.

Lemma str_length_app (a b : string) :
  String.length (a +:+ b) = String.length a + String.length b.
Proof.
  induction a as [|c a IH]; [reflexivity|].
  rewrite sapp_cons. cbn [String.length]. rewrite IH. reflexivity.
Qed.

(** After [replace("/", "__")] no ["/"] is left. *)
Lemma replace_slash_free (fuel : nat) (s : string) :
  String.length s <= fuel ->
  PyStr.contains "/" (PyStr.replace_aux fuel "/" "__" s) = false.
Proof.
  revert s. induction fuel as [|fuel IH]; intros s Hlen.
  - destruct s; [reflexivity | simpl in Hlen; lia].
  - destruct s as [|c s]; [reflexivity|].
    cbn [String.length] in Hlen.
    cbn [PyStr.replace_aux]. rewrite prefix_slash.
    destruct (Ascii.eqb "/" c) eqn:Hc.
    + cbn [String.length PyStr.drop].
      rewrite contains_slash_app, IH by lia. reflexivity.
    + rewrite contains_slash_cons, Hc, IH by lia. reflexivity.
Qed.

(** X11. A page file never leaves the directory of the pages: whatever the
    URL of the record, the file that [save_page] opens is [SAVE_DIR] joined
    with a name that has no ["/"], ends in [".json"] and has at most 205
    characters. *)
Theorem page_file_in_save_dir `{World} (r : PageRecord) :
  exists stem,
    page_file r =
      (if negb (PyStr.nonempty SAVE_DIR) || PyStr.endswith "/" SAVE_DIR
       then SAVE_DIR +:+ stem +:+ ".json"
       else SAVE_DIR +:+ "/" +:+ stem +:+ ".json")%string /\
    PyStr.contains "/" (stem +:+ ".json") = false /\
    String.length (stem +:+ ".json") <= 205.
Proof.
  unfold page_file.
  set (key := PyStr.replace "/" "__" (PyStr.replace "://" "_" (url r))).
  exists (PyStr.take 200 key).
  assert (Hfree : PyStr.contains "/" (PyStr.take 200 key +:+ ".json") = false).
  { rewrite contains_slash_app, contains_slash_take; [reflexivity|].
    unfold key, PyStr.replace. apply replace_slash_free. apply Nat.le_refl. }
  split; [|split; [exact Hfree|]].
  - unfold path_join.
    assert (Hstart : PyStr.startswith "/" (PyStr.take 200 key +:+ ".json") = false).
    { unfold PyStr.startswith.
      destruct (PyStr.take 200 key +:+ ".json")%string as [|c s] eqn:E; [reflexivity|].
      rewrite contains_slash_cons in Hfree. apply orb_false_iff in Hfree as [Hc _].
      rewrite prefix_slash. exact Hc. }
    rewrite Hstart. reflexivity.
  - rewrite str_length_app. pose proof (str_length_take 200 key) as Hk.
    change (String.length ".json") with 5. lia.
Qed.


(** ** Chunks and batches *)

Lemma py_slice_window {A : Type} (l : list A) (i : nat) (size : Z) :
  (0 < size)%Z ->
  py_slice l i (Z.of_nat i + size) = take (Z.to_nat size) (drop i l).
Proof.
  intros Hs. unfold py_slice.
  destruct (Z.ltb_spec (Z.of_nat i + size) 0) as [Hneg | _]; [lia|].
  replace (Z.to_nat (Z.of_nat i + size)) with (i + Z.to_nat size) by lia.
  destruct (Nat.le_gt_cases (i + Z.to_nat size) (List.length l)) as [Hle | Hgt].
  - rewrite Nat.min_l by exact Hle. f_equal. lia.
  - rewrite Nat.min_r by lia.
    rewrite !take_ge; [reflexivity | rewrite length_drop; lia | rewrite length_drop; lia].
Qed.

Lemma range_up_spec (step fuel i n : nat) :
  1 <= step -> n <= fuel + i ->
  range_up fuel i n step =
    map (fun k => i + k * step) (seq 0 ((n - i + step - 1) / step)).
Proof.
  intros Hstep. revert i. induction fuel as [|fuel IH]; intros i Hfuel.
  - replace (n - i) with 0 by lia. rewrite Nat.div_small by lia. reflexivity.
  - cbn [range_up]. destruct (Nat.ltb_spec i n) as [Hlt | Hge].
    + rewrite (IH (i + step)) by lia.
      assert (Hm : (n - i + step - 1) / step = S ((n - (i + step) + step - 1) / step)).
      { destruct (Nat.le_gt_cases step (n - i)) as [Hbig | Hsmall].
        - replace (n - i + step - 1) with ((n - (i + step) + step - 1) + 1 * step) by lia.
          rewrite Nat.div_add by lia. lia.
        - replace (n - (i + step)) with 0 by lia.
          rewrite (Nat.div_small (0 + step - 1)) by lia.
          replace (n - i + step - 1) with ((n - i - 1) + 1 * step) by lia.
          rewrite Nat.div_add by lia. rewrite Nat.div_small by lia. reflexivity. }
      rewrite Hm. cbn [seq map]. f_equal; [lia|].
      rewrite <- fmap_S_seq, <- list_fmap_compose.
      apply list_fmap_ext. intros _ k _. simpl. lia.
    + replace (n - i) with 0 by lia. rewrite Nat.div_small by lia. reflexivity.
Qed.

(** The windows that start at the indices of the range cover the list. *)
Lemma range_up_cover {A : Type} (l : list A) (step fuel i : nat) :
  1 <= step -> List.length l <= fuel + i ->
  concat (map (fun j => take step (drop j l)) (range_up fuel i (List.length l) step)) =
    drop i l.
Proof.
  intros Hstep. revert i. induction fuel as [|fuel IH]; intros i Hfuel.
  - cbn [range_up map concat]. rewrite drop_ge by lia. reflexivity.
  - cbn [range_up]. destruct (Nat.ltb_spec i (List.length l)) as [Hlt | Hge].
    + cbn [map concat]. rewrite (IH (i + step)) by lia.
      rewrite <- (take_drop step (drop i l)) at 2. rewrite drop_drop. reflexivity.
    + cbn [map concat]. rewrite drop_ge by lia. reflexivity.
Qed.

(** The words of a chunk are the words it was joined from. *)
Lemma chunk_words (text : string) (size i : nat) :
  PyStr.words (PyStr.join " " (take size (drop i (PyStr.words text)))) =
    take size (drop i (PyStr.words text)).
Proof.
  apply words_join. intros w Hw.
  assert (Hin : w ∈ PyStr.words text).
  { apply (subseteq_take size), (subseteq_drop i) in Hw. exact Hw. }
  split; [exact (words_aux_nonempty [] text w Hin)|].
  exact (words_aux_no_ws text [] eq_refl w Hin).
Qed.

Lemma chunk_text_windows (text : string) (max_words overlap : Z) :
  (0 < max_words)%Z -> (overlap < max_words)%Z ->
  chunk_text text max_words overlap =
    Some (map (fun i => PyStr.join " " (take (Z.to_nat max_words) (drop i (PyStr.words text))))
            (range_up (List.length (PyStr.words text)) 0 (List.length (PyStr.words text))
               (Z.to_nat (max_words - overlap)))).
Proof.
  intros Hmw Hov. unfold chunk_text, py_range0.
  destruct (Z.eqb_spec (max_words - overlap) 0) as [E | _]; [lia|].
  destruct (Z.ltb_spec (max_words - overlap) 0) as [E | _]; [lia|].
  f_equal. apply list_fmap_ext. intros _ i _.
  rewrite py_slice_window by exact Hmw. reflexivity.
Qed.

(** X12. The chunks of [chunk_text], for a window of [max_words > 0] words
    that advances by [max_words - overlap > 0] words: there is one chunk per
    start index below the number of words, so their number is the number of
    words divided by the step, rounded up (none for a text without words);
    chunk [k] is the words from index [k * step] on, at most [max_words] of
    them, joined by single spaces; splitting it gives these words back; and
    no chunk is empty. *)
Theorem chunk_text_chunks (text : string) (max_words overlap : Z) :
  (0 < max_words)%Z -> (overlap < max_words)%Z ->
  exists chunks,
    chunk_text text max_words overlap = Some chunks /\
    List.length chunks =
      (List.length (PyStr.words text) + Z.to_nat (max_words - overlap) - 1) /
        Z.to_nat (max_words - overlap) /\
    forall k c, chunks !! k = Some c ->
      k * Z.to_nat (max_words - overlap) < List.length (PyStr.words text) /\
      c = PyStr.join " "
            (take (Z.to_nat max_words)
               (drop (k * Z.to_nat (max_words - overlap)) (PyStr.words text))) /\
      PyStr.words c =
        take (Z.to_nat max_words)
          (drop (k * Z.to_nat (max_words - overlap)) (PyStr.words text)) /\
      1 <= List.length (PyStr.words c) <= Z.to_nat max_words.
Proof.
  intros Hmw Hov. eexists. split; [exact (chunk_text_windows text _ _ Hmw Hov)|].
  set (ws := PyStr.words text). set (step := Z.to_nat (max_words - overlap)).
  set (size := Z.to_nat max_words).
  assert (Hstep : 1 <= step) by (unfold step; lia).
  assert (Hsize : 1 <= size) by (unfold size; lia).
  rewrite (range_up_spec step (List.length ws) 0 (List.length ws) Hstep) by lia.
  rewrite Nat.sub_0_r.
  set (m := (List.length ws + step - 1) / step).
  split; [rewrite !length_map, length_seq; reflexivity|].
  intros k c Hk.
  rewrite <- list_fmap_compose in Hk.
  apply list_lookup_fmap_Some in Hk as (j & -> & Hj).
  apply lookup_seq in Hj as [-> Hlt]. cbn [Nat.add] in *.
  assert (Hin : k * step < List.length ws).
  { assert (Hm : m * step < List.length ws + step).
    { unfold m. pose proof (Nat.div_mod_eq (List.length ws + step - 1) step) as Hd.
      pose proof (Nat.mod_upper_bound (List.length ws + step - 1) step) as Hu. nia. }
    nia. }
  split; [exact Hin|]. split; [reflexivity|].
  unfold compose.
  pose proof (chunk_words text size (k * step)) as Hcw. fold ws in Hcw. rewrite Hcw.
  split; [reflexivity|].
  rewrite length_take, length_drop. lia.
Qed.

(** X13. Consecutive chunks overlap as the parameters say, for
    [0 <= overlap < max_words]: the first [max_words - overlap] words of
    the chunks, one chunk after the other, are the words of the text, so no
    word is lost; what a chunk has after these words is how the next chunk
    begins; and a chunk of at most [overlap] words that is not the first
    only repeats the end of the chunk before it. *)
Theorem chunk_text_overlap (text : string) (max_words overlap : Z) (chunks : list string) :
  (0 <= overlap)%Z -> (overlap < max_words)%Z ->
  chunk_text text max_words overlap = Some chunks ->
  concat (map (fun c => take (Z.to_nat (max_words - overlap)) (PyStr.words c)) chunks) =
    PyStr.words text /\
  forall k c c', chunks !! k = Some c -> chunks !! (S k) = Some c' ->
    drop (Z.to_nat (max_words - overlap)) (PyStr.words c) =
      take (Z.to_nat overlap) (PyStr.words c') /\
    (List.length (PyStr.words c') <= Z.to_nat overlap ->
       PyStr.words c' = drop (Z.to_nat (max_words - overlap)) (PyStr.words c)).
Proof.
  intros Hov0 Hov Hchunks.
  assert (Hmw : (0 < max_words)%Z) by lia.
  set (ws := PyStr.words text). set (step := Z.to_nat (max_words - overlap)).
  set (size := Z.to_nat max_words). set (ov := Z.to_nat overlap).
  assert (Hsum : size = step + ov) by (unfold size, step, ov; lia).
  assert (Hstep : 1 <= step) by (unfold step; lia).
  split.
  - rewrite (chunk_text_windows text _ _ Hmw Hov) in Hchunks. injection Hchunks as <-.
    fold ws step size. rewrite <- list_fmap_compose.
    transitivity (concat (map (fun j => take step (drop j ws))
                            (range_up (List.length ws) 0 (List.length ws) step))).
    + f_equal. apply list_fmap_ext. intros _ i _. unfold compose.
      pose proof (chunk_words text size i) as Hcw. fold ws in Hcw. rewrite Hcw.
      rewrite take_take. f_equal. lia.
    + rewrite (range_up_cover ws step (List.length ws) 0 Hstep) by lia. reflexivity.
  - destruct (chunk_text_chunks text max_words overlap Hmw Hov) as (chunks' & E & _ & Hk).
    rewrite E in Hchunks. injection Hchunks as <-.
    intros k c c' Hc Hc'.
    destruct (Hk k c Hc) as (_ & _ & -> & _).
    destruct (Hk (S k) c' Hc') as (_ & _ & Hw' & _).
    fold ws step size ov in Hw' |- *.
    assert (Hnext : drop step (take size (drop (k * step) ws)) = take ov (PyStr.words c')).
    { rewrite Hw', take_take, Nat.min_l by lia.
      rewrite Hsum, skipn_firstn_comm, drop_drop.
      f_equal; [lia|]. f_equal. lia. }
    split; [exact Hnext|].
    intros Hshort. rewrite Hnext, take_ge by exact Hshort. reflexivity.
Qed.

(** X14. The degenerate parameters of [chunk_text]: with an overlap equal to
    the window the call raises (a range with a step of zero), and with an
    overlap larger than the window it returns no chunk at all, whatever the
    text. *)
Theorem chunk_text_degenerate (text : string) (max_words overlap : Z) :
  (max_words <= overlap)%Z ->
  chunk_text text max_words overlap =
    if (max_words =? overlap)%Z then None else Some [].
Proof.
  intros Hle. unfold chunk_text, py_range0.
  destruct (Z.eqb_spec max_words overlap) as [-> | Hne].
  - rewrite Z.sub_diag. reflexivity.
  - destruct (Z.eqb_spec (max_words - overlap) 0) as [E | _]; [lia|].
    destruct (Z.ltb_spec (max_words - overlap) 0) as [_ | E]; [reflexivity | lia].
Qed.

(** X15. The upsert batches partition the data: one after the other they are
    the list that was prepared, every batch has between 1 and 50 items, and
    there are as many batches as the number of items divided by 50, rounded
    up. *)
Theorem upsert_batches_partition {A : Type} (upsert_data : list A) :
  concat (upsert_batches upsert_data) = upsert_data /\
  (forall b, b ∈ upsert_batches upsert_data -> 1 <= List.length b <= 50) /\
  List.length (upsert_batches upsert_data) = (List.length upsert_data + 49) / 50.
Proof.
  assert (E : upsert_batches upsert_data =
              map (fun i => take 50 (drop i upsert_data))
                (range_up (List.length upsert_data) 0 (List.length upsert_data) 50)).
  { unfold upsert_batches, py_range0. cbn [Z.eqb Z.ltb Z.compare].
    apply list_fmap_ext. intros _ i _. rewrite py_slice_window by lia. reflexivity. }
  rewrite E. split; [|split].
  - rewrite (range_up_cover upsert_data 50 (List.length upsert_data) 0) by lia.
    reflexivity.
  - intros b Hb. rewrite (range_up_spec 50 _ 0) in Hb by lia.
    rewrite <- list_fmap_compose in Hb.
    apply list_elem_of_fmap in Hb as (k & -> & Hk).
    apply elem_of_seq in Hk as [_ Hk]. unfold compose. cbn [Nat.add] in *.
    rewrite length_take, length_drop.
    pose proof (Nat.div_mod_eq (List.length upsert_data - 0 + 50 - 1) 50) as Hd.
    pose proof (Nat.mod_upper_bound (List.length upsert_data - 0 + 50 - 1) 50) as Hu.
    lia.
  - rewrite (range_up_spec 50 _ 0) by lia. rewrite !length_map, length_seq.
    f_equal. lia.
Qed.


(** ** Where the URLs of a crawl come from *)

Lemma known_mono `{World} (s s' : GIKIScraper) (l : string) :
  base_url s' = base_url s ->
  records s `prefix_of` records s' -> trace s `prefix_of` trace s' ->
  known s l -> known s' l.
Proof.
  intros Hb [kr Hr] [kt Ht] [Hseed | (r & h & links & Hin & Hex & Hl & Hmem)].
  - left. unfold seed_url in *. rewrite Hb. exact Hseed.
  - right. exists r, h, links.
    split; [rewrite Hr; apply elem_of_app; left; exact Hin|].
    split; [rewrite Ht; apply elem_of_app; left; exact Hex|].
    split; [|exact Hmem].
    rewrite <- Hl. apply extract_links_ext. exact Hb.
Qed.

Lemma known_invariant `{World} (base : string) (budget : Z) (s : GIKIScraper) :
  reachable base budget s ->
  (forall l, l ∈ to_visit s -> known s l) /\
  (forall v, v ∈ visited_urls s -> exists l, v = normalize_url l /\ known s l).
Proof.
  apply (reachable_inv base budget (fun s =>
    (forall l, l ∈ to_visit s -> known s l) /\
    (forall v, v ∈ visited_urls s -> exists l, v = normalize_url l /\ known s l))).
  - unfold init. intros s0. destruct (fs_ok (MakeDirs SAVE_DIR)); [|discriminate].
    intros E. injection E as <-. split.
    + intros l Hl. left. apply list_elem_of_singleton in Hl. exact Hl.
    + intros v Hv. cbn [visited_urls] in Hv. set_solver.
  - intros s0 r (Hf & Hv) _ Hout.
    destruct (body_outcome_grows s0 r Hout) as (G1 & G2 & _ & _).
    destruct (body_outcome_config s0 r Hout) as (Hb & _ & _).
    assert (Hmono : forall l, known s0 l -> known (fst r) l).
    { intros l. apply known_mono; assumption. }
    assert (Hvis : forall v, v ∈ visited_urls s0 ->
              exists l, v = normalize_url l /\ known (fst r) l).
    { intros v Hin. destruct (Hv v Hin) as (l & E & Hk). exists l. auto. }
    assert (Hpop : forall popped rest u, to_visit s0 = popped :: rest ->
              u = normalize_url popped ->
              (forall l, l ∈ rest -> known (fst r) l) /\
              (forall v, v ∈ {[u]} ∪ visited_urls s0 ->
                 exists l, v = normalize_url l /\ known (fst r) l)).
    { intros popped rest u Hto Hu. split.
      - intros l Hl. apply Hmono, Hf. rewrite Hto. right. exact Hl.
      - intros v Hin. apply elem_of_union in Hin as [Hin | Hin]; [|auto].
        apply elem_of_singleton in Hin. subst v. exists popped. split; [exact Hu|].
        apply Hmono, Hf. rewrite Hto. left. }
    clear G1 G2 Hb Hmono.
    inversion Hout as
      [ popped rest Hto Hwhy
      | popped rest u Hto Hu Hnv Hd Hc
      | popped rest u Hto Hu Hnv Hd Hc Hno
      | popped rest u h Hto Hu Hnv Hd Hc Hh Hne Hex
      | popped rest u h pr Hto Hu Hnv Hd Hc Hh Hne Hex Hw Hfresh Hl
      | popped rest u h pr links Hto Hu Hnv Hd Hc Hh Hne Hex Hw Hfresh Hl ];
      subst r; try (destruct (Hpop popped rest u Hto Hu) as [P1 P2]).
    + destruct (Hpop popped rest (normalize_url popped) Hto eq_refl) as [P1 _].
      split; [exact P1 | exact Hvis].
    + trace_simpl. split; [exact P1 | exact P2].
    + trace_simpl. split; [exact P1 | exact P2].
    + trace_simpl. split; [exact P1 | exact P2].
    + trace_simpl. split; [exact P1 | exact P2].
    + split; [|trace_simpl; exact P2].
      intros l Hq. cbn [to_visit emit with_to_visit] in Hq.
      apply enqueue_elem in Hq as [Hq | (Hl' & _ & _)]; [exact (P1 l Hq)|].
      right. exists pr, h, links.
      pose proof (extract_content_url _ _ _ Hex) as Hurl. rewrite Hurl.
      split; [trace_simpl; apply elem_of_app; right; left|].
      split; [trace_simpl; rewrite !elem_of_app, !elem_of_cons; tauto|].
      split; [|exact Hl'].
      rewrite <- Hl. apply extract_links_ext. trace_simpl. reflexivity.
Qed.

(** X16. The crawl visits only what it was led to: in every state of a run,
    every URL of the frontier is the seed or a link that [extract_links]
    found on a page that has a record, and every visited URL is the normal
    form of such a URL.  So the links of a page that is rejected (too
    short, or a duplicate) are never followed. *)
Theorem visits_come_from_accepted_pages `{World} (base : string) (budget : Z)
  (s : GIKIScraper) :
  reachable base budget s ->
  (forall l, l ∈ to_visit s ->
     l = seed_url s \/
     exists r h links, r ∈ records s /\ EvExtract (url r) h ∈ trace s /\
       extract_links s h (url r) = Some links /\ l ∈ links) /\
  (forall v, v ∈ visited_urls s ->
     exists l, v = normalize_url l /\
       (l = seed_url s \/
        exists r h links, r ∈ records s /\ EvExtract (url r) h ∈ trace s /\
          extract_links s h (url r) = Some links /\ l ∈ links)).
Proof.
  intros Hreach. exact (known_invariant base budget s Hreach).
Qed.

(** X17. A rejected seed ends the crawl: as long as no page has a record,
    the only URL that can be visited is the normal form of the seed, and
    nothing but the seed can be in the frontier. *)
Theorem rejected_seed_is_a_dead_end `{World} (base : string) (budget : Z) (s : GIKIScraper) :
  reachable base budget s ->
  records s = [] ->
  visited_urls s ⊆ {[normalize_url (seed_url s)]} /\
  size (visited_urls s) <= 1 /\
  (forall l, l ∈ to_visit s -> l = seed_url s).
Proof.
  intros Hreach Hrec.
  destruct (known_invariant base budget s Hreach) as [Hf Hv].
  assert (Hk : forall l, known s l -> l = seed_url s).
  { intros l [E | (r & _ & _ & Hin & _)]; [exact E|].
    rewrite Hrec in Hin. inversion Hin. }
  assert (Hsub : visited_urls s ⊆ {[normalize_url (seed_url s)]}).
  { intros v Hin. destruct (Hv v Hin) as (l & -> & Hl).
    rewrite (Hk l Hl). apply elem_of_singleton. reflexivity. }
  split; [exact Hsub|]. split.
  - apply subseteq_size in Hsub. rewrite size_singleton in Hsub. exact Hsub.
  - intros l Hl. apply Hk, Hf. exact Hl.
Qed.


(** ** The further properties on the example sites *)



Lemma offline_end_reachable : reachable (H := offline) "https://giki.edu.pk" 500 offline_end.
Proof.
  exists giki_start, 5. split; [vm_compute; reflexivity | reflexivity].
Qed.

Lemma crawl_stays_in_domain_witness :
  reachable (H := campus) "https://x.edu/" 10 campus_end /\
  ((forall u, u ∈ visited_urls campus_end ->
      same_domain (H := campus) u (base_url campus_end) = true) /\
   (forall u, u ∈ http_gets (trace campus_end) ->
      same_domain (H := campus) u (base_url campus_end) = true) /\
   (forall u, u ∈ driver_gets (trace campus_end) ->
      same_domain (H := campus) u (base_url campus_end) = true) /\
   (forall r, r ∈ records campus_end ->
      same_domain (H := campus) (url r) (base_url campus_end) = true)).
Proof.
  split; [exact campus_end_reachable|].
  exact (crawl_stays_in_domain (H := campus) "https://x.edu/" 10 campus_end
           campus_end_reachable).
Defined.

Lemma each_url_processed_once_witness :
  reachable (H := campus) "https://x.edu/" 10 campus_end /\
  (NoDup (http_gets (trace campus_end)) /\
   NoDup (driver_gets (trace campus_end)) /\
   NoDup (extracted_urls (trace campus_end)) /\
   NoDup (map url (records campus_end))).
Proof.
  split; [exact campus_end_reachable|].
  exact (each_url_processed_once (H := campus) "https://x.edu/" 10 campus_end
           campus_end_reachable).
Defined.

Lemma sleep_between_urls_witness :
  reachable (H := campus) "https://x.edu/" 10 campus_end /\
  trace campus_end =
    take 2 (trace campus_end) ++ EvDriverGet "https://x.edu/events" ::
    take 4 (drop 3 (trace campus_end)) ++ EvHttpGet "https://x.edu/a" ::
    drop 8 (trace campus_end) /\
  fetched_url (EvDriverGet "https://x.edu/events") = Some "https://x.edu/events" /\
  fetched_url (EvHttpGet "https://x.edu/a") = Some "https://x.edu/a" /\
  "https://x.edu/events" <> "https://x.edu/a" /\
  EvSleep ∈ take 4 (drop 3 (trace campus_end)).
Proof.
  assert (Htr : trace campus_end =
            take 2 (trace campus_end) ++ EvDriverGet "https://x.edu/events" ::
            take 4 (drop 3 (trace campus_end)) ++ EvHttpGet "https://x.edu/a" ::
            drop 8 (trace campus_end)).
  { vm_compute. reflexivity. }
  assert (Hne : "https://x.edu/events" <> "https://x.edu/a") by discriminate.
  split; [exact campus_end_reachable|]. split; [exact Htr|].
  split; [reflexivity|]. split; [reflexivity|]. split; [exact Hne|].
  exact (sleep_between_urls (H := campus) "https://x.edu/" 10 campus_end _ _ _ _ _ _ _
           campus_end_reachable Htr eq_refl eq_refl Hne).
Defined.


Lemma statistics_bounds_witness :
  reachable (H := campus) "https://x.edu/" 10 campus_end /\
  (30 * List.length (records campus_end) <= total_words (records campus_end) /\
   List.length (records campus_end) <= size (visited_urls campus_end) /\
   (Z.of_nat (size (visited_urls campus_end)) <= Z.max 0 10)%Z).
Proof.
  split; [exact campus_end_reachable|].
  exact (statistics_bounds (H := campus) "https://x.edu/" 10 campus_end campus_end_reachable).
Defined.

Lemma main_flushes_and_closes_witness :
  main (H := campus) 20 "https://x.edu/" 10 = Some (Some campus_closed, None) /\
  exists s0 sc ec flush,
    init (H := campus) "https://x.edu/" 10 = Some s0 /\
    crawl (H := campus) 20 s0 = Some (sc, ec) /\
    records campus_closed = records sc /\ visited_urls campus_closed = visited_urls sc /\
    trace campus_closed = trace sc ++ flush ++ [EvClose] /\
    close_count (trace sc ++ flush) = 0 /\
    (forall rs, rs ∈ aggregates_written (trace campus_closed) ->
       rs = records sc /\ rs <> []) /\
    (forall n w v, (n, w, v) ∈ stats_written (trace campus_closed) ->
       n = List.length (records sc) /\ w = total_words (records sc) /\
       v = size (visited_urls sc)) /\
    (ec = Some Exception -> @None Exn = Some Exception) /\
    (@None Exn = None ->
       flush = match records sc with
               | [] => [EvWarnNoRecords]
               | _ => [EvWriteAggregate (records sc);
                       EvWriteStats (List.length (records sc)) (total_words (records sc))
                         (size (visited_urls sc))]
               end).
Proof.
  assert (Hmain : main (H := campus) 20 "https://x.edu/" 10 =
                    Some (Some campus_closed, None)).
  { vm_compute. reflexivity. }
  split; [exact Hmain|].
  exact (main_flushes_and_closes (H := campus) 20 "https://x.edu/" 10 campus_closed None
           Hmain).
Defined.

Lemma stats_failure_flushes_twice_witness :
  fs_ok (World := campus_no_stats)
    (MakeDirs (dirname (AGG_PATH (World := campus_no_stats)))) = true /\
  fs_ok (World := campus_no_stats) (OpenWrite (AGG_PATH (World := campus_no_stats))) = true /\
  fs_ok (World := campus_no_stats) (OpenWrite (STATS_PATH (World := campus_no_stats))) =
    false /\
  init (H := campus_no_stats) "https://x.edu/" 10 = Some campus_start /\
  crawl (H := campus_no_stats) 20 campus_start = Some (campus_end, None) /\
  records campus_end <> [] /\
  exists s,
    main (H := campus_no_stats) 20 "https://x.edu/" 10 = Some (Some s, Some Exception) /\
    trace s = trace campus_end ++
      [EvWriteAggregate (records campus_end); EvWriteAggregate (records campus_end);
       EvClose] /\
    stats_written (trace s) = [].
Proof.
  assert (Hi : init (H := campus_no_stats) "https://x.edu/" 10 = Some campus_start).
  { vm_compute. reflexivity. }
  assert (Hcr : crawl (H := campus_no_stats) 20 campus_start = Some (campus_end, None)).
  { vm_compute. reflexivity. }
  assert (Hne : records campus_end <> []).
  { vm_compute. discriminate. }
  split; [reflexivity|]. split; [reflexivity|]. split; [reflexivity|].
  split; [exact Hi|]. split; [exact Hcr|]. split; [exact Hne|].
  exact (stats_failure_flushes_twice (H := campus_no_stats) 20 "https://x.edu/" 10
           campus_start campus_end eq_refl eq_refl eq_refl Hi Hcr Hne).
Defined.

Lemma record_text_is_normalized_witness :
  extract_content (H := campus) "A" "https://x.edu/a" = Some campus_record_a /\
  exists t x d,
    soup_fields (World := campus) "A" = Some (t, x, d) /\
    url campus_record_a = "https://x.edu/a" /\ title campus_record_a = t /\
    description campus_record_a = d /\
    content campus_record_a = PyStr.join " " (PyStr.words x) /\
    PyStr.words (content campus_record_a) = PyStr.words x /\
    word_count campus_record_a = List.length (PyStr.words x) /\
    1 <= word_count campus_record_a /\
    (forall w, w ∈ PyStr.words x ->
       w <> "" /\ forallb (fun c => negb (PyStr.isspace c)) (PyStr.chars w) = true).
Proof.
  assert (Hex : extract_content (H := campus) "A" "https://x.edu/a" = Some campus_record_a).
  { vm_compute. reflexivity. }
  split; [exact Hex|].
  exact (record_text_is_normalized (H := campus) "A" "https://x.edu/a" campus_record_a Hex).
Defined.

Lemma chunk_text_chunks_witness :
  (0 < 3)%Z /\ (1 < 3)%Z /\
  exists chunks,
    chunk_text "a b c d e" 3 1 = Some chunks /\
    List.length chunks =
      (List.length (PyStr.words "a b c d e") + Z.to_nat (3 - 1) - 1) / Z.to_nat (3 - 1) /\
    forall k c, chunks !! k = Some c ->
      k * Z.to_nat (3 - 1) < List.length (PyStr.words "a b c d e") /\
      c = PyStr.join " "
            (take (Z.to_nat 3) (drop (k * Z.to_nat (3 - 1)) (PyStr.words "a b c d e"))) /\
      PyStr.words c =
        take (Z.to_nat 3) (drop (k * Z.to_nat (3 - 1)) (PyStr.words "a b c d e")) /\
      1 <= List.length (PyStr.words c) <= Z.to_nat 3.
Proof.
  split; [lia|]. split; [lia|].
  apply (chunk_text_chunks "a b c d e" 3 1); lia.
Defined.

Lemma chunk_text_overlap_witness :
  (0 <= 1)%Z /\ (1 < 3)%Z /\
  chunk_text "a b c d e" 3 1 = Some ["a b c"; "c d e"; "e"] /\
  (concat (map (fun c => take (Z.to_nat (3 - 1)) (PyStr.words c)) ["a b c"; "c d e"; "e"]) =
     PyStr.words "a b c d e" /\
   forall k c c', ["a b c"; "c d e"; "e"] !! k = Some c ->
     ["a b c"; "c d e"; "e"] !! (S k) = Some c' ->
     drop (Z.to_nat (3 - 1)) (PyStr.words c) = take (Z.to_nat 1) (PyStr.words c') /\
     (List.length (PyStr.words c') <= Z.to_nat 1 ->
        PyStr.words c' = drop (Z.to_nat (3 - 1)) (PyStr.words c))).
Proof.
  assert (Hc : chunk_text "a b c d e" 3 1 = Some ["a b c"; "c d e"; "e"]).
  { vm_compute. reflexivity. }
  split; [lia|]. split; [lia|]. split; [exact Hc|].
  apply (chunk_text_overlap "a b c d e" 3 1 ["a b c"; "c d e"; "e"]); [lia | lia | exact Hc].
Defined.

Lemma chunk_text_degenerate_witness :
  (50 <= 200)%Z /\
  chunk_text "a b c d e" 50 200 = if (50 =? 200)%Z then None else Some [].
Proof.
  split; [lia|]. apply (chunk_text_degenerate "a b c d e" 50 200). lia.
Defined.

Lemma visits_come_from_accepted_pages_witness :
  reachable (H := campus) "https://x.edu/" 10 campus_end /\
  ((forall l, l ∈ to_visit campus_end ->
      l = seed_url (H := campus) campus_end \/
      exists r h links, r ∈ records campus_end /\ EvExtract (url r) h ∈ trace campus_end /\
        extract_links (H := campus) campus_end h (url r) = Some links /\ l ∈ links) /\
   (forall v, v ∈ visited_urls campus_end ->
      exists l, v = normalize_url (H := campus) l /\
        (l = seed_url (H := campus) campus_end \/
         exists r h links, r ∈ records campus_end /\
           EvExtract (url r) h ∈ trace campus_end /\
           extract_links (H := campus) campus_end h (url r) = Some links /\ l ∈ links))).
Proof.
  split; [exact campus_end_reachable|].
  exact (visits_come_from_accepted_pages (H := campus) "https://x.edu/" 10 campus_end
           campus_end_reachable).
Defined.

Lemma rejected_seed_is_a_dead_end_witness :
  reachable (H := offline) "https://giki.edu.pk" 500 offline_end /\
  records offline_end = [] /\
  (visited_urls offline_end ⊆
     {[normalize_url (H := offline) (seed_url (H := offline) offline_end)]} /\
   size (visited_urls offline_end) <= 1 /\
   (forall l, l ∈ to_visit offline_end -> l = seed_url (H := offline) offline_end)).
Proof.
  assert (Hrec : records offline_end = []) by (vm_compute; reflexivity).
  split; [exact offline_end_reachable|]. split; [exact Hrec|].
  exact (rejected_seed_is_a_dead_end (H := offline) "https://giki.edu.pk" 500 offline_end
           offline_end_reachable Hrec).
Defined.


(** ** Cleaning *)

Lemma starts_url_ws (c : ascii) (s : string) :
  PyStr.isspace c = true -> starts_url (String c s) = false.
Proof.
  intros Hc. destruct s as [|b [|c' [|d [|e s]]]]; try reflexivity.
  cbn [starts_url]. destruct (Ascii.eqb_spec c "h") as [-> | _]; [discriminate|reflexivity].
Qed.

(** Inside a match the output resumes at a white space. *)
Lemma sub_urls_skip_head (s : string) :
  sub_urls_aux true s = "" \/
  exists c o, sub_urls_aux true s = String c o /\ PyStr.isspace c = true.
Proof.
  induction s as [|c s IH]; [left; reflexivity|].
  cbn [sub_urls_aux]. destruct (PyStr.isspace c) eqn:Hc; [|exact IH].
  right. eauto.
Qed.

(** A character that is not white space comes out where no match starts. *)
Lemma sub_urls_head (s o : string) (x : ascii) :
  sub_urls_aux false s = String x o -> PyStr.isspace x = false ->
  exists s', s = String x s' /\ starts_url s = false /\ o = sub_urls_aux false s'.
Proof.
  destruct s as [|c s]; [discriminate|].
  cbn [sub_urls_aux]. destruct (PyStr.isspace c) eqn:Hc.
  - intros E Hx. injection E as -> _. congruence.
  - destruct (starts_url (String c s)) eqn:Hs.
    + intros E Hx. destruct (sub_urls_skip_head s) as [E' | (c' & o' & E' & Hc')];
        rewrite E' in E; [discriminate|]. injection E as -> _. congruence.
    + intros E _. injection E as -> <-. eauto.
Qed.

Lemma sub_urls_no_url_head (s : string) : starts_url (sub_urls_aux false s) = false.
Proof.
  destruct (starts_url (sub_urls_aux false s)) eqn:Hst; [|reflexivity]. exfalso.
  destruct (sub_urls_aux false s) as [|a [|b [|c [|d [|e o]]]]] eqn:E; try discriminate.
  cbn [starts_url] in Hst.
  apply andb_true_iff in Hst as [Hst He]. apply andb_true_iff in Hst as [Hst Hd].
  apply andb_true_iff in Hst as [Hst Hc]. apply andb_true_iff in Hst as [Ha Hb].
  apply Ascii.eqb_eq in Ha, Hb, Hc, Hd. subst a b c d. apply negb_true_iff in He.
  apply sub_urls_head in E as (s1 & -> & Hno & E); [|reflexivity].
  symmetry in E. apply sub_urls_head in E as (s2 & -> & _ & E); [|reflexivity].
  symmetry in E. apply sub_urls_head in E as (s3 & -> & _ & E); [|reflexivity].
  symmetry in E. apply sub_urls_head in E as (s4 & -> & _ & E); [|reflexivity].
  symmetry in E. apply sub_urls_head in E as (s5 & -> & _ & E); [|exact He].
  cbn [starts_url] in Hno. rewrite He in Hno. discriminate.
Qed.

Lemma sub_urls_no_url (skipping : bool) (s : string) :
  has_url (sub_urls_aux skipping s) = false.
Proof.
  revert skipping. induction s as [|c s IH]; intros skipping; [reflexivity|].
  pose proof (sub_urls_no_url_head (String c s)) as Hhead.
  cbn [sub_urls_aux] in *. destruct (PyStr.isspace c) eqn:Hc.
  - cbn [has_url]. rewrite (starts_url_ws c _ Hc), IH. reflexivity.
  - destruct (starts_url (String c s)) eqn:Hs.
    + destruct skipping; apply IH.
    + destruct skipping; [apply IH|].
      cbn [has_url]. rewrite Hhead, IH. reflexivity.
Qed.

Lemma has_url_tail (c : ascii) (s : string) :
  has_url (String c s) = false -> starts_url (String c s) = false /\ has_url s = false.
Proof.
  cbn [has_url]. intros E. apply orb_false_iff in E. exact E.
Qed.

Lemma has_url_lstrip (p : ascii -> bool) (s : string) :
  has_url s = false -> has_url (PyStr.lstrip_if p s) = false.
Proof.
  induction s as [|c s IH]; [auto|]. intros Hs.
  cbn [PyStr.lstrip_if]. destruct (p c); [|exact Hs].
  apply IH. exact (proj2 (has_url_tail c s Hs)).
Qed.

Lemma rstrip_if_head (p : ascii -> bool) (s r : string) (a : ascii) :
  PyStr.rstrip_if p s = String a r -> exists s', s = String a s' /\ r = PyStr.rstrip_if p s'.
Proof.
  destruct s as [|c s]; [discriminate|].
  rewrite rstrip_if_cons.
  destruct (PyStr.rstrip_if p s) as [|b t] eqn:E; cbn [PyStr.nonempty].
  - destruct (p c); [discriminate|]. intros [= <- <-]. exists s. auto.
  - intros [= <- <-]. exists s. auto.
Qed.

Lemma starts_url_rstrip (p : ascii -> bool) (s : string) :
  starts_url (PyStr.rstrip_if p s) = true -> starts_url s = true.
Proof.
  destruct (PyStr.rstrip_if p s) as [|a [|b [|c [|d [|e o]]]]] eqn:E; try discriminate.
  apply rstrip_if_head in E as (s1 & -> & E).
  symmetry in E. apply rstrip_if_head in E as (s2 & -> & E).
  symmetry in E. apply rstrip_if_head in E as (s3 & -> & E).
  symmetry in E. apply rstrip_if_head in E as (s4 & -> & E).
  symmetry in E. apply rstrip_if_head in E as (s5 & -> & E).
  cbn [starts_url]. auto.
Qed.

Lemma has_url_rstrip (p : ascii -> bool) (s : string) :
  has_url s = false -> has_url (PyStr.rstrip_if p s) = false.
Proof.
  induction s as [|c s IH]; [auto|]. intros Hs.
  destruct (has_url_tail c s Hs) as [Hhead Htail].
  destruct (has_url (PyStr.rstrip_if p (String c s))) eqn:Hr; [|reflexivity].
  exfalso.
  destruct (PyStr.rstrip_if p (String c s)) as [|a r] eqn:E; [discriminate|].
  cbn [has_url] in Hr. apply orb_true_iff in Hr as [Hr | Hr].
  - rewrite <- E in Hr. apply starts_url_rstrip in Hr. congruence.
  - apply rstrip_if_head in E as (s' & [= <- <-] & ->).
    rewrite (IH Htail) in Hr. discriminate.
Qed.

Lemma spaces_only_cons (c : ascii) (s : string) :
  spaces_only (String c s) =
    (negb (PyStr.isspace c) || Ascii.eqb c " ") && spaces_only s.
Proof. reflexivity. Qed.

Lemma spaces_only_collapse (in_ws : bool) (s : string) :
  spaces_only (PyStr.collapse_ws_aux in_ws s) = true.
Proof.
  revert in_ws. induction s as [|c s IH]; intros in_ws; [reflexivity|].
  cbn [PyStr.collapse_ws_aux]. destruct (PyStr.isspace c) eqn:Hc.
  - destruct in_ws; [apply IH|]. rewrite spaces_only_cons, IH. reflexivity.
  - rewrite spaces_only_cons, Hc, IH. reflexivity.
Qed.

Lemma spaces_only_sub_urls (skipping : bool) (s : string) :
  spaces_only s = true -> spaces_only (sub_urls_aux skipping s) = true.
Proof.
  revert skipping. induction s as [|c s IH]; intros skipping Hs; [reflexivity|].
  rewrite spaces_only_cons in Hs. apply andb_true_iff in Hs as [Hc Hs].
  assert (Hemit : spaces_only (String c (sub_urls_aux false s)) = true).
  { rewrite spaces_only_cons, Hc, IH by exact Hs. reflexivity. }
  cbn [sub_urls_aux].
  destruct (PyStr.isspace c); [exact Hemit|].
  destruct skipping; [apply IH; exact Hs|].
  destruct (starts_url (String c s)); [apply IH; exact Hs | exact Hemit].
Qed.

Lemma spaces_only_lstrip (p : ascii -> bool) (s : string) :
  spaces_only s = true -> spaces_only (PyStr.lstrip_if p s) = true.
Proof.
  induction s as [|c s IH]; [auto|]. intros Hs.
  cbn [PyStr.lstrip_if]. destruct (p c); [|exact Hs].
  rewrite spaces_only_cons in Hs. apply andb_true_iff in Hs as [_ Hs]. auto.
Qed.

Lemma spaces_only_rstrip (p : ascii -> bool) (s : string) :
  spaces_only s = true -> spaces_only (PyStr.rstrip_if p s) = true.
Proof.
  induction s as [|c s IH]; [auto|]. intros Hs.
  rewrite spaces_only_cons in Hs. apply andb_true_iff in Hs as [Hc Hs].
  rewrite rstrip_if_cons. destruct (PyStr.nonempty (PyStr.rstrip_if p s)).
  - rewrite spaces_only_cons, Hc, IH; auto.
  - destruct (p c); [reflexivity|]. rewrite spaces_only_cons, Hc. reflexivity.
Qed.

(** [strip()] leaves no white space at either end. *)
Lemma lstrip_if_head (p : ascii -> bool) (s r : string) (a : ascii) :
  PyStr.lstrip_if p s = String a r -> p a = false.
Proof.
  induction s as [|c s IH]; [discriminate|].
  cbn [PyStr.lstrip_if]. destruct (p c) eqn:Hc; [exact IH|].
  intros [= <- _]. exact Hc.
Qed.

(** X18. What [clean_text] returns holds no URL and only plain spaces: no
    [http] followed by a character that is not white space is left in it
    (a search for [http\S+] finds nothing), every white space character in
    it is a space, and it neither begins nor ends with one. *)
Theorem clean_text_leaves_no_url (text : string) :
  has_url (clean_text text) = false /\
  spaces_only (clean_text text) = true /\
  PyStr.startswith " " (clean_text text) = false /\
  PyStr.endswith " " (clean_text text) = false.
Proof.
  unfold clean_text, PyStr.strip_ws, sub_urls, PyStr.collapse_ws.
  set (t := sub_urls_aux false (PyStr.collapse_ws_aux false text)).
  assert (Hu : has_url t = false) by apply sub_urls_no_url.
  assert (Hs : spaces_only t = true).
  { apply spaces_only_sub_urls, spaces_only_collapse. }
  split; [apply has_url_rstrip, has_url_lstrip; exact Hu|].
  split; [apply spaces_only_rstrip, spaces_only_lstrip; exact Hs|].
  split.
  - unfold PyStr.startswith.
    destruct (PyStr.rstrip_if PyStr.isspace (PyStr.lstrip_if PyStr.isspace t))
      as [|a r] eqn:E; [reflexivity|].
    apply rstrip_if_head in E as (s' & E & _).
    apply lstrip_if_head in E.
    cbn [String.prefix]. destruct (ascii_dec " " a) as [<- | Hne]; [discriminate|reflexivity].
  - unfold PyStr.endswith, PyStr.rstrip_if, PyStr.chars, PyStr.str.
    rewrite list_ascii_of_string_of_list_ascii, rev_involutive,
      string_of_list_ascii_of_string.
    destruct (PyStr.lstrip_if PyStr.isspace
                (string_of_list_ascii
                   (rev (list_ascii_of_string (PyStr.lstrip_if PyStr.isspace t)))))
      as [|a r] eqn:E; [reflexivity|].
    apply lstrip_if_head in E.
    cbn [list_ascii_of_string rev app string_of_list_ascii String.prefix].
    destruct (ascii_dec " " a) as [<- | Hne]; [discriminate|reflexivity].
Qed.


(** ** The links of a page and the order of the frontier *)

Lemma collect_links_elem `{World} (page_url : string) (hrefs all : list string) (l : string) :
  collect_links page_url hrefs = Some all ->
  (l ∈ all <->
   exists a full, a ∈ hrefs /\ skipped_scheme (PyStr.strip_ws a) = false /\
     Urllib.urljoin page_url (fst (PyStr.split1 "#" (PyStr.strip_ws a))) = Some full /\
     l = normalize_url full).
Proof.
  revert all. induction hrefs as [|a hrefs IH]; intros all; cbn [collect_links].
  - intros [= <-]. split; [intros Hin; inversion Hin|].
    intros (a & full & Hin & _). inversion Hin.
  - destruct (skipped_scheme (PyStr.strip_ws a)) eqn:Hskip.
    + intros Hall. rewrite (IH all Hall). split.
      * intros (a' & full & Hin & Hrest). exists a', full. split; [right; exact Hin | exact Hrest].
      * intros (a' & full & Hin & Hs & Hrest).
        apply elem_of_cons in Hin as [-> | Hin]; [congruence|].
        exists a', full. split; [exact Hin|]. split; [exact Hs | exact Hrest].
    + destruct (Urllib.urljoin page_url (fst (PyStr.split1 "#" (PyStr.strip_ws a))))
        as [full|] eqn:Hjoin; [|discriminate].
      destruct (collect_links page_url hrefs) as [links|]; [|discriminate].
      intros [= <-]. rewrite elem_of_cons, (IH links eq_refl). split.
      * intros [-> | (a' & full' & Hin & Hrest)].
        -- exists a, full. split; [left|]. split; [exact Hskip|].
           split; [exact Hjoin | reflexivity].
        -- exists a', full'. split; [right; exact Hin | exact Hrest].
      * intros (a' & full' & Hin & Hs & Hj & ->).
        apply elem_of_cons in Hin as [-> | Hin].
        -- left. congruence.
        -- right. exists a', full'. split; [exact Hin|]. split; [exact Hs|].
           split; [exact Hj | reflexivity].
Qed.

Lemma uniq_links_complete `{World} (base : string) (links uniq : list string) (l : string) :
  l ∈ uniq \/ (l ∈ links /\ same_domain l base = true) -> l ∈ uniq_links base uniq links.
Proof.
  revert uniq. induction links as [|x links IH]; intros uniq; cbn [uniq_links].
  - intros [Hin | [Hin _]]; [exact Hin | inversion Hin].
  - intros Hl.
    destruct (bool_decide (x ∉ uniq)) eqn:Hx; cbn [andb].
    + destruct (same_domain x base) eqn:Hd; apply IH.
      * destruct Hl as [Hin | [Hin Hs]]; [left; apply elem_of_app; left; exact Hin|].
        apply elem_of_cons in Hin as [-> | Hin]; [|right; auto].
        left. apply elem_of_app. right. left.
      * destruct Hl as [Hin | [Hin Hs]]; [left; exact Hin|].
        apply elem_of_cons in Hin as [-> | Hin]; [congruence | right; auto].
    + apply bool_decide_eq_false in Hx. apply IH.
      destruct Hl as [Hin | [Hin Hs]]; [left; exact Hin|].
      apply elem_of_cons in Hin as [-> | Hin]; [|right; auto].
      left. destruct (decide (x ∈ uniq)) as [Hu | Hu]; [exact Hu | contradiction].
Qed.

(** X19. What [extract_links] returns, as a set: a URL is in the list
    exactly when it is in the domain of the crawl and is the normal form of
    the target of an anchor of the page, where the anchors that start with
    [mailto:], [tel:] or [javascript:] are left out and the target is the
    [href], stripped and cut at its first [#], joined to the URL of the
    page.  So no link of the domain is lost. *)
Theorem extract_links_exact `{World} (s : GIKIScraper) (html page_url : string)
  (hrefs links : list string) (l : string) :
  soup_hrefs html = Some hrefs ->
  extract_links s html page_url = Some links ->
  (l ∈ links <->
   same_domain l (base_url s) = true /\
   exists a full, a ∈ hrefs /\ skipped_scheme (PyStr.strip_ws a) = false /\
     Urllib.urljoin page_url (fst (PyStr.split1 "#" (PyStr.strip_ws a))) = Some full /\
     l = normalize_url full).
Proof.
  intros Hh. unfold extract_links. rewrite Hh.
  destruct (collect_links page_url hrefs) as [all|] eqn:Hall; [|discriminate].
  intros [= <-]. rewrite <- (collect_links_elem page_url hrefs all l Hall). split.
  - intros Hin.
    destruct (uniq_links_spec (base_url s) all [] (NoDup_nil_2)) as [_ He].
    apply He in Hin as [Hin | [Hin Hs]]; [inversion Hin | auto].
  - intros [Hs Hin]. apply uniq_links_complete. right. auto.
Qed.




Lemma extract_links_exact_witness :
  soup_hrefs (World := campus) "SEED-RENDERED" =
    Some ["/a"; "/b"; " /c#top"; "mailto:x@y"; "/wp-admin/z"; "https://other.org/";
          "/private"; "/a"; "/late?utm_source=feed"] /\
  extract_links (H := campus) campus_start "SEED-RENDERED" "https://x.edu/events" =
    Some ["https://x.edu/a"; "https://x.edu/b"; "https://x.edu/c";
          "https://x.edu/wp-admin/z"; "https://x.edu/private"; "https://x.edu/late"] /\
  ("https://x.edu/c" ∈
     ["https://x.edu/a"; "https://x.edu/b"; "https://x.edu/c";
      "https://x.edu/wp-admin/z"; "https://x.edu/private"; "https://x.edu/late"] <->
   same_domain (H := campus) "https://x.edu/c" (base_url campus_start) = true /\
   exists a full,
     a ∈ ["/a"; "/b"; " /c#top"; "mailto:x@y"; "/wp-admin/z"; "https://other.org/";
          "/private"; "/a"; "/late?utm_source=feed"] /\
     skipped_scheme (PyStr.strip_ws a) = false /\
     Urllib.urljoin (H := campus) "https://x.edu/events"
       (fst (PyStr.split1 "#" (PyStr.strip_ws a))) = Some full /\
     "https://x.edu/c" = normalize_url (H := campus) full).
Proof.
  assert (Hh : soup_hrefs (World := campus) "SEED-RENDERED" =
            Some ["/a"; "/b"; " /c#top"; "mailto:x@y"; "/wp-admin/z"; "https://other.org/";
                  "/private"; "/a"; "/late?utm_source=feed"]).
  { vm_compute. reflexivity. }
  assert (Hl : extract_links (H := campus) campus_start "SEED-RENDERED"
                 "https://x.edu/events" =
            Some ["https://x.edu/a"; "https://x.edu/b"; "https://x.edu/c";
                  "https://x.edu/wp-admin/z"; "https://x.edu/private";
                  "https://x.edu/late"]).
  { vm_compute. reflexivity. }
  split; [exact Hh|]. split; [exact Hl|].
  exact (extract_links_exact (H := campus) campus_start "SEED-RENDERED"
           "https://x.edu/events" _ _ "https://x.edu/c" Hh Hl).
Defined.
